(** * Termo terminal client (src/Client/client.py): a shallow embedding

    The client is a Python class whose methods read the keyboard, talk to
    a game server over one socket and print to the terminal.  The
    embedding keeps the methods as they are written, as programs of a
    state-and-exception monad over

    - the attributes of the [Client] instance, and
    - a [World]: scripts for what the environment answers (connection
      attempts, keyboard lines, request/response exchanges, interrupted
      waits) and the trace of everything the client did.

    Python values are typed after the wire protocol: a response is a JSON
    object whose fields are optional.  The numbers the client computes
    with are integers; the scores, which it only hands to the score table,
    are JSON numbers, an [int] or a [float].  *)

From Stdlib Require Import String Ascii DecimalString.
From Stdlib Require Import Floats.SpecFloat.
From Stdlib Require Import ZArith NArith Bool Lia List.
Import ListNotations.
Local Open Scope Z_scope.

(** ** Python runtime: text, exceptions *)

Module Py.

(** A Python [str] is a sequence of Unicode code points. *)
Definition str : Type := list N.

(** Source literals are written as UTF-8 text and decoded to code points. *)
Fixpoint utf8_decode (bs : list N) : str :=
  match bs with
  | [] => []
  | b0 :: t0 =>
    if (b0 <? 128)%N then b0 :: utf8_decode t0
    else match t0 with
    | [] => []
    | b1 :: t1 =>
      if (b0 <? 224)%N
      then ((b0 - 192) * 64 + (b1 - 128))%N :: utf8_decode t1
      else match t1 with
      | [] => []
      | b2 :: t2 =>
        if (b0 <? 240)%N
        then ((b0 - 224) * 4096 + (b1 - 128) * 64 + (b2 - 128))%N
               :: utf8_decode t2
        else match t2 with
        | [] => []
        | b3 :: t3 =>
          ((b0 - 240) * 262144 + (b1 - 128) * 4096
           + (b2 - 128) * 64 + (b3 - 128))%N :: utf8_decode t3
        end
      end
    end
  end.

Definition lit (s : string) : str :=
  utf8_decode (map N_of_ascii (list_ascii_of_string s)).

(** The escape character written [\033] in the source. *)
Definition ESC : str := [27%N].

(** The newline written [\n] in the source. *)
Definition NL : str := [10%N].

(** [a == b] on strings. *)
Fixpoint str_eqb (a b : str) : bool :=
  match a, b with
  | [], [] => true
  | x :: a', y :: b' => (x =? y)%N && str_eqb a' b'
  | _, _ => false
  end.

(** [str(n)] for an [int]. *)
Definition str_of_int (n : Z) : str := lit (NilZero.string_of_int (Z.to_int n)).

(** [f"{x}"] for a value that is a [str] or [None]. *)
Definition format_opt (x : option str) : str :=
  match x with
  | Some s => s
  | None => lit "None"
  end.

(** [sep.join(items)]. *)
Fixpoint join (sep : str) (items : list str) : str :=
  match items with
  | [] => []
  | [x] => x
  | x :: rest => x ++ sep ++ join sep rest
  end.

(** [s * n] for a one-character string. *)
Definition times (s : str) (n : nat) : str := concat (repeat s n).

(** The exception classes the client meets. *)
Inductive exn_class :=
| TypeError | KeyError | IndexError | AttributeError
| ValueError | JSONDecodeError | OSError | EOFError
| KeyboardInterrupt | SystemExit.

(** An exception: its class and [str(e)]. *)
Record exn := Exn { exn_cls : exn_class; exn_msg : str }.

Definition class_eqb (a b : exn_class) : bool :=
  match a, b with
  | TypeError, TypeError | KeyError, KeyError | IndexError, IndexError
  | AttributeError, AttributeError | ValueError, ValueError
  | JSONDecodeError, JSONDecodeError | OSError, OSError
  | EOFError, EOFError | KeyboardInterrupt, KeyboardInterrupt
  | SystemExit, SystemExit => true
  | _, _ => false
  end.

(** [isinstance(e, c)]: [json.JSONDecodeError] derives from [ValueError];
    [socket.error] is [OSError] itself. *)
Definition isinstance (e : exn) (c : exn_class) : bool :=
  class_eqb (exn_cls e) c
  || match c, exn_cls e with
     | ValueError, JSONDecodeError => true
     | _, _ => false
     end.

(** [isinstance(e, Exception)]: everything but the two [BaseException]s. *)
Definition is_Exception (e : exn) : bool :=
  match exn_cls e with
  | KeyboardInterrupt | SystemExit => false
  | _ => true
  end.

(** What the interpreter raises, with CPython's messages. *)
Definition TypeError_ge_None : exn :=
  Exn TypeError
      (lit "'>=' not supported between instances of 'NoneType' and 'int'").
Definition KeyError_ (key : string) : exn :=
  Exn KeyError (lit "'" ++ lit key ++ lit "'").
Definition IndexError_str : exn :=
  Exn IndexError (lit "string index out of range").
Definition AttributeError_None (attr : string) : exn :=
  Exn AttributeError
      (lit "'NoneType' object has no attribute '" ++ lit attr ++ lit "'").
Definition TypeError_not_iterable : exn :=
  Exn TypeError (lit "'NoneType' object is not iterable").
Definition EOFError_ : exn := Exn EOFError (lit "EOF when reading a line").
Definition KeyboardInterrupt_ : exn := Exn KeyboardInterrupt [].
Definition SystemExit_ (code : Z) : exn := Exn SystemExit (str_of_int code).

Inductive outcome (A : Type) : Type :=
| Ret (a : A)
| Raise (e : exn).
Arguments Ret {A} a.
Arguments Raise {A} e.

(** A JSON number as [json.loads] returns it: an [int], or a [float]
    (a binary64 value, [NaN] and the infinities included). *)
Inductive number := PyInt (n : Z) | PyFloat (x : spec_float).

End Py.
Import Py.

(** ** Data model *)

(** The enum at the top of the file. *)
Inductive GameStatus := NO_GAME | GAME_IN_PROGRESS | GAME_FINISHED.

Definition GameStatus_eqb (a b : GameStatus) : bool :=
  match a, b with
  | NO_GAME, NO_GAME | GAME_IN_PROGRESS, GAME_IN_PROGRESS
  | GAME_FINISHED, GAME_FINISHED => true
  | _, _ => false
  end.

(** The word history.  [utils.LinkedStack] is imported by the client. *)
Module LinkedStack.

(** Modelled from the spec: the class [LinkedStack] of [utils] is not among
    the sources.  The spec describes a last-in-first-out container with
    push, bulk clear, size query, emptiness test and a multi-line textual
    rendering scanned from the most recently pushed entry to the oldest.
    The head of the list is the top.  An entry is whatever the client
    pushes: a colourised string, or [None]. *)
Definition t : Type := list (option str).

Definition empty : t := [].
Definition stack_up (item : option str) (s : t) : t := item :: s.
Definition clear (s : t) : t := [].
Definition len (s : t) : Z := Z.of_nat (length s).
Definition truthy (s : t) : bool := negb (len s =? 0).
Definition render (s : t) : str := join NL (map format_opt s).

End LinkedStack.

(** The dictionaries of the wire protocol. *)
Module Request.
Record t := Build { command : str; parameter : option str }.
End Request.

Module Response.
(** A field is [None] when the key is absent from the JSON object. *)
Record t := Build {
  status_code : option Z;
  remaining_attempts : option Z;
  word_encoded : option (list Z);
  secret_word : option str;
  rounds_scores : option (list (str * number));
  total_score : option number
}.
End Response.

(** The keyword arguments [**extra_info] of the rendering methods; a
    field is what [extra_info.get(key)] returns. *)
Module Kwargs.
Record t := Build {
  remaining_attempts : option Z;
  format_output : option str;
  secret_word : option str;
  player_name : option str;
  rounds_scores : option (list (str * number));
  total_score : option number
}.
Definition none : t := Build None None None None None None.
End Kwargs.

(** ** The [prettytable] package

    A [PrettyTable] object: its title, its column names and its rows.
    A cell is a string or a score ([None] for a JSON [null]). *)
Inductive cell := CStr (s : str) | CNum (n : option number).
Record Table := {
  title : option str;
  field_names : list str;
  rows : list (list cell)
}.

(** The operations of the package that the client calls, on the table
    as a value.  An operation validates before it assigns, so a raised
    [ValueError] leaves the table as it was.  The alignment of the
    columns changes the layout only and is left out. *)
Module PrettyTable.

(** [PrettyTable()]. *)
Definition new : Table := {| title := None; field_names := []; rows := [] |}.

(** [table.clear_rows()]: the rows go, the columns stay. *)
Definition clear_rows (t : Table) : Table :=
  {| title := title t; field_names := field_names t; rows := [] |}.

(** [table.title = val]. *)
Definition set_title (val : str) (t : Table) : Table :=
  {| title := Some val; field_names := field_names t; rows := rows t |}.

(** [len(val) == len(set(val))]. *)
Fixpoint distinct (val : list str) : bool :=
  match val with
  | [] => true
  | name :: rest => negb (existsb (str_eqb name) rest) && distinct rest
  end.

Definition wrong_number_of_names (actual expected : nat) : exn :=
  Exn ValueError
      (lit "Field name list has incorrect number of values, (actual) "
       ++ str_of_int (Z.of_nat actual) ++ lit "!="
       ++ str_of_int (Z.of_nat expected) ++ lit " (expected)").

(** [if self._field_names:] and [if self._rows:]. *)
Definition nonempty {A} (l : list A) : bool :=
  match l with
  | [] => false
  | _ :: _ => true
  end.

(** The validation of the column names: a table that has columns
    accepts as many names as it has columns, a table that has rows as
    many as its first row has cells, and the names are distinct. *)
Definition validate_field_names (val : list str) (t : Table) : option exn :=
  if nonempty (field_names t)
     && negb (length val =? length (field_names t))%nat then
    Some (wrong_number_of_names (length val) (length (field_names t)))
  else if nonempty (rows t)
          && negb (length val =? length (hd [] (rows t)))%nat then
    Some (wrong_number_of_names (length val) (length (hd [] (rows t))))
  else if negb (distinct val) then
    Some (Exn ValueError (lit "Field names must be unique"))
  else None.

(** [table.field_names = val]. *)
Definition set_field_names (val : list str) (t : Table) : outcome Table :=
  match validate_field_names val t with
  | Some e => Raise e
  | None => Ret {| title := title t; field_names := val; rows := rows t |}
  end.

(** [table.add_row(row)]: a table without columns names them
    "Field 1", "Field 2", ... after the row. *)
Definition add_row (row : list cell) (t : Table) : outcome Table :=
  if nonempty (field_names t)
     && negb (length row =? length (field_names t))%nat then
    Raise (Exn ValueError
             (lit "Row has incorrect number of values, (actual) "
              ++ str_of_int (Z.of_nat (length row)) ++ lit "!="
              ++ str_of_int (Z.of_nat (length (field_names t)))
              ++ lit " (expected)"))
  else
    match (if nonempty (field_names t) then Ret t
           else set_field_names
                  (map (fun n => lit "Field " ++ str_of_int (Z.of_nat (S n)))
                       (seq 0 (length row))) t) with
    | Ret t' => Ret {| title := title t'; field_names := field_names t';
                       rows := rows t' ++ [row] |}
    | Raise e => Raise e
    end.

(** The loop of [add_column]: cell [i] of the column goes to the end of
    row [i], which is created when it is not there. *)
Fixpoint append_column (rows : list (list cell)) (column : list cell)
    : list (list cell) :=
  match column with
  | [] => rows
  | x :: column' =>
    match rows with
    | [] => [x] :: append_column [] column'
    | row :: rows' => (row ++ [x]) :: append_column rows' column'
    end
  end.

(** [table.add_column(fieldname, column)]: the name is not compared
    with the names already there. *)
Definition add_column (fieldname : str) (column : list cell) (t : Table)
    : outcome Table :=
  if (length (rows t) =? 0)%nat || (length (rows t) =? length column)%nat then
    Ret {| title := title t; field_names := field_names t ++ [fieldname];
           rows := append_column (rows t) column |}
  else
    Raise (Exn ValueError
             (lit "Column length " ++ str_of_int (Z.of_nat (length column))
              ++ lit " does not match number of rows "
              ++ str_of_int (Z.of_nat (length (rows t))))).

End PrettyTable.

Definition socket : Type := nat.

(** Everything the client does to its environment, in order. *)
Inductive event :=
| EConnect (sock : socket) (host : str) (port : Z)
| ESend (sock : socket) (body : Request.t)
| ERecv (sock : socket) (bufsize : Z)
| EClose (sock : socket)
| EPrint (text : str)
| EPrintTable (t : Table)
| EInput (prompt : str)
| ESleep (secs : Z).

(** What the next [input()] meets. *)
Inductive key_event := Line (s : str) | CtrlC.

(** What the next request/response exchange meets. *)
Inductive exchange :=
| SendFails (msg : str)      (* [sendall] raises [OSError] *)
| RecvFails (msg : str)      (* [recv] raises [OSError] *)
| Undecodable (msg : str)    (* [json.loads] raises [JSONDecodeError] *)
| Reply (r : Response.t).

Record World := {
  connections : list bool;   (* does the next [connect] succeed *)
  keyboard : list key_event; (* end of list: end of file *)
  exchanges : list exchange; (* end of list: the peer has closed *)
  sleeps : list bool;        (* is the next [sleep] interrupted *)
  sockets : nat;             (* sockets created so far *)
  trace : list event
}.

(** The attributes set by [__init__].  The menu table [__table] is
    given the same two column names at every rendering and its rows are
    rebuilt each time, so what it holds between two renderings shows
    nowhere; it is built where it is printed.  The score table is kept:
    its columns outlive [clear_rows] and decide what the next rendering
    accepts. *)
Record Client := {
  __HOST : str;
  __MSG_SIZE : Z;
  __PORT : Z;
  __sock : option socket;
  __game_status : GameStatus;
  __user_name : option str;
  __words_stack : LinkedStack.t;
  __scores_table : Table
}.

Record State := { self : Client; world : World }.

(** [Client()] with [server_config()] returning [(msg_size, port)]. *)
Definition Client__init__ (msg_size port : Z) : Client :=
  {| __HOST := lit "127.0.0.1";
     __MSG_SIZE := msg_size;
     __PORT := port;
     __sock := None;
     __game_status := NO_GAME;
     __user_name := None;
     __words_stack := LinkedStack.empty;
     __scores_table := PrettyTable.new |}.

(** ** The monad of the methods: state and exceptions

    A raised exception keeps the state reached when it was raised, as a
    Python exception keeps the mutations done before it. *)

Definition M (A : Type) : Type := State -> outcome A * State.

Definition ret {A} (a : A) : M A := fun s => (Ret a, s).

Definition raise {A} (e : exn) : M A := fun s => (Raise e, s).

Definition bind {A B} (m : M A) (k : A -> M B) : M B :=
  fun s =>
    match m s with
    | (Ret a, s') => k a s'
    | (Raise e, s') => (Raise e, s')
    end.

(** [try: m  except ...: h]; [h e] is [None] when no clause matches [e]. *)
Definition try_except {A} (m : M A) (h : exn -> option (M A)) : M A :=
  fun s =>
    match m s with
    | (Ret a, s') => (Ret a, s')
    | (Raise e, s') =>
      match h e with
      | Some k => k s'
      | None => (Raise e, s')
      end
    end.

Declare Scope py_scope.
Delimit Scope py_scope with py.
Notation "x <- m ;; k" := (bind m (fun x => k))
  (at level 61, m at next level, right associativity) : py_scope.
Notation "m ;; k" := (bind m (fun _ => k))
  (at level 61, right associativity) : py_scope.
Local Open Scope py_scope.

Definition get_self : M Client := fun s => (Ret (self s), s).

Definition modify_self (f : Client -> Client) : M unit :=
  fun s => (Ret tt, {| self := f (self s); world := world s |}).

Definition modify_world (f : World -> World) : M unit :=
  fun s => (Ret tt, {| self := self s; world := f (world s) |}).

Definition set_sock (v : option socket) (c : Client) : Client :=
  {| __HOST := __HOST c; __MSG_SIZE := __MSG_SIZE c; __PORT := __PORT c;
     __sock := v; __game_status := __game_status c;
     __user_name := __user_name c; __words_stack := __words_stack c;
     __scores_table := __scores_table c |}.

Definition set_game_status (v : GameStatus) (c : Client) : Client :=
  {| __HOST := __HOST c; __MSG_SIZE := __MSG_SIZE c; __PORT := __PORT c;
     __sock := __sock c; __game_status := v;
     __user_name := __user_name c; __words_stack := __words_stack c;
     __scores_table := __scores_table c |}.

Definition set_user_name (v : option str) (c : Client) : Client :=
  {| __HOST := __HOST c; __MSG_SIZE := __MSG_SIZE c; __PORT := __PORT c;
     __sock := __sock c; __game_status := __game_status c;
     __user_name := v; __words_stack := __words_stack c;
     __scores_table := __scores_table c |}.

Definition set_words_stack (v : LinkedStack.t) (c : Client) : Client :=
  {| __HOST := __HOST c; __MSG_SIZE := __MSG_SIZE c; __PORT := __PORT c;
     __sock := __sock c; __game_status := __game_status c;
     __user_name := __user_name c; __words_stack := v;
     __scores_table := __scores_table c |}.

Definition set_scores_table (v : Table) (c : Client) : Client :=
  {| __HOST := __HOST c; __MSG_SIZE := __MSG_SIZE c; __PORT := __PORT c;
     __sock := __sock c; __game_status := __game_status c;
     __user_name := __user_name c; __words_stack := __words_stack c;
     __scores_table := v |}.

(** A call of a method of the score table: the object held by the
    attribute is updated in place, or the call raises. *)
Definition update_scores_table (method : Table -> outcome Table) : M unit :=
  fun s =>
    match method (__scores_table (self s)) with
    | Ret t => (Ret tt, {| self := set_scores_table t (self s); world := world s |})
    | Raise e => (Raise e, s)
    end.

Definition log (e : event) (w : World) : World :=
  {| connections := connections w; keyboard := keyboard w;
     exchanges := exchanges w; sleeps := sleeps w; sockets := sockets w;
     trace := trace w ++ [e] |}.

Definition set_connections (v : list bool) (w : World) : World :=
  {| connections := v; keyboard := keyboard w; exchanges := exchanges w;
     sleeps := sleeps w; sockets := sockets w; trace := trace w |}.

Definition set_sockets (v : nat) (w : World) : World :=
  {| connections := connections w; keyboard := keyboard w;
     exchanges := exchanges w; sleeps := sleeps w; sockets := v;
     trace := trace w |}.

Definition set_keyboard (v : list key_event) (w : World) : World :=
  {| connections := connections w; keyboard := v; exchanges := exchanges w;
     sleeps := sleeps w; sockets := sockets w; trace := trace w |}.

Definition set_exchanges (v : list exchange) (w : World) : World :=
  {| connections := connections w; keyboard := keyboard w; exchanges := v;
     sleeps := sleeps w; sockets := sockets w; trace := trace w |}.

Definition set_sleeps (v : list bool) (w : World) : World :=
  {| connections := connections w; keyboard := keyboard w;
     exchanges := exchanges w; sleeps := v; sockets := sockets w;
     trace := trace w |}.

(** ** The built-ins and library calls the client uses *)

(** [print(text)]. *)
Definition print (text : str) : M unit := modify_world (log (EPrint text)).

(** [print(table)] for a [PrettyTable]. *)
Definition print_table (t : Table) : M unit :=
  modify_world (log (EPrintTable t)).

(** [input(prompt)]: [EOFError] at end of file, [KeyboardInterrupt] on
    Ctrl-C. *)
Definition input (prompt : str) : M str :=
  fun s =>
    let w := log (EInput prompt) (world s) in
    match keyboard w with
    | [] => (Raise EOFError_, {| self := self s; world := w |})
    | Line l :: rest =>
      (Ret l, {| self := self s; world := set_keyboard rest w |})
    | CtrlC :: rest =>
      (Raise KeyboardInterrupt_,
       {| self := self s; world := set_keyboard rest w |})
    end.

(** [sleep(secs)]. *)
Definition sleep (secs : Z) : M unit :=
  fun s =>
    let w := log (ESleep secs) (world s) in
    match sleeps w with
    | true :: rest =>
      (Raise KeyboardInterrupt_,
       {| self := self s; world := set_sleeps rest w |})
    | false :: rest => (Ret tt, {| self := self s; world := set_sleeps rest w |})
    | [] => (Ret tt, {| self := self s; world := w |})
    end.

(** [sys.exit(code)] and the built-in [exit(code)]. *)
Definition sys_exit {A} (code : Z) : M A := raise (SystemExit_ code).

(** [sock = socket.socket(AF_INET, SOCK_STREAM); sock.connect((host, port))]:
    the new socket is numbered by the count of sockets created before it;
    a script at its end refuses. *)
Definition socket_connect (host : str) (port : Z) : M socket :=
  fun s =>
    let w := world s in
    let sk := sockets w in
    let w' := set_connections (tl (connections w))
                (set_sockets (S sk) (log (EConnect sk host port) w)) in
    match connections w with
    | true :: _ => (Ret sk, {| self := self s; world := w' |})
    | _ =>
      (Raise (Exn OSError (lit "[Errno 111] Connection refused")),
       {| self := self s; world := w' |})
    end.

(** What [recv] hands to [json.loads]. *)
Inductive bytes := Payload (r : Response.t) | Garbage (msg : str).

(** [sock.sendall(json.dumps(body).encode())]. *)
Definition sendall (sock : option socket) (body : Request.t) : M unit :=
  fun s =>
    match sock with
    | None => (Raise (AttributeError_None "sendall"), s)
    | Some sk =>
      let w := log (ESend sk body) (world s) in
      match exchanges w with
      | SendFails msg :: rest =>
        (Raise (Exn OSError msg),
         {| self := self s; world := set_exchanges rest w |})
      | _ => (Ret tt, {| self := self s; world := w |})
      end
    end.

(** [sock.recv(bufsize)]; a peer that has closed yields no bytes. *)
Definition recv (sock : option socket) (bufsize : Z) : M bytes :=
  fun s =>
    match sock with
    | None => (Raise (AttributeError_None "recv"), s)
    | Some sk =>
      let w := log (ERecv sk bufsize) (world s) in
      match exchanges w with
      | [] =>
        (Ret (Garbage (lit "Expecting value: line 1 column 1 (char 0)")),
         {| self := self s; world := w |})
      | Reply r :: rest =>
        (Ret (Payload r), {| self := self s; world := set_exchanges rest w |})
      | Undecodable msg :: rest =>
        (Ret (Garbage msg), {| self := self s; world := set_exchanges rest w |})
      | RecvFails msg :: rest | SendFails msg :: rest =>
        (Raise (Exn OSError msg),
         {| self := self s; world := set_exchanges rest w |})
      end
    end.

(** [json.loads(response)]. *)
Definition json_loads (response : bytes) : M Response.t :=
  match response with
  | Payload r => ret r
  | Garbage msg => raise (Exn JSONDecodeError msg)
  end.

(** [sock.close()]. *)
Definition close (sock : option socket) : M unit :=
  match sock with
  | None => raise (AttributeError_None "close")
  | Some sk => modify_world (log (EClose sk))
  end.

(** [d[key]] on a response: [KeyError] when the key is absent. *)
Definition getitem {A} (key : string) (field : option A) : M A :=
  match field with
  | Some v => ret v
  | None => raise (KeyError_ key)
  end.

(** [outcome] of a method that touches no state. *)
Definition lift {A} (r : outcome A) : M A := fun s => (r, s).

(** [x == n] for a value that is an [int] or [None]. *)
Definition int_eqb (x : option Z) (n : Z) : bool :=
  match x with
  | Some m => m =? n
  | None => false
  end.

(** [x in ['1', '2']]. *)
Definition in_1_2 (x : str) : bool := str_eqb x (lit "1") || str_eqb x (lit "2").

(** [str.lower] on ASCII text. *)
Definition ascii_lower (s : str) : str :=
  map (fun c => if ((65 <=? c) && (c <=? 90))%N then (c + 32)%N else c) s.

(** ** The methods of [Client] *)

Section Methods.

(** The built-in [str.lower]; it follows the Unicode tables of the
    interpreter, and is [ascii_lower] on ASCII text. *)
Variable str_lower : str -> str.

(** Lines 37-64. *)
Fixpoint connect_attempts (attempts : nat) : M socket :=
  match attempts with
  | O =>
    raise (Exn OSError
      (lit "Não foi possível conectar ao servidor. Tente reiniciar o cliente."))
  | S attempts' =>
    returned <-
      try_except
        (c <- get_self ;;
         sock <- socket_connect (__HOST c) (__PORT c) ;;
         ret (Some sock))
        (fun e =>
           if isinstance e OSError then Some (
             try_except
               (print (lit "Erro ao conectar ao servidor. Tentando novamente em 5 segundos.") ;;
                sleep 5)
               (fun e' =>
                  if isinstance e' KeyboardInterrupt then Some (
                    print (lit "Encerrando o Termo!") ;;
                    sys_exit 0)
                  else None) ;;
             ret None)
           else None) ;;
    match returned with
    | Some sock => ret sock
    | None => connect_attempts attempts'
    end
  end.

Definition __connect_to_server : M socket := connect_attempts 5.

(** Lines 67-89. *)
Definition __render_menu_table : M unit :=
  c <- get_self ;;
  let base :=
    [ [CStr (lit "1"); CStr (lit "Começar um jogo")];
      [CStr (lit "2"); CStr (lit "Sair do jogo atual")] ] in
  let more :=
    if negb (GameStatus_eqb (__game_status c) NO_GAME) then
      [ [CStr (lit "3"); CStr (lit "Verificar palavra")];
        [CStr (lit "4"); CStr (lit "Listar palavras digitadas nesta rodada")];
        [CStr (lit "5"); CStr (lit "Reiniciar o jogo atual")] ]
    else [] in
  print (lit "") ;;
  print_table {| title := None;
                 field_names := [lit "Opção"; lit "Descrição"];
                 rows := base ++ more |}.

(** Lines 92-110.  [rounds_scores] is the dictionary as the list of
    its items, in order. *)
Definition __render_score_table
    (rounds_scores : option (list (str * number))) (total_score : option number)
    : M unit :=
  update_scores_table (fun t => Ret (PrettyTable.clear_rows t)) ;;
  c <- get_self ;;
  update_scores_table
    (fun t => Ret (PrettyTable.set_title
                     (lit "Pontuação de " ++ format_opt (__user_name c)) t)) ;;
  match rounds_scores with
  | None => raise (AttributeError_None "keys")
  | Some d =>
    update_scores_table (PrettyTable.set_field_names (map fst d)) ;;
    update_scores_table
      (PrettyTable.add_row (map (fun kv => CNum (Some (snd kv))) d)) ;;
    update_scores_table
      (PrettyTable.add_column (lit "Pontuação Total") [CNum total_score]) ;;
    print (lit "") ;;
    c <- get_self ;;
    print_table (__scores_table c)
  end.

(** Lines 113-151. *)
Definition __process_user_command (user_command : str) : M (str * option str) :=
  c <- get_self ;;
  if str_eqb user_command (lit "1") then
    ret (lit "start_game", __user_name c)
  else if str_eqb user_command (lit "2") then
    ret (lit "exit_game", None)
  else if str_eqb user_command (lit "3")
          && GameStatus_eqb (__game_status c) GAME_IN_PROGRESS then
    user_input <- input (lit "Digite uma palavra: ") ;;
    ret (lit "check_word", Some (str_lower user_input))
  else if str_eqb user_command (lit "4")
          && GameStatus_eqb (__game_status c) GAME_IN_PROGRESS then
    ret (lit "list_words", None)
  else if str_eqb user_command (lit "5")
          && GameStatus_eqb (__game_status c) GAME_IN_PROGRESS then
    ret (lit "restart_game", __user_name c)
  else
    raise (Exn ValueError (lit "Comando inválido:" ++ lit " " ++ user_command)).

(** Lines 154-173. *)
Definition __send_requisition (req_body : Request.t) : M Response.t :=
  c <- get_self ;;
  sendall (__sock c) req_body ;;
  response <- recv (__sock c) (__MSG_SIZE c) ;;
  response_data <- json_loads response ;;
  ret response_data.

(** Lines 176-180. *)
Definition __print_welcome_message : M unit :=
  print (NL ++ times (lit "=") 50 ++ NL
         ++ lit "Bem vindo ao jogo de palavras Termo!" ++ NL
         ++ times (lit "=") 50).

(** Lines 183-187. *)
Definition __get_username : M str := input (lit "Digite seu nome: ").

(** Lines 190-194. *)
Definition __get_user_command : M str := input (lit "Termo> ").

(** Lines 197-201. *)
Definition __print_exit_message : M unit :=
  print (ESC ++ lit "[90mPressione Ctrl + C para sair do jogo!" ++ ESC ++ lit "[0m").

(** Lines 204-208. *)
Definition __print_end_game_message : M unit :=
  print (NL ++ lit "A rodada acabou! Deseja continuar jogando?").

(** Lines 211-215. *)
Definition __print_goodbye_message : M unit :=
  c <- get_self ;;
  print (NL ++ lit "Até a próxima, " ++ format_opt (__user_name c)
         ++ lit "! Obrigado por jogar o Termo!").

(** Lines 218-227. *)
Definition __handle_keyboard_interrupt : M unit :=
  c <- get_self ;;
  print (NL ++ lit "Obrigado por jogar " ++ format_opt (__user_name c) ++ lit "!"
         ++ NL ++ lit " Foi feito com ❤️  em 🐍" ++ NL) ;;
  close (__sock c) ;;
  sys_exit 0.

(** Lines 230-244. *)
Definition __create_request_body (command : str) (parameter : option str)
  : Request.t :=
  {| Request.command := command; Request.parameter := parameter |}.

(** The [while] loop of lines 256-257.  Every turn of the loop reads the
    keyboard, so the keyboard script at the loop head bounds the turns: at
    its end [input] raises [EOFError] and the loop is left. *)
Fixpoint reprompt (pending : list key_event) (usr_input : str) : M str :=
  if negb (in_1_2 usr_input) then
    match pending with
    | [] => input (lit "Digite uma opção válida (1/2): ")
    | _ :: pending' =>
      usr_input' <- input (lit "Digite uma opção válida (1/2): ") ;;
      reprompt pending' usr_input'
    end
  else ret usr_input.

(** Lines 247-259. *)
Definition __get_user_end_game_option : M str :=
  usr_input <- input (lit "Digite 1 para continuar ou 2 para sair: ") ;;
  fun s => reprompt (keyboard (world s)) usr_input s.

(** Lines 262-275.  [None >= 0] is a [TypeError]. *)
Definition __return_attempts (remaining_attempts : option Z) : M str :=
  match remaining_attempts with
  | None => raise TypeError_ge_None
  | Some n =>
    if n >=? 0 then
      ret (lit "Tentativas Restantes: " ++ str_of_int n)
    else
      c <- get_self ;;
      ret (lit "Número de tentativas até agora: "
           ++ str_of_int (LinkedStack.len (__words_stack c)))
  end.

(** Lines 278-294. *)
Definition __check_exit_game (option : str) : M bool :=
  if str_eqb option (lit "1") then
    modify_self (set_game_status GAME_IN_PROGRESS) ;;
    ret false
  else
    modify_self (set_game_status GAME_FINISHED) ;;
    ret true.

(** The three branches of lines 345-350 for one entry and its letter. *)
Definition colour (items : Z) (letter : N) : str :=
  if items =? 2 then ESC ++ lit "[92m" ++ [letter] ++ ESC ++ lit "[0m"
  else if items =? 1 then ESC ++ lit "[93m" ++ [letter] ++ ESC ++ lit "[0m"
  else ESC ++ lit "[90m" ++ [letter] ++ ESC ++ lit "[0m".

(** The [for] loop of lines 344-350; [word[index]] past the end of the
    word is an [IndexError]. *)
Fixpoint format_loop (word : str) (index : nat) (format_instructions : list Z)
    (output : str) : outcome str :=
  match format_instructions with
  | [] => Ret output
  | items :: rest =>
    match nth_error word index with
    | None => Raise IndexError_str
    | Some letter => format_loop word (S index) rest (output ++ colour items letter)
    end
  end.

(** Truth value of a [str] or list that may be [None]. *)
Definition truthy {A} (x : option (list A)) : bool :=
  match x with
  | Some (_ :: _) => true
  | _ => false
  end.

(** Lines 331-354.  The bare [return] returns [None]. *)
Definition __format_output (word : option str)
    (format_instructions : option (list Z)) : outcome (option str) :=
  if truthy word && truthy format_instructions then
    match word, format_instructions with
    | Some word, Some format_instructions =>
      match format_loop word 0 format_instructions [] with
      | Ret output => Ret (Some output)
      | Raise e => Raise e
      end
    | _, _ => Ret None
    end
  else Ret None.

(** The [for] loop of lines 368-371: [shown] are the letters revealed so
    far, [hidden] those still masked. *)
Fixpoint reveal (shown hidden : str) : M unit :=
  match hidden with
  | [] => ret tt
  | char :: rest =>
    print ((shown ++ [char]) ++ times (lit "_") (length rest)) ;;
    sleep 1 ;;
    reveal (shown ++ [char]) rest
  end.

(** Lines 356-371. *)
Definition __secret_word_animation (word : option str) : M unit :=
  match word with
  | None => raise TypeError_not_iterable
  | Some word =>
    print (lit "Você não conseguiu acertar a palavra secreta!" ++ NL
           ++ lit "A palavra era:" ++ NL) ;;
    reveal [] word
  end.

(** Lines 391-438. *)
Definition __handle_successful_cases (response_status : Z)
    (extra_info : Kwargs.t) : M unit :=
  let remaining_attempts := Kwargs.remaining_attempts extra_info in
  let format_output := Kwargs.format_output extra_info in
  let secret_word := Kwargs.secret_word extra_info in
  let player_name := Kwargs.player_name extra_info in
  if response_status =? 200 then
    print (lit "Jogo Iniciado com Sucesso")
  else if response_status =? 201 then
    print (lit "Jogo Finalizado com Sucesso")
  else if response_status =? 202 then
    c <- get_self ;;
    attempts <- __return_attempts remaining_attempts ;;
    print (NL ++ lit "🏆 Parabéns! Palavra Correta! 😎" ++ NL
           ++ lit "Lista de Palavras Anteriores:" ++ NL
           ++ LinkedStack.render (__words_stack c) ++ NL ++ attempts) ;;
    __render_score_table (Kwargs.rounds_scores extra_info)
                         (Kwargs.total_score extra_info) ;;
    modify_self (fun c => set_words_stack (LinkedStack.clear (__words_stack c)) c)
  else if response_status =? 203 then
    modify_self
      (fun c => set_words_stack (LinkedStack.stack_up format_output (__words_stack c)) c) ;;
    attempts <- __return_attempts remaining_attempts ;;
    print (NL ++ lit "Palavra Incorreta!" ++ NL ++ format_opt format_output
           ++ NL ++ attempts) ;;
    if int_eqb remaining_attempts 0 then
      modify_self (fun c => set_words_stack (LinkedStack.clear (__words_stack c)) c) ;;
      __secret_word_animation secret_word ;;
      __render_score_table (Kwargs.rounds_scores extra_info)
                           (Kwargs.total_score extra_info)
    else ret tt
  else if response_status =? 204 then
    c <- get_self ;;
    if LinkedStack.truthy (__words_stack c) then
      print (lit "Lista de Palavras:" ++ NL ++ LinkedStack.render (__words_stack c))
    else
      print (lit "Não há palavras inseridas nesta rodada!")
  else if response_status =? 205 then
    print (lit "Jogo reiniciado com sucesso") ;;
    modify_self (fun c => set_words_stack (LinkedStack.clear (__words_stack c)) c)
  else if response_status =? 206 then
    print (lit "Jogo Continuado com Sucesso, Boa Sorte na Próxima Rodada "
           ++ format_opt player_name ++ lit "!")
  else ret tt.

(** [if remaining_attempts:] for an [int] or [None]. *)
Definition truthy_int (x : option Z) : bool :=
  match x with
  | Some n => negb (n =? 0)
  | None => false
  end.

(** Lines 441-475. *)
Definition __handle_error_cases (response_status : Z)
    (extra_info : Kwargs.t) : M unit :=
  let remaining_attempts := Kwargs.remaining_attempts extra_info in
  if response_status =? 400 then
    print (lit "Jogo já iniciado")
  else if response_status =? 401 then
    print (lit "Jogo não iniciado")
  else if response_status =? 402 then
    attempts <- __return_attempts remaining_attempts ;;
    print (lit "É necessário digitar uma palavra" ++ NL ++ attempts)
  else if response_status =? 403 then
    attempts <- __return_attempts remaining_attempts ;;
    print (lit "A palavra deve ter 5 letras" ++ NL ++ attempts)
  else if response_status =? 404 then
    attempts <- __return_attempts remaining_attempts ;;
    print (lit "A palavra não existe no dicionário" ++ NL ++ attempts)
  else if response_status =? 405 then
    attempts <- __return_attempts remaining_attempts ;;
    print (lit "Palavra já utilizada" ++ NL ++ attempts)
  else if response_status =? 499 then
    print (ESC ++ lit "[91m Comando inválido" ++ ESC ++ lit "[0m") ;;
    if truthy_int remaining_attempts then
      attempts <- __return_attempts remaining_attempts ;;
      print attempts
    else ret tt
  else ret tt.

(** Lines 374-388. *)
Definition __render_response (response_status : Z) (extra_info : Kwargs.t)
  : M unit :=
  if (200 <=? response_status) && (response_status <? 400) then
    __handle_successful_cases response_status extra_info
  else if (400 <=? response_status) && (response_status <? 500) then
    __handle_error_cases response_status extra_info
  else ret tt.

(** The request of lines 309-312. *)
Definition continue_game : Request.t :=
  {| Request.command := lit "continue_game"; Request.parameter := None |}.

(** The [for] loop of lines 314-326 and the line after it. *)
Fixpoint continue_attempts (attempts : nat) : M unit :=
  match attempts with
  | O =>
    print (lit "Ocorreu um erro ao continuar o jogo. Por favor, considere reiniciar")
  | S attempts' =>
    returned <-
      try_except
        (response_data <- __send_requisition continue_game ;;
         response_status <- getitem "status_code" (Response.status_code response_data) ;;
         c <- get_self ;;
         __render_response response_status
           {| Kwargs.remaining_attempts := None; Kwargs.format_output := None;
              Kwargs.secret_word := None; Kwargs.player_name := __user_name c;
              Kwargs.rounds_scores := None; Kwargs.total_score := None |} ;;
         ret true)
        (fun e =>
           if isinstance e OSError then Some (
             print (lit "Ocorreu um erro ao enviar ou receber dados pelo socket.") ;;
             ret false)
           else if isinstance e JSONDecodeError then Some (
             print (lit "Ocorreu um erro ao decodificar a resposta do servidor.") ;;
             ret false)
           else None) ;;
    if (returned : bool) then ret tt else continue_attempts attempts'
  end.

(** Lines 297-328. *)
Definition __game_continued_action : M unit := continue_attempts 3.

(** Lines 501-509 and 519-527: the end-of-round choice. *)
Definition end_of_round : M unit :=
  __print_end_game_message ;;
  option <- __get_user_end_game_option ;;
  quit <- __check_exit_game option ;;
  (if (quit : bool) then
     __print_goodbye_message ;;
     c <- get_self ;;
     close (__sock c) ;;
     sys_exit 0
   else ret tt) ;;
  __game_continued_action.

(** Lines 479-533. *)
Definition __handle_response_status (response_status : Z)
    (response_data : Response.t) (parameter : option str) : M unit :=
  let remaining_attempts := Response.remaining_attempts response_data in
  if response_status =? 200 then
    __render_response response_status Kwargs.none ;;
    modify_self (set_game_status GAME_IN_PROGRESS)
  else if response_status =? 201 then
    __render_response response_status Kwargs.none ;;
    modify_self (set_game_status NO_GAME)
  else if response_status =? 202 then
    rounds_scores <- getitem "rounds_scores" (Response.rounds_scores response_data) ;;
    total_score <- getitem "total_score" (Response.total_score response_data) ;;
    __render_response response_status
      {| Kwargs.remaining_attempts := remaining_attempts;
         Kwargs.format_output := None; Kwargs.secret_word := None;
         Kwargs.player_name := None;
         Kwargs.rounds_scores := Some rounds_scores;
         Kwargs.total_score := Some total_score |} ;;
    end_of_round
  else if response_status =? 203 then
    word_encoded <- getitem "word_encoded" (Response.word_encoded response_data) ;;
    color_str <- lift (__format_output parameter (Some word_encoded)) ;;
    if negb (int_eqb remaining_attempts 0) then
      __render_response response_status
        {| Kwargs.remaining_attempts := remaining_attempts;
           Kwargs.format_output := color_str;
           Kwargs.secret_word := None; Kwargs.player_name := None;
           Kwargs.rounds_scores := None; Kwargs.total_score := None |}
    else
      secret_word <- getitem "secret_word" (Response.secret_word response_data) ;;
      rounds_scores <- getitem "rounds_scores" (Response.rounds_scores response_data) ;;
      total_score <- getitem "total_score" (Response.total_score response_data) ;;
      __render_response response_status
        {| Kwargs.remaining_attempts := remaining_attempts;
           Kwargs.format_output := color_str;
           Kwargs.secret_word := Some secret_word;
           Kwargs.player_name := None;
           Kwargs.rounds_scores := Some rounds_scores;
           Kwargs.total_score := Some total_score |} ;;
      end_of_round
  else if response_status =? 206 then
    c <- get_self ;;
    __render_response response_status
      {| Kwargs.remaining_attempts := None; Kwargs.format_output := None;
         Kwargs.secret_word := None; Kwargs.player_name := __user_name c;
         Kwargs.rounds_scores := None; Kwargs.total_score := None |}
  else
    __render_response response_status
      {| Kwargs.remaining_attempts := remaining_attempts;
         Kwargs.format_output := None; Kwargs.secret_word := None;
         Kwargs.player_name := None;
         Kwargs.rounds_scores := None; Kwargs.total_score := None |}.

(** One turn of the [while True] of lines 554-578. *)
Definition loop_body : M unit :=
  try_except
    (__render_menu_table ;;
     __print_exit_message ;;
     user_cmd <- __get_user_command ;;
     cp <- __process_user_command user_cmd ;;
     let command := fst cp in
     let parameter := snd cp in
     let req_body := __create_request_body command parameter in
     response_data <- __send_requisition req_body ;;
     response_status <- getitem "status_code" (Response.status_code response_data) ;;
     __handle_response_status response_status response_data parameter)
    (fun e =>
       if isinstance e KeyboardInterrupt then Some __handle_keyboard_interrupt
       else if isinstance e ValueError then Some (print (exn_msg e))
       else if is_Exception e then Some (print (exn_msg e))
       else None).

(** The first [turns] turns of the loop. *)
Fixpoint main_loop (turns : nat) : M unit :=
  match turns with
  | O => ret tt
  | S turns' => loop_body ;; main_loop turns'
  end.

(** Lines 536-582, followed up to [turns] turns of its loop. *)
Definition run (turns : nat) : M unit :=
  try_except
    (sock <- __connect_to_server ;;
     modify_self (set_sock (Some sock)) ;;
     __print_welcome_message ;;
     user_name <- __get_username ;;
     modify_self (set_user_name (Some user_name)) ;;
     main_loop turns)
    (fun e => if is_Exception e then Some (print (exn_msg e)) else None).

End Methods.

(** ** Observations on states and traces *)

Arguments lit : simpl never.
Arguments str_of_int : simpl never.
Strategy 1000 [lit utf8_decode str_of_int].

(** The state after the events [es] have been added to the trace. *)
Definition emit (es : list event) (s : State) : State :=
  {| self := self s; world := fold_left (fun w e => log e w) es (world s) |}.

(** The events added between two states. *)
Definition new_events (s s' : State) : list event :=
  skipn (length (trace (world s))) (trace (world s')).

(** A client just constructed, in a world where nothing answers. *)
Definition silent_world : World :=
  {| connections := []; keyboard := []; exchanges := []; sleeps := [];
     sockets := 0; trace := [] |}.

Definition fresh_state : State :=
  {| self := Client__init__ 1024 5000; world := silent_world |}.

(** The same client with a given word history. *)
Definition with_history (h : LinkedStack.t) (s : State) : State :=
  {| self := set_words_stack h (self s); world := world s |}.

(** The word-history line and the remaining-attempts line. *)
Definition attempts_so_far (count : Z) : str :=
  lit "Número de tentativas até agora: " ++ str_of_int count.

Definition attempts_left (n : Z) : str :=
  lit "Tentativas Restantes: " ++ str_of_int n.

(** The colour escapes of the terminal. *)
Definition BRIGHT_GREEN : str := ESC ++ lit "[92m".
Definition BRIGHT_YELLOW : str := ESC ++ lit "[93m".
Definition DIM_GRAY : str := ESC ++ lit "[90m".
Definition RESET : str := ESC ++ lit "[0m".

(** For each index of the encoding, the letter of the word at that index
    wrapped after the entry at that index; concatenated in index order. *)
Definition coloured (word : str) (format_instructions : list Z) : str :=
  concat (map (fun i => colour (nth i format_instructions 0) (nth i word 0%N))
              (seq 0 (length format_instructions))).

(** The generic message of status 499. *)
Definition invalid_command_message : str :=
  ESC ++ lit "[91m Comando inválido" ++ ESC ++ lit "[0m".

(** The error raised for a command the interpreter rejects. *)
Definition InvalidCommand (user_command : str) : exn :=
  Exn ValueError (lit "Comando inválido:" ++ lit " " ++ user_command).

(** The keyword arguments that carry only [remaining_attempts]. *)
Definition only_remaining_attempts (remaining_attempts : option Z) : Kwargs.t :=
  {| Kwargs.remaining_attempts := remaining_attempts;
     Kwargs.format_output := None; Kwargs.secret_word := None;
     Kwargs.player_name := None;
     Kwargs.rounds_scores := None; Kwargs.total_score := None |}.

(** A client whose game is in progress, and a keyboard about to type. *)
Definition playing (s : State) : State :=
  {| self := set_game_status GAME_IN_PROGRESS (self s); world := world s |}.

Definition typing (lines : list key_event) (s : State) : State :=
  {| self := self s; world := set_keyboard lines (world s) |}.

Definition named (user_name : str) (s : State) : State :=
  {| self := set_user_name (Some user_name) (self s); world := world s |}.

(** The messages of [__connect_to_server]. *)
Definition retry_notice : str :=
  lit "Erro ao conectar ao servidor. Tentando novamente em 5 segundos.".

Definition restart_the_client : str :=
  lit "Não foi possível conectar ao servidor. Tente reiniciar o cliente.".

(** What one refused attempt leaves in the trace, and [k] of them in a
    row starting with socket number [sk]. *)
Fixpoint refusal_events (host : str) (port : Z) (sk : socket) (k : nat)
  : list event :=
  match k with
  | O => []
  | S k' =>
    [EConnect sk host port; EPrint retry_notice; ESleep 5]
      ++ refusal_events host port (S sk) k'
  end.

(** The state after one refused attempt whose wait was not interrupted,
    and after [k] of them. *)
Definition after_refusal (s : State) : State :=
  let w := world s in
  {| self := self s;
     world :=
       set_sleeps (tl (sleeps w))
         (log (ESleep 5)
            (log (EPrint retry_notice)
               (set_connections (tl (connections w))
                  (set_sockets (S (sockets w))
                     (log (EConnect (sockets w) (__HOST (self s)) (__PORT (self s)))
                        w))))) |}.

Fixpoint after_refusals (k : nat) (s : State) : State :=
  match k with
  | O => s
  | S k' => after_refusals k' (after_refusal s)
  end.

Definition is_connect (e : event) : bool :=
  match e with
  | EConnect _ _ _ => true
  | _ => false
  end.

Definition is_sleep (e : event) : bool :=
  match e with
  | ESleep _ => true
  | _ => false
  end.

(** How many events of a trace satisfy [p]. *)
Definition count (p : event -> bool) (tr : list event) : nat :=
  length (filter p tr).

(** A method keeps a relation between the state it is called in and the
    state it leaves, whether it returns or raises. *)
Definition preserves (R : State -> State -> Prop) {A} (m : M A) : Prop :=
  forall s, R s (snd (m s)).

Definition is_send (e : event) : bool :=
  match e with
  | ESend _ _ => true
  | _ => false
  end.

(** The requests sent so far. *)
Definition sent (s : State) : nat := count is_send (trace (world s)).

(** Three relations between a state and a later one: the game status is
    the same; no request was sent in between; the trace only grew. *)
Definition same_status (s s' : State) : Prop :=
  __game_status (self s') = __game_status (self s).

Definition no_send (s s' : State) : Prop := sent s' = sent s.


(** The messages of [__game_continued_action]. *)
Definition socket_diagnostic : str :=
  lit "Ocorreu um erro ao enviar ou receber dados pelo socket.".

Definition decode_diagnostic : str :=
  lit "Ocorreu um erro ao decodificar a resposta do servidor.".

Definition consider_restarting : str :=
  lit "Ocorreu um erro ao continuar o jogo. Por favor, considere reiniciar".

Definition is_diagnostic (e : event) : bool :=
  match e with
  | EPrint text => str_eqb text socket_diagnostic || str_eqb text decode_diagnostic
  | _ => false
  end.

(** The keyword arguments of line 319: only [player_name]. *)
Definition player_kwargs (c : Client) : Kwargs.t :=
  {| Kwargs.remaining_attempts := None; Kwargs.format_output := None;
     Kwargs.secret_word := None; Kwargs.player_name := __user_name c;
     Kwargs.rounds_scores := None; Kwargs.total_score := None |}.

(** An exchange fails with [OSError] or [JSONDecodeError] unless the
    script has a reply for it; past the end of the script the peer has
    closed and nothing decodes. *)
Definition failed (x : option exchange) : bool :=
  match x with
  | Some (Reply _) => false
  | _ => true
  end.

(** The request that asks for the next round: the command
    "continue_game" and no parameter. *)
Definition continue_request : Request.t :=
  {| Request.command := lit "continue_game"; Request.parameter := None |}.

(** The requests sent in a trace, in order. *)
Definition requests (tr : list event) : list Request.t :=
  flat_map (fun e => match e with ESend _ body => [body] | _ => [] end) tr.

(** Between a state and a later one the trace only grew, and every
    request sent was [body]. *)
Definition sends_only (body : Request.t) (s s' : State) : Prop :=
  exists added,
    trace (world s') = trace (world s) ++ added
    /\ Forall (fun sent_body => sent_body = body) (requests added).

(** What a failed [continue_game] exchange leaves in the trace: the
    request, the read if it came to it, and the diagnostic. *)
Definition failure_events (sk : socket) (bufsize : Z) (x : option exchange)
  : list event :=
  match x with
  | Some (SendFails _) =>
    [ESend sk continue_request; EPrint socket_diagnostic]
  | Some (RecvFails _) =>
    [ESend sk continue_request; ERecv sk bufsize; EPrint socket_diagnostic]
  | Some (Undecodable _) | None =>
    [ESend sk continue_request; ERecv sk bufsize; EPrint decode_diagnostic]
  | Some (Reply _) => []
  end.

Fixpoint failures_events (sk : socket) (bufsize : Z) (k : nat)
    (script : list exchange) : list event :=
  match k with
  | O => []
  | S k' =>
    failure_events sk bufsize (hd_error script)
      ++ failures_events sk bufsize k' (tl script)
  end.

(** The state after the next exchange has failed, and after [k] have. *)
Definition after_failure (sk : socket) (s : State) : State :=
  emit (failure_events sk (__MSG_SIZE (self s)) (hd_error (exchanges (world s))))
       {| self := self s;
          world := set_exchanges (tl (exchanges (world s))) (world s) |}.

Fixpoint after_failures (sk : socket) (k : nat) (s : State) : State :=
  match k with
  | O => s
  | S k' => after_failures sk k' (after_failure sk s)
  end.

(** The state when a reply has been read. *)
Definition after_reply (sk : socket) (s : State) : State :=
  emit [ESend sk continue_request; ERecv sk (__MSG_SIZE (self s))]
       {| self := self s;
          world := set_exchanges (tl (exchanges (world s))) (world s) |}.

(** A client that is connected, and a server about to answer. *)
Definition connected (sk : socket) (s : State) : State :=
  {| self := set_sock (Some sk) (self s); world := world s |}.

Definition answering (script : list exchange) (s : State) : State :=
  {| self := self s; world := set_exchanges script (world s) |}.

(** A reply that carries only its status code. *)
Definition bare_reply (response_status : Z) : Response.t :=
  Response.Build (Some response_status) None None None None None.

(** The messages of the end of a round. *)
Definition end_of_round_message : str :=
  NL ++ lit "A rodada acabou! Deseja continuar jogando?".



Definition reveal_header : str :=
  lit "Você não conseguiu acertar a palavra secreta!" ++ NL
  ++ lit "A palavra era:" ++ NL.

(** What the reveal of the letters [hidden] leaves in the trace when
    [shown] are already revealed: a line and a one-second wait per letter. *)
Fixpoint reveal_events (shown hidden : str) : list event :=
  match hidden with
  | [] => []
  | char :: rest =>
    [EPrint ((shown ++ [char]) ++ times (lit "_") (length rest)); ESleep 1]
      ++ reveal_events (shown ++ [char]) rest
  end.

(** The score table of a player. *)
Definition score_table (user_name : option str)
    (rounds_scores : list (str * number)) (total_score : option number) : Table :=
  {| title := Some (lit "Pontuação de " ++ format_opt user_name);
     field_names := map fst rounds_scores ++ [lit "Pontuação Total"];
     rows := [map (fun kv => CNum (Some (snd kv))) rounds_scores
                ++ [CNum total_score]] |}.

(** The same state with another score table. *)
Definition with_scores_table (t : Table) (s : State) : State :=
  {| self := set_scores_table t (self s); world := world s |}.

(** A score table whose rows were cleared and whose title was set for a
    player, its columns kept. *)
Definition retitled (user_name : option str) (t : Table) : Table :=
  {| title := Some (lit "Pontuação de " ++ format_opt user_name);
     field_names := field_names t;
     rows := [] |}.

(** A score table takes the labels of [rounds_scores] as its column
    names when it has no column yet, or as many columns as there are
    labels; the labels of a dictionary are distinct. *)
Definition labels_accepted (t : Table) (rounds_scores : list (str * number))
  : Prop :=
  (field_names t = [] \/ length rounds_scores = length (field_names t))
  /\ NoDup (map fst rounds_scores).

(** The error of the table for [actual] labels against [expected]
    columns. *)
Definition wrong_label_count (actual expected : nat) : exn :=
  Exn ValueError
      (lit "Field name list has incorrect number of values, (actual) "
       ++ str_of_int (Z.of_nat actual) ++ lit "!="
       ++ str_of_int (Z.of_nat expected) ++ lit " (expected)").

(** The same state with one more entry on the word history. *)
Definition pushed (item : option str) (s : State) : State :=
  {| self := set_words_stack (LinkedStack.stack_up item (__words_stack (self s)))
                             (self s);
     world := world s |}.

(** A round in progress for the player "alice", connected on socket 0. *)
Definition alice_playing : State :=
  playing (connected 0%nat (named (lit "alice") fresh_state)).




(** The player "alice" after a first round whose score table was shown:
    the table has the column of that round and the column of the total. *)
Definition alice_after_a_round : State :=
  with_scores_table
    (score_table (Some (lit "alice")) [(lit "Rodada 1", PyInt 0)] (Some (PyInt 0)))
    alice_playing.

(** A session: the player "alice" starts a game, guesses "HELLO", is told
    the guess is incorrect with five attempts left, and exits the game. *)
Definition exit_mid_round : State :=
  {| self := Client__init__ 1024 5000;
     world :=
       {| connections := [true];
          keyboard := [Line (lit "alice"); Line (lit "1"); Line (lit "3");
                       Line (lit "HELLO"); Line (lit "2")];
          exchanges :=
            [Reply (bare_reply 200);
             Reply (Response.Build (Some 203) (Some 5) (Some [0; 0; 1; 2; 0])
                                   None None None);
             Reply (bare_reply 201)];
          sleeps := []; sockets := 0; trace := [] |} |}.

(** The messages of the statuses 402 to 405, which are followed by the
    attempts line. *)
Definition error_message (response_status : Z) : str :=
  if response_status =? 402 then lit "É necessário digitar uma palavra"
  else if response_status =? 403 then lit "A palavra deve ter 5 letras"
  else if response_status =? 404 then lit "A palavra não existe no dicionário"
  else lit "Palavra já utilizada".

(** The attempts line for an integer, in a given state. *)
Definition attempts_line (n : Z) (s : State) : str :=
  if n >=? 0 then attempts_left n
  else attempts_so_far (LinkedStack.len (__words_stack (self s))).

(** The option column of a printed menu. *)
Definition option_column (t : Table) : list cell :=
  map (fun row => hd (CStr []) row) (rows t).

(** The tables printed in a trace. *)
Definition tables (tr : list event) : list Table :=
  flat_map (fun e => match e with EPrintTable t => [t] | _ => [] end) tr.

(** The two prompts of the end-of-round choice. *)
Definition choice_prompt : str := lit "Digite 1 para continuar ou 2 para sair: ".
Definition choice_reprompt : str := lit "Digite uma opção válida (1/2): ".

(** The lines printed in a trace, in order. *)
Definition printed (tr : list event) : list str :=
  flat_map (fun e => match e with EPrint text => [text] | _ => [] end) tr.

(** The line of the reveal that shows the first [k] letters of a word. *)
Definition partly_revealed (word : str) (k : nat) : str :=
  firstn k word ++ times (lit "_") (length word - k).

(** The farewell of a normal quit, and the greeting of a continued round. *)
Definition goodbye_message (user_name : option str) : str :=
  NL ++ lit "Até a próxima, " ++ format_opt user_name
     ++ lit "! Obrigado por jogar o Termo!".


(** The same client in another game status. *)
Definition in_status (status : GameStatus) (s : State) : State :=
  {| self := set_game_status status (self s); world := world s |}.

(** The congratulation of status 202: the word history and the attempts
    line. *)
Definition win_message (history : LinkedStack.t) (attempts : str) : str :=
  NL ++ lit "🏆 Parabéns! Palavra Correta! 😎" ++ NL
     ++ lit "Lista de Palavras Anteriores:" ++ NL
     ++ LinkedStack.render history ++ NL ++ attempts.

(** The menu of a game status: the options 1 and 2, and the options 3
    to 5 once a game has been started. *)
Definition menu_table (status : GameStatus) : Table :=
  {| title := None;
     field_names := [lit "Opção"; lit "Descrição"];
     rows :=
       [[CStr (lit "1"); CStr (lit "Começar um jogo")];
        [CStr (lit "2"); CStr (lit "Sair do jogo atual")]]
       ++ match status with
          | NO_GAME => []
          | GAME_IN_PROGRESS | GAME_FINISHED =>
            [[CStr (lit "3"); CStr (lit "Verificar palavra")];
             [CStr (lit "4"); CStr (lit "Listar palavras digitadas nesta rodada")];
             [CStr (lit "5"); CStr (lit "Reiniciar o jogo atual")]]
          end |}.

(** The hint printed under the menu, in dim gray. *)
Definition exit_hint : str :=
  ESC ++ lit "[90mPressione Ctrl + C para sair do jogo!" ++ ESC ++ lit "[0m".

(** What every turn of the loop begins with: an empty line, the menu
    and the hint. *)
Definition turn_opening (s : State) : list event :=
  [EPrint (lit ""); EPrintTable (menu_table (__game_status (self s)));
   EPrint exit_hint].

Definition command_prompt : str := lit "Termo> ".

(** The farewell of an interrupted session. *)
Definition interrupt_goodbye (user_name : option str) : str :=
  NL ++ lit "Obrigado por jogar " ++ format_opt user_name ++ lit "!"
     ++ NL ++ lit " Foi feito com ❤️  em 🐍" ++ NL.

(** The notice of an interrupted connection. *)
Definition closing_notice : str := lit "Encerrando o Termo!".

(** Reading a coloured guess back: the letter of each ten-character
    block, and the class its colour stands for (2 for bright green, 1 for
    bright yellow, 0 for dim gray). *)
Fixpoint uncoloured (output : str) : str :=
  match output with
  | _ :: _ :: _ :: _ :: _ :: letter :: _ :: _ :: _ :: _ :: rest =>
    letter :: uncoloured rest
  | _ => []
  end.

Fixpoint colour_classes (output : str) : list Z :=
  match output with
  | _ :: _ :: _ :: digit :: _ :: _ :: _ :: _ :: _ :: _ :: rest =>
    (if (digit =? 50)%N then 2 else if (digit =? 51)%N then 1 else 0)
      :: colour_classes rest
  | _ => []
  end.

(** The class an entry of the encoding is shown as. *)
Definition shown_class (items : Z) : Z :=
  if items =? 2 then 2 else if items =? 1 then 1 else 0.

(** The exceptions the client is written for: those deriving from
    [Exception], the exit with status 0, and the keyboard interrupt. *)
Definition expected (e : exn) : Prop :=
  is_Exception e = true \/ e = SystemExit_ 0 \/ e = KeyboardInterrupt_.

(** A method is orderly when it leaves the socket attribute alone and
    raises only expected exceptions. *)
Definition orderly {A} (m : M A) : Prop :=
  forall s,
    __sock (self (snd (m s))) = __sock (self s)
    /\ forall e, fst (m s) = Raise e -> expected e.

(** The welcome banner and the prompt for the name. *)
Definition welcome_banner : str :=
  NL ++ times (lit "=") 50 ++ NL ++ lit "Bem vindo ao jogo de palavras Termo!"
     ++ NL ++ times (lit "=") 50.

Definition name_prompt : str := lit "Digite seu nome: ".

(** The text of the error a failed exchange raises. *)
Definition failure_text (x : exchange) : str :=
  match x with
  | SendFails msg | RecvFails msg | Undecodable msg => msg
  | Reply _ => []
  end.

(** The request of the command "1". *)
Definition start_game (user_name : option str) : Request.t :=
  {| Request.command := lit "start_game"; Request.parameter := user_name |}.

(** ** Text *)

Lemma str_eqb_eq (a b : str) : str_eqb a b = true <-> a = b.
Proof.
  revert b. induction a as [|x a IH]; intros [|y b]; simpl; split;
    try congruence; try reflexivity.
  - intros H. apply andb_true_iff in H. destruct H as [Hx Hab].
    apply N.eqb_eq in Hx. apply IH in Hab. congruence.
  - intros H. injection H as -> ->. rewrite N.eqb_refl. simpl.
    now apply IH.
Qed.

Lemma str_eqb_refl (a : str) : str_eqb a a = true.
Proof. now apply str_eqb_eq. Qed.

Lemma str_eqb_neq (a b : str) : a <> b -> str_eqb a b = false.
Proof.
  intros H. destruct (str_eqb a b) eqn:E; [|reflexivity].
  apply str_eqb_eq in E. contradiction.
Qed.

Example str_of_int_examples :
  str_of_int 0 = lit "0" /\ str_of_int 6 = lit "6"
  /\ str_of_int 120 = lit "120" /\ str_of_int (-3) = lit "-3".
Proof. repeat split; reflexivity. Qed.

Example lit_decodes_utf8 : lit "aé" = [97%N; 233%N] /\ lit "🏆" = [127942%N].
Proof. split; reflexivity. Qed.

(** ** The attempts line (lines 262-275) *)

(** C1 (as amended): called with an integer, [__return_attempts] never
    fails and changes nothing: for a non-negative [n] it returns
    "Tentativas Restantes: n", for a negative one "Número de tentativas até
    agora: count" with the current size of the word history.  Called with
    an absent value ([None]) it does not return: [None >= 0] raises
    [TypeError]. *)
Theorem return_attempts_spec (s : State) :
  (forall n, 0 <= n ->
     __return_attempts (Some n) s = (Ret (attempts_left n), s))
  /\ (forall n, n < 0 ->
     __return_attempts (Some n) s
     = (Ret (attempts_so_far (LinkedStack.len (__words_stack (self s)))), s))
  /\ __return_attempts None s = (Raise TypeError_ge_None, s).
Proof.
  unfold __return_attempts, attempts_left, attempts_so_far.
  repeat split.
  - intros n Hn. destruct (n >=? 0) eqn:E; [reflexivity|].
    rewrite Z.geb_leb in E. apply Z.leb_gt in E. lia.
  - intros n Hn. destruct (n >=? 0) eqn:E; [|reflexivity].
    rewrite Z.geb_leb in E. apply Z.leb_le in E. lia.
Qed.

(** C1, witness: three attempts left; the fallback with two words in the
    history. *)
Lemma return_attempts_spec_witness :
  (0 <= 3 /\ fst (__return_attempts (Some 3) fresh_state)
             = Ret (lit "Tentativas Restantes: 3"))
  /\ (-1 < 0
      /\ fst (__return_attempts (Some (-1)) (with_history [None; None] fresh_state))
         = Ret (lit "Número de tentativas até agora: 2")).
Proof.
  split; split; try lia.
  - rewrite (proj1 (return_attempts_spec fresh_state) 3); [reflexivity | lia].
  - rewrite (proj1 (proj2 (return_attempts_spec _)) (-1)); [reflexivity | lia].
Defined.

(** C1, counterexample: with the value absent the helper raises
    [TypeError] instead of returning the attempts-so-far line. *)
Lemma return_attempts_absent_raises :
  fst (__return_attempts None fresh_state) = Raise TypeError_ge_None
  /\ fst (__return_attempts None fresh_state)
     <> Ret (attempts_so_far (LinkedStack.len (__words_stack (self fresh_state)))).
Proof. split; [reflexivity | discriminate]. Qed.

(** ** Colouring a guess (lines 331-354) *)

Lemma colour_cases (letter : N) :
  colour 2 letter = BRIGHT_GREEN ++ [letter] ++ RESET
  /\ colour 1 letter = BRIGHT_YELLOW ++ [letter] ++ RESET
  /\ (forall items, items <> 2 -> items <> 1 ->
        colour items letter = DIM_GRAY ++ [letter] ++ RESET).
Proof.
  unfold colour, BRIGHT_GREEN, BRIGHT_YELLOW, DIM_GRAY, RESET.
  repeat split; try (now rewrite <- !app_assoc).
  intros items H2 H1.
  destruct (Z.eqb_spec items 2); [contradiction|].
  destruct (Z.eqb_spec items 1); [contradiction|].
  now rewrite <- !app_assoc.
Qed.

Lemma colour_length (items : Z) (letter : N) : length (colour items letter) = 10%nat.
Proof.
  unfold colour. destruct (items =? 2); [|destruct (items =? 1)]; reflexivity.
Qed.

(** The loop, started at [index] with the entries from there on, adds one
    wrapped letter per entry while the word is long enough. *)
Lemma format_loop_fits (word : str) :
  forall (rest : list Z) (index : nat) (output : str) (f : nat -> Z),
    (index + length rest <= length word)%nat ->
    (forall k, (k < length rest)%nat -> nth k rest 0 = f (index + k)%nat) ->
    format_loop word index rest output
    = Ret (output ++ concat (map (fun i => colour (f i) (nth i word 0%N))
                                 (seq index (length rest)))).
Proof.
  induction rest as [|items rest IH]; intros index output f Hlen Hf; simpl.
  - now rewrite app_nil_r.
  - simpl in Hlen.
    destruct (nth_error word index) as [letter|] eqn:E.
    2:{ apply nth_error_None in E. lia. }
    rewrite (IH (S index) _ f).
    + rewrite <- app_assoc. repeat f_equal.
      * specialize (Hf 0%nat). simpl in Hf. rewrite Nat.add_0_r in Hf.
        rewrite <- Hf by lia. reflexivity.
      * symmetry. now apply nth_error_nth.
    + lia.
    + intros k Hk. specialize (Hf (S k)). simpl in Hf.
      rewrite Nat.add_succ_r in Hf. apply Hf. lia.
Qed.

(** It runs off the word as soon as an entry has no letter. *)
Lemma format_loop_overrun (word : str) :
  forall (rest : list Z) (index : nat) (output : str),
    (index <= length word)%nat ->
    (length word < index + length rest)%nat ->
    format_loop word index rest output = Raise IndexError_str.
Proof.
  induction rest as [|items rest IH]; intros index output Hle Hlt; simpl in *.
  - lia.
  - destruct (nth_error word index) as [letter|] eqn:E; [|reflexivity].
    assert (index < length word)%nat
      by (apply nth_error_Some; congruence).
    apply IH; lia.
Qed.

Lemma format_output_fits (word : str) (enc : list Z) :
  word <> [] -> enc <> [] -> (length enc <= length word)%nat ->
  __format_output (Some word) (Some enc) = Ret (Some (coloured word enc)).
Proof.
  intros Hw He Hlen. unfold __format_output, coloured.
  destruct word as [|c word]; [contradiction|].
  destruct enc as [|i enc]; [contradiction|].
  cbn [truthy andb].
  rewrite (format_loop_fits _ _ 0 [] (fun k => nth k (i :: enc) 0)).
  - reflexivity.
  - simpl in *. lia.
  - intros k _. reflexivity.
Qed.

Lemma format_output_overrun (word : str) (enc : list Z) :
  word <> [] -> (length word < length enc)%nat ->
  __format_output (Some word) (Some enc) = Raise IndexError_str.
Proof.
  intros Hw Hlen. unfold __format_output.
  destruct word as [|c word]; [contradiction|].
  destruct enc as [|i enc]; [simpl in Hlen; lia|].
  cbn [truthy andb].
  rewrite format_loop_overrun; [reflexivity | lia | simpl in *; lia].
Qed.

Lemma coloured_length (word : str) (enc : list Z) :
  length (coloured word enc) = (10 * length enc)%nat.
Proof.
  unfold coloured.
  assert (H : forall n start,
             length (concat (map (fun i => colour (nth i enc 0) (nth i word 0%N))
                                 (seq start n))) = (10 * n)%nat).
  { induction n as [|n IH]; intros start; [reflexivity|].
    cbn [seq map concat]. rewrite length_app, colour_length, IH. lia. }
  apply H.
Qed.

(** C8 (as amended): [__format_output] returns no string when the word
    or the encoding is absent or empty; for a word and an encoding that
    has no more entries than the word has letters it returns the
    concatenation, in index order, of one wrapped letter per entry: bright
    green for 2, bright yellow for 1, dim gray for any other value, each
    letter followed by the reset escape. *)
Theorem format_output_spec (word : option str) (enc : option (list Z)) :
  (word = None \/ word = Some [] \/ enc = None \/ enc = Some [] ->
     __format_output word enc = Ret None)
  /\ (forall w f, word = Some w -> enc = Some f -> w <> [] -> f <> [] ->
        (length f <= length w)%nat ->
        __format_output word enc = Ret (Some (coloured w f)))
  /\ (forall letter,
        colour 2 letter = BRIGHT_GREEN ++ [letter] ++ RESET
        /\ colour 1 letter = BRIGHT_YELLOW ++ [letter] ++ RESET
        /\ (forall items, items <> 2 -> items <> 1 ->
              colour items letter = DIM_GRAY ++ [letter] ++ RESET)).
Proof.
  split; [|split].
  - intros [-> | [-> | [-> | ->]]]; unfold __format_output; simpl;
      try reflexivity; destruct word as [[|? ?]|]; reflexivity.
  - intros w f -> -> Hw Hf Hlen. now apply format_output_fits.
  - apply colour_cases.
Qed.

(** C8, witness: the spec's own example, "crane" against [0,1,2,0,2], and
    an absent word. *)
Lemma format_output_spec_witness :
  __format_output None (Some [2; 2]) = Ret None
  /\ __format_output (Some (lit "crane")) (Some [0; 1; 2; 0; 2])
     = Ret (Some (DIM_GRAY ++ lit "c" ++ RESET ++ BRIGHT_YELLOW ++ lit "r" ++ RESET
                  ++ BRIGHT_GREEN ++ lit "a" ++ RESET ++ DIM_GRAY ++ lit "n" ++ RESET
                  ++ BRIGHT_GREEN ++ lit "e" ++ RESET)).
Proof.
  split.
  - apply (proj1 (format_output_spec None (Some [2; 2]))). now left.
  - rewrite (proj1 (proj2 (format_output_spec (Some (lit "crane"))
                             (Some [0; 1; 2; 0; 2])))
               (lit "crane") [0; 1; 2; 0; 2] eq_refl eq_refl).
    + reflexivity.
    + discriminate.
    + discriminate.
    + vm_compute. lia.
Defined.

(** C8, counterexample: a two-letter word with three entries.  No string
    is returned: the third lookup [word[2]] raises [IndexError]. *)
Lemma format_output_longer_encoding_raises :
  __format_output (Some (lit "ab")) (Some [2; 2; 2]) = Raise IndexError_str
  /\ ~ (exists output,
          __format_output (Some (lit "ab")) (Some [2; 2; 2]) = Ret (Some output)).
Proof.
  split; [reflexivity|]. intros [output H]. vm_compute in H. discriminate.
Qed.

(** C10: for a non-empty word and a non-empty encoding, [__format_output]
    returns exactly when the encoding is no longer than the word; it then
    returns one wrapped letter (ten characters) per entry, the letter at
    the entry's index; with a longer encoding the lookup in the word is out
    of bounds. *)
Theorem format_output_total_iff (word : str) (enc : list Z) :
  word <> [] -> enc <> [] ->
  ((exists r, __format_output (Some word) (Some enc) = Ret r)
   <-> (length enc <= length word)%nat)
  /\ ((length enc <= length word)%nat ->
      __format_output (Some word) (Some enc) = Ret (Some (coloured word enc))
      /\ length (coloured word enc) = (10 * length enc)%nat)
  /\ ((length word < length enc)%nat ->
      __format_output (Some word) (Some enc) = Raise IndexError_str).
Proof.
  intros Hw He. split; [|split].
  - split.
    + intros [r Hr].
      destruct (Nat.le_gt_cases (length enc) (length word)) as [H|H]; [exact H|].
      rewrite (format_output_overrun _ _ Hw H) in Hr. discriminate.
    + intros H. eexists. now apply format_output_fits.
  - intros H. split; [now apply format_output_fits | apply coloured_length].
  - intros H. now apply format_output_overrun.
Qed.

(** C10, witness: three entries against "abc" and against "ab". *)
Lemma format_output_total_iff_witness :
  ((exists r, __format_output (Some (lit "abc")) (Some [2; 0; 1]) = Ret r)
   <-> (3 <= 3)%nat)
  /\ __format_output (Some (lit "ab")) (Some [2; 0; 1]) = Raise IndexError_str.
Proof.
  split.
  - apply (format_output_total_iff (lit "abc") [2; 0; 1]); discriminate.
  - apply (format_output_total_iff (lit "ab") [2; 0; 1]);
      [discriminate | discriminate | vm_compute; lia].
Defined.

(** ** Dispatch on the status code (lines 374-388) *)

Ltac decide_codes :=
  repeat match goal with
         | |- context [?a =? ?b] =>
           destruct (Z.eqb_spec a b); [lia|]
         | |- context [?a <=? ?b] =>
           destruct (Z.leb_spec a b); try lia
         | |- context [?a <? ?b] =>
           destruct (Z.ltb_spec a b); try lia
         end.

(** C4: [__render_response] hands the codes of [200, 400) to the success
    handler and those of [400, 500) to the error handler; for any other
    code it renders nothing and changes no state, and so does the whole
    handling of such a response. *)
Theorem render_response_bands (response_status : Z) (extra_info : Kwargs.t)
    (s : State) :
  (200 <= response_status < 400 ->
     __render_response response_status extra_info s
     = __handle_successful_cases response_status extra_info s)
  /\ (400 <= response_status < 500 ->
     __render_response response_status extra_info s
     = __handle_error_cases response_status extra_info s)
  /\ (response_status < 200 \/ 500 <= response_status ->
     __render_response response_status extra_info s = (Ret tt, s)
     /\ forall response_data parameter,
         __handle_response_status response_status response_data parameter s
         = (Ret tt, s)).
Proof.
  split; [|split].
  - intros H. unfold __render_response. decide_codes. reflexivity.
  - intros H. unfold __render_response. decide_codes. reflexivity.
  - intros H. split; [|intros response_data parameter];
      unfold __handle_response_status, __render_response;
      decide_codes; reflexivity.
Qed.

(** C4, witness: a code of each band and two codes outside. *)
Lemma render_response_bands_witness :
  __render_response 204 Kwargs.none fresh_state
  = __handle_successful_cases 204 Kwargs.none fresh_state
  /\ __render_response 401 Kwargs.none fresh_state
     = __handle_error_cases 401 Kwargs.none fresh_state
  /\ __render_response 199 Kwargs.none fresh_state = (Ret tt, fresh_state)
  /\ __render_response 500 Kwargs.none fresh_state = (Ret tt, fresh_state).
Proof.
  split; [|split; [|split]].
  - apply (render_response_bands 204 Kwargs.none fresh_state). lia.
  - apply (render_response_bands 401 Kwargs.none fresh_state). lia.
  - apply (render_response_bands 199 Kwargs.none fresh_state). lia.
  - apply (render_response_bands 500 Kwargs.none fresh_state). lia.
Defined.

(** ** Status 499 (lines 471-475) *)

Lemma handle_error_cases_499 (extra_info : Kwargs.t) (s : State) :
  __handle_error_cases 499 extra_info s
  = match Kwargs.remaining_attempts extra_info with
    | None => (Ret tt, emit [EPrint invalid_command_message] s)
    | Some n =>
      if n =? 0 then (Ret tt, emit [EPrint invalid_command_message] s)
      else if n >=? 0
      then (Ret tt, emit [EPrint invalid_command_message; EPrint (attempts_left n)] s)
      else (Ret tt, emit [EPrint invalid_command_message;
                          EPrint (attempts_so_far
                                    (LinkedStack.len (__words_stack (self s))))] s)
    end.
Proof.
  unfold __handle_error_cases. cbn [Z.eqb Pos.eqb].
  destruct (Kwargs.remaining_attempts extra_info) as [n|]; [|reflexivity].
  unfold truthy_int, __return_attempts, bind, print, modify_world, emit.
  cbn [fst snd self world fold_left].
  destruct (n =? 0); [reflexivity|]. cbn [negb].
  destruct (n >=? 0); reflexivity.
Qed.

(** C3 (as amended): for a response with status code 499 the client
    prints the generic invalid-command message, and then the attempts
    line if and only if [remaining_attempts] was supplied with a value
    other than 0; nothing else changes. *)
Theorem status_499_rendering (response_data : Response.t)
    (parameter : option str) (s : State) :
  let remaining_attempts := Response.remaining_attempts response_data in
  (remaining_attempts = None \/ remaining_attempts = Some 0 ->
     __handle_response_status 499 response_data parameter s
     = (Ret tt, emit [EPrint invalid_command_message] s))
  /\ (forall n, remaining_attempts = Some n -> 0 < n ->
     __handle_response_status 499 response_data parameter s
     = (Ret tt, emit [EPrint invalid_command_message; EPrint (attempts_left n)] s))
  /\ (forall n, remaining_attempts = Some n -> n < 0 ->
     __handle_response_status 499 response_data parameter s
     = (Ret tt, emit [EPrint invalid_command_message;
                      EPrint (attempts_so_far
                                (LinkedStack.len (__words_stack (self s))))] s)).
Proof.
  cbv zeta.
  assert (E : __handle_response_status 499 response_data parameter s
              = __handle_error_cases 499
                  (only_remaining_attempts (Response.remaining_attempts response_data)) s)
    by reflexivity.
  rewrite E, handle_error_cases_499. cbn [only_remaining_attempts Kwargs.remaining_attempts].
  split; [|split].
  - intros [-> | ->]; reflexivity.
  - intros n -> Hn.
    destruct (Z.eqb_spec n 0); [lia|].
    destruct (n >=? 0) eqn:G; [reflexivity|].
    rewrite Z.geb_leb in G. apply Z.leb_gt in G. lia.
  - intros n -> Hn.
    destruct (Z.eqb_spec n 0); [lia|].
    destruct (n >=? 0) eqn:G; [|reflexivity].
    rewrite Z.geb_leb in G. apply Z.leb_le in G. lia.
Qed.

(** C3, witness: no value, and four attempts left. *)
Lemma status_499_rendering_witness :
  new_events fresh_state
    (snd (__handle_response_status 499
            (Response.Build (Some 499) None None None None None) None fresh_state))
  = [EPrint invalid_command_message]
  /\ new_events fresh_state
    (snd (__handle_response_status 499
            (Response.Build (Some 499) (Some 4) None None None None) None fresh_state))
  = [EPrint invalid_command_message; EPrint (lit "Tentativas Restantes: 4")].
Proof.
  split.
  - rewrite (proj1 (status_499_rendering
                      (Response.Build (Some 499) None None None None None)
                      None fresh_state)).
    + reflexivity.
    + left. reflexivity.
  - rewrite (proj1 (proj2 (status_499_rendering
                      (Response.Build (Some 499) (Some 4) None None None None)
                      None fresh_state)) 4 eq_refl).
    + reflexivity.
    + lia.
Defined.

(** C3, counterexample: the response supplies [remaining_attempts = 0];
    only the generic message is printed, the attempts line is not. *)
Lemma status_499_zero_attempts_not_rendered :
  Response.remaining_attempts
    (Response.Build (Some 499) (Some 0) None None None None) = Some 0
  /\ new_events fresh_state
       (snd (__handle_response_status 499
               (Response.Build (Some 499) (Some 0) None None None None)
               None fresh_state))
     = [EPrint invalid_command_message].
Proof. split; reflexivity. Qed.

(** ** The command interpreter (lines 113-151) *)

(** C7: "1" and "2" are mapped to [start_game] with the nickname and to
    [exit_game] with no parameter whatever the game status; while a game
    is in progress "3" prompts for a word and maps to [check_word] with
    that word lower-cased, "4" to [list_words] with no parameter and "5"
    to [restart_game] with the nickname; every other input, and "3", "4",
    "5" when no game is in progress, raise the invalid-command error whose
    message ends with the input. *)
Theorem process_user_command_spec (str_lower : str -> str)
    (user_command : str) (s : State) :
  (user_command = lit "1" ->
     __process_user_command str_lower user_command s
     = (Ret (lit "start_game", __user_name (self s)), s))
  /\ (user_command = lit "2" ->
     __process_user_command str_lower user_command s
     = (Ret (lit "exit_game", None), s))
  /\ (__game_status (self s) = GAME_IN_PROGRESS ->
      (user_command = lit "3" ->
         forall word rest, keyboard (world s) = Line word :: rest ->
         __process_user_command str_lower user_command s
         = (Ret (lit "check_word", Some (str_lower word)),
            {| self := self s;
               world := set_keyboard rest
                          (log (EInput (lit "Digite uma palavra: ")) (world s)) |}))
      /\ (user_command = lit "4" ->
         __process_user_command str_lower user_command s
         = (Ret (lit "list_words", None), s))
      /\ (user_command = lit "5" ->
         __process_user_command str_lower user_command s
         = (Ret (lit "restart_game", __user_name (self s)), s)))
  /\ (user_command <> lit "1" -> user_command <> lit "2" ->
      __game_status (self s) <> GAME_IN_PROGRESS
      \/ (user_command <> lit "3" /\ user_command <> lit "4"
          /\ user_command <> lit "5") ->
      __process_user_command str_lower user_command s
      = (Raise (InvalidCommand user_command), s)
      /\ exn_msg (InvalidCommand user_command)
         = lit "Comando inválido: " ++ user_command).
Proof.
  unfold __process_user_command, bind, get_self.
  split; [|split; [|split]].
  - intros ->. reflexivity.
  - intros ->. reflexivity.
  - intros G. rewrite G. cbn [GameStatus_eqb].
    split; [|split].
    + intros -> word rest K.
      change (str_eqb (lit "3") (lit "1")) with false.
      change (str_eqb (lit "3") (lit "2")) with false.
      change (str_eqb (lit "3") (lit "3")) with true.
      cbn [andb]. unfold input. cbn [keyboard log world self].
      rewrite K. reflexivity.
    + intros ->. reflexivity.
    + intros ->. reflexivity.
  - intros H1 H2 H. split; [|reflexivity].
    rewrite (str_eqb_neq _ _ H1), (str_eqb_neq _ _ H2).
    destruct H as [G | (H3 & H4 & H5)].
    + destruct (__game_status (self s)); [| contradiction |];
        cbn [GameStatus_eqb]; rewrite !andb_false_r; reflexivity.
    + rewrite (str_eqb_neq _ _ H3), (str_eqb_neq _ _ H4), (str_eqb_neq _ _ H5).
      reflexivity.
Qed.

(** C7, witness: the spec's example, "3" with the guess "HELLO" while a
    game is in progress, the same "3" with no game, and "1". *)
Lemma process_user_command_spec_witness :
  fst (__process_user_command ascii_lower (lit "3")
         (typing [Line (lit "HELLO")] (playing (named (lit "alice") fresh_state))))
  = Ret (lit "check_word", Some (lit "hello"))
  /\ __process_user_command ascii_lower (lit "3") (named (lit "alice") fresh_state)
     = (Raise (Exn ValueError (lit "Comando inválido: 3")),
        named (lit "alice") fresh_state)
  /\ __process_user_command ascii_lower (lit "1") (named (lit "alice") fresh_state)
     = (Ret (lit "start_game", Some (lit "alice")), named (lit "alice") fresh_state).
Proof.
  split; [|split].
  - pose proof (process_user_command_spec ascii_lower (lit "3")
                  (typing [Line (lit "HELLO")] (playing (named (lit "alice") fresh_state))))
      as (_ & _ & H & _).
    destruct (H eq_refl) as (H3 & _).
    rewrite (H3 eq_refl (lit "HELLO") [] eq_refl). reflexivity.
  - pose proof (process_user_command_spec ascii_lower (lit "3")
                  (named (lit "alice") fresh_state)) as (_ & _ & _ & H).
    refine (proj1 (H _ _ _)).
    + vm_compute. discriminate.
    + vm_compute. discriminate.
    + left. discriminate.
  - pose proof (process_user_command_spec ascii_lower (lit "1")
                  (named (lit "alice") fresh_state)) as (H & _).
    apply H. reflexivity.
Defined.

(** ** Connecting (lines 37-64) *)

Lemma nth_tl {A} (l : list A) (k : nat) (d : A) : nth k (tl l) d = nth (S k) l d.
Proof. destruct l; [destruct k|]; reflexivity. Qed.

(** An attempt that is refused and whose wait runs to its end leaves the
    loop with one attempt less. *)
Lemma connect_attempts_refused (n : nat) (s : State) :
  nth 0 (connections (world s)) false = false ->
  nth 0 (sleeps (world s)) false = false ->
  connect_attempts (S n) s = connect_attempts n (after_refusal s).
Proof.
  destruct s as [c [conns kb ex sl sk tr]]. cbn [world connections sleeps nth].
  intros Hc Hs.
  destruct conns as [|[] conns]; try discriminate;
    destruct sl as [|[] sl]; try discriminate; reflexivity.
Qed.

(** An attempt that succeeds returns its socket. *)
Lemma connect_attempts_accepted (n : nat) (s : State) :
  nth 0 (connections (world s)) false = true ->
  connect_attempts (S n) s
  = (Ret (sockets (world s)),
     {| self := self s;
        world := set_connections (tl (connections (world s)))
                   (set_sockets (S (sockets (world s)))
                      (log (EConnect (sockets (world s)) (__HOST (self s))
                                     (__PORT (self s)))
                           (world s))) |}).
Proof.
  destruct s as [c [conns kb ex sl sk tr]]. cbn [world connections nth].
  intros Hc. destruct conns as [|[] conns]; try discriminate. reflexivity.
Qed.

Lemma after_refusals_state (k : nat) : forall s,
  self (after_refusals k s) = self s
  /\ connections (world (after_refusals k s)) = skipn k (connections (world s))
  /\ sleeps (world (after_refusals k s)) = skipn k (sleeps (world s))
  /\ sockets (world (after_refusals k s)) = (sockets (world s) + k)%nat
  /\ keyboard (world (after_refusals k s)) = keyboard (world s)
  /\ exchanges (world (after_refusals k s)) = exchanges (world s)
  /\ trace (world (after_refusals k s))
     = trace (world s)
         ++ refusal_events (__HOST (self s)) (__PORT (self s)) (sockets (world s)) k.
Proof.
  induction k as [|k IH]; intros s.
  - cbn [after_refusals refusal_events skipn]. rewrite app_nil_r, Nat.add_0_r.
    repeat split.
  - cbn [after_refusals refusal_events].
    destruct (IH (after_refusal s)) as (Hself & Hc & Hs & Hk & Hkb & Hex & Ht).
    rewrite Hself, Hc, Hs, Hk, Hkb, Hex, Ht.
    destruct s as [c [conns kb ex sl sk tr]].
    cbn [after_refusal self world connections sleeps sockets keyboard exchanges
         trace log set_sleeps set_connections set_sockets].
    repeat split.
    + destruct conns; cbn [tl skipn]; [now rewrite skipn_nil | reflexivity].
    + destruct sl; cbn [tl skipn]; [now rewrite skipn_nil | reflexivity].
    + lia.
    + now rewrite <- !app_assoc.
Qed.

Lemma connect_attempts_refusals (k : nat) : forall (n : nat) (s : State),
  (forall j, (j < k)%nat -> nth j (connections (world s)) false = false) ->
  (forall j, (j < k)%nat -> nth j (sleeps (world s)) false = false) ->
  connect_attempts (k + n) s = connect_attempts n (after_refusals k s).
Proof.
  induction k as [|k IH]; intros n s Hc Hs; [reflexivity|].
  cbn [Nat.add after_refusals].
  rewrite connect_attempts_refused by (apply Hc || apply Hs; lia).
  apply IH; intros j Hj.
  - destruct s as [c [conns kb ex sl sk tr]].
    cbn [after_refusal world connections set_sleeps log set_connections].
    rewrite nth_tl. apply (Hc (S j)). lia.
  - destruct s as [c [conns kb ex sl sk tr]].
    cbn [after_refusal world sleeps set_sleeps].
    rewrite nth_tl. apply (Hs (S j)). lia.
Qed.

Lemma count_app (p : event -> bool) (a b : list event) :
  count p (a ++ b) = (count p a + count p b)%nat.
Proof. unfold count. now rewrite filter_app, length_app. Qed.

Lemma refusal_events_count (host : str) (port : Z) (k : nat) : forall sk,
  count is_connect (refusal_events host port sk k) = k
  /\ count is_sleep (refusal_events host port sk k) = k
  /\ Forall (fun e => is_sleep e = true -> e = ESleep 5)
            (refusal_events host port sk k).
Proof.
  induction k as [|k IH]; intros sk.
  - repeat split. constructor.
  - destruct (IH (S sk)) as (Hc & Hs & Hall).
    cbn [refusal_events]. rewrite !count_app, Hc, Hs.
    repeat split. apply Forall_app. split; [|exact Hall].
    repeat constructor; discriminate.
Qed.

Lemma new_events_app (s s' : State) (added : list event) :
  trace (world s') = trace (world s) ++ added -> new_events s s' = added.
Proof.
  intros H. unfold new_events. rewrite H.
  rewrite skipn_app, skipn_all, Nat.sub_diag. reflexivity.
Qed.

(** C6: when each of the first five connection attempts is refused (and no
    wait is interrupted from the keyboard), [__connect_to_server] makes
    exactly five attempts, prints the retry notice and waits five seconds
    after each of them, and then raises [socket.error] with the
    restart-the-client message; when attempt number [k] of the first five
    is the first to succeed, it returns the socket of that attempt, after
    [k] refused attempts and one successful one. *)
Theorem connect_to_server_spec (s : State) :
  let host := __HOST (self s) in
  let port := __PORT (self s) in
  let first := sockets (world s) in
  ((forall j, (j < 5)%nat -> nth j (connections (world s)) false = false) ->
   (forall j, (j < 5)%nat -> nth j (sleeps (world s)) false = false) ->
   exists s',
     __connect_to_server s = (Raise (Exn OSError restart_the_client), s')
     /\ new_events s s' = refusal_events host port first 5
     /\ count is_connect (new_events s s') = 5%nat
     /\ count is_sleep (new_events s s') = 5%nat
     /\ Forall (fun e => is_sleep e = true -> e = ESleep 5) (new_events s s'))
  /\ (forall k, (k < 5)%nat ->
      nth k (connections (world s)) false = true ->
      (forall j, (j < k)%nat -> nth j (connections (world s)) false = false) ->
      (forall j, (j < k)%nat -> nth j (sleeps (world s)) false = false) ->
      exists s',
        __connect_to_server s = (Ret (first + k)%nat, s')
        /\ new_events s s'
           = refusal_events host port first k ++ [EConnect (first + k)%nat host port]
        /\ count is_connect (new_events s s') = S k).
Proof.
  cbv zeta. unfold __connect_to_server. split.
  - intros Hc Hs.
    pose proof (connect_attempts_refusals 5 0 s Hc Hs) as E.
    cbn [Nat.add] in E. rewrite E. clear E.
    destruct (after_refusals_state 5 s) as (_ & _ & _ & _ & _ & _ & Ht).
    eexists. split; [reflexivity|].
    rewrite (new_events_app _ _ _ Ht).
    destruct (refusal_events_count (__HOST (self s)) (__PORT (self s)) 5
                (sockets (world s))) as (H1 & H2 & H3).
    repeat split; assumption.
  - intros k Hk Hok Hc Hs.
    replace 5%nat with (k + S (4 - k))%nat by lia.
    rewrite (connect_attempts_refusals k _ s Hc Hs).
    destruct (after_refusals_state k s) as (Hself & Hconn & _ & Hsk & _ & _ & Ht).
    rewrite connect_attempts_accepted.
    2:{ rewrite Hconn. rewrite nth_skipn. now rewrite Nat.add_0_r. }
    rewrite Hsk. eexists. split; [reflexivity|].
    match goal with
    | |- new_events s ?s' = _ /\ _ =>
      assert (E : trace (world s') = trace (world s)
                  ++ refusal_events (__HOST (self s)) (__PORT (self s))
                       (sockets (world s)) k
                  ++ [EConnect (sockets (world s) + k)%nat (__HOST (self s))
                               (__PORT (self s))])
    end.
    { cbn [world trace set_connections set_sockets log].
      rewrite Ht, Hself. now rewrite <- app_assoc. }
    rewrite (new_events_app _ _ _ E). split; [reflexivity|].
    rewrite count_app.
    destruct (refusal_events_count (__HOST (self s)) (__PORT (self s)) k
                (sockets (world s))) as (H1 & _).
    rewrite H1. cbn. lia.
Qed.

(** C6, witness: a server that never answers, and one that answers the
    third attempt. *)
Lemma connect_to_server_spec_witness :
  (exists s',
     __connect_to_server fresh_state = (Raise (Exn OSError restart_the_client), s')
     /\ count is_connect (new_events fresh_state s') = 5%nat)
  /\ (exists s',
        __connect_to_server
          {| self := self fresh_state;
             world := set_connections [false; false; true] (world fresh_state) |}
        = (Ret 2%nat, s')).
Proof.
  split.
  - destruct (proj1 (connect_to_server_spec fresh_state)) as (s' & H & _ & Hc & _).
    + intros j _. now destruct j as [|[|[|[|[|j]]]]].
    + intros j _. now destruct j as [|[|[|[|[|j]]]]].
    + exists s'. split; assumption.
  - destruct (proj2 (connect_to_server_spec
                       {| self := self fresh_state;
                          world := set_connections [false; false; true]
                                     (world fresh_state) |}) 2%nat)
      as (s' & H & _).
    + lia.
    + reflexivity.
    + intros j Hj. destruct j as [|[|j]]; [reflexivity | reflexivity | lia].
    + intros j Hj. now destruct j as [|[|j]].
    + exists s'. exact H.
Defined.

(** ** What the methods leave untouched *)

Section Frames.

Variable R : State -> State -> Prop.
Hypothesis R_refl : forall s, R s s.
Hypothesis R_trans : forall a b c, R a b -> R b c -> R a c.

Lemma preserves_ret {A} (a : A) : preserves R (ret a).
Proof. intros s. apply R_refl. Qed.

Lemma preserves_raise {A} (e : exn) : preserves R (@raise A e).
Proof. intros s. apply R_refl. Qed.

Lemma preserves_lift {A} (r : outcome A) : preserves R (lift r).
Proof. intros s. apply R_refl. Qed.

Lemma preserves_get_self : preserves R get_self.
Proof. intros s. apply R_refl. Qed.

Lemma preserves_bind {A B} (m : M A) (k : A -> M B) :
  preserves R m -> (forall a, preserves R (k a)) -> preserves R (bind m k).
Proof.
  intros Hm Hk s. unfold bind. specialize (Hm s).
  destruct (m s) as [[a|e] s1]; cbn [snd] in *; [|exact Hm].
  eapply R_trans; [exact Hm | apply Hk].
Qed.

Lemma preserves_try_except {A} (m : M A) (h : exn -> option (M A)) :
  preserves R m -> (forall e k, h e = Some k -> preserves R k) ->
  preserves R (try_except m h).
Proof.
  intros Hm Hh s. unfold try_except. specialize (Hm s).
  destruct (m s) as [[a|e] s1]; cbn [snd] in *; [exact Hm|].
  destruct (h e) as [k|] eqn:E; [|exact Hm].
  eapply R_trans; [exact Hm | eapply Hh; exact E].
Qed.

Lemma preserves_getitem {A} (key : string) (field : option A) :
  preserves R (getitem key field).
Proof. destruct field; [apply preserves_ret | apply preserves_raise]. Qed.

Lemma preserves_json_loads (b : bytes) : preserves R (json_loads b).
Proof. destruct b; [apply preserves_ret | apply preserves_raise]. Qed.

Ltac frame_step :=
  match goal with
  | |- preserves _ (bind _ _) => apply preserves_bind; [|intros ?]
  | |- preserves _ (ret _) => apply preserves_ret
  | |- preserves _ (raise _) => apply preserves_raise
  | |- preserves _ (sys_exit _) => apply preserves_raise
  | |- preserves _ (lift _) => apply preserves_lift
  | |- preserves _ get_self => apply preserves_get_self
  | |- preserves _ (getitem _ _) => apply preserves_getitem
  | |- preserves _ (json_loads _) => apply preserves_json_loads
  | |- preserves _ (if ?b then _ else _) => destruct b
  | |- preserves _ (match ?x with _ => _ end) => destruct x
  | H : _ |- _ => apply H
  end.

Ltac frame := repeat frame_step.

(** The rendering methods print, wait and rewrite the word history. *)
Section Rendering.

Hypothesis R_print : forall text, preserves R (print text).
Hypothesis R_print_table : forall t, preserves R (print_table t).
Hypothesis R_sleep : forall secs, preserves R (sleep secs).
Hypothesis R_words_stack :
  forall f, preserves R (modify_self (fun c => set_words_stack (f c) c)).
Hypothesis R_scores_table : forall method, preserves R (update_scores_table method).

Lemma preserves_return_attempts (remaining_attempts : option Z) :
  preserves R (__return_attempts remaining_attempts).
Proof. unfold __return_attempts. frame. Qed.

Lemma preserves_render_score_table rounds_scores total_score :
  preserves R (__render_score_table rounds_scores total_score).
Proof. unfold __render_score_table. frame. Qed.

Lemma preserves_reveal (hidden : str) : forall shown, preserves R (reveal shown hidden).
Proof.
  induction hidden as [|char rest IH]; intros shown; cbn [reveal]; frame.
Qed.

Lemma preserves_secret_word_animation (word : option str) :
  preserves R (__secret_word_animation word).
Proof.
  unfold __secret_word_animation. destruct word; frame. apply preserves_reveal.
Qed.

Lemma preserves_handle_successful_cases response_status extra_info :
  preserves R (__handle_successful_cases response_status extra_info).
Proof.
  unfold __handle_successful_cases.
  pose proof preserves_return_attempts.
  pose proof preserves_render_score_table.
  pose proof preserves_secret_word_animation.
  pose proof (R_words_stack (fun c => LinkedStack.clear (__words_stack c))).
  cbv zeta. frame.
Qed.

Lemma preserves_handle_error_cases response_status extra_info :
  preserves R (__handle_error_cases response_status extra_info).
Proof.
  unfold __handle_error_cases. pose proof preserves_return_attempts.
  cbv zeta. frame.
Qed.

Lemma preserves_render_response response_status extra_info :
  preserves R (__render_response response_status extra_info).
Proof.
  unfold __render_response.
  pose proof preserves_handle_successful_cases.
  pose proof preserves_handle_error_cases.
  frame.
Qed.

(** The exchanges of one request add the socket. *)
Section Exchanging.

Variable req_body : Request.t.
Hypothesis R_sendall : forall sock, preserves R (sendall sock req_body).
Hypothesis R_recv : forall sock bufsize, preserves R (recv sock bufsize).

Lemma preserves_send_requisition : preserves R (__send_requisition req_body).
Proof. unfold __send_requisition. frame. Qed.

End Exchanging.

(** The continue-round exchange sends the request of lines 309-312. *)
Section Continuing.

Hypothesis R_sendall : forall sock, preserves R (sendall sock continue_game).
Hypothesis R_recv : forall sock bufsize, preserves R (recv sock bufsize).

Lemma preserves_continue_attempts (attempts : nat) :
  preserves R (continue_attempts attempts).
Proof.
  pose proof (preserves_send_requisition continue_game R_sendall R_recv).
  pose proof preserves_render_response.
  induction attempts as [|attempts IH]; cbn [continue_attempts]; [apply R_print|].
  apply preserves_bind.
  - apply preserves_try_except; [frame|].
    intros e k Hk.
    destruct (isinstance e OSError);
      [|destruct (isinstance e JSONDecodeError); [|discriminate]];
      injection Hk as <-; frame.
  - intros [|]; [apply preserves_ret | exact IH].
Qed.

End Continuing.
End Rendering.
End Frames.

(** The three relations are preorders, and the built-ins keep them. *)

Lemma same_status_refl s : same_status s s.
Proof. reflexivity. Qed.

Lemma same_status_trans a b c : same_status a b -> same_status b c -> same_status a c.
Proof. unfold same_status. congruence. Qed.

Lemma no_send_refl s : no_send s s.
Proof. reflexivity. Qed.

Lemma no_send_trans a b c : no_send a b -> no_send b c -> no_send a c.
Proof. unfold no_send. congruence. Qed.



Lemma emit_trace (es : list event) : forall s,
  trace (world (emit es s)) = trace (world s) ++ es
  /\ self (emit es s) = self s
  /\ connections (world (emit es s)) = connections (world s)
  /\ keyboard (world (emit es s)) = keyboard (world s)
  /\ exchanges (world (emit es s)) = exchanges (world s)
  /\ sleeps (world (emit es s)) = sleeps (world s).
Proof.
  unfold emit. cbn [self world].
  intros [c w]. cbn [self world]. revert w.
  induction es as [|e es IH]; intros w; cbn [fold_left].
  - rewrite app_nil_r. repeat split.
  - destruct (IH (log e w)) as (Ht & _ & Hc & Hk & Hx & Hs).
    rewrite Ht, Hc, Hk, Hx, Hs. cbn [log trace connections keyboard exchanges sleeps].
    rewrite <- app_assoc. repeat split.
Qed.

Ltac world_cases :=
  intros [c [conns kb ex sl sk tr]];
  repeat match goal with
         | |- context [match ?x with _ => _ end] => destruct x
         end.

Lemma same_status_world {A} (m : M A) :
  (forall s, self (snd (m s)) = self s) -> preserves same_status m.
Proof. intros H s. unfold same_status. now rewrite H. Qed.

Lemma same_status_print text : preserves same_status (print text).
Proof. now apply same_status_world. Qed.

Lemma same_status_print_table t : preserves same_status (print_table t).
Proof. now apply same_status_world. Qed.

Lemma same_status_sleep secs : preserves same_status (sleep secs).
Proof. apply same_status_world. unfold sleep. world_cases; reflexivity. Qed.

Lemma same_status_words_stack f :
  preserves same_status (modify_self (fun c => set_words_stack (f c) c)).
Proof. intros s. reflexivity. Qed.

Lemma same_status_scores_table method :
  preserves same_status (update_scores_table method).
Proof.
  intros s. unfold same_status, update_scores_table.
  destruct (method (__scores_table (self s))); reflexivity.
Qed.

Lemma same_status_sendall sock body : preserves same_status (sendall sock body).
Proof. apply same_status_world. unfold sendall. world_cases; reflexivity. Qed.

Lemma same_status_recv sock bufsize : preserves same_status (recv sock bufsize).
Proof. apply same_status_world. unfold recv. world_cases; reflexivity. Qed.

Lemma sent_log (e : event) (c : Client) (w : World) :
  sent {| self := c; world := log e w |}
  = (sent {| self := c; world := w |} + if is_send e then 1 else 0)%nat.
Proof.
  unfold sent. cbn [world log trace]. rewrite count_app.
  unfold count at 2. cbn [filter]. now destruct (is_send e).
Qed.

Lemma no_send_print text : preserves no_send (print text).
Proof.
  intros [c w]. unfold no_send, print, modify_world. cbn [snd self world].
  rewrite sent_log. cbn [is_send]. lia.
Qed.

Lemma no_send_print_table t : preserves no_send (print_table t).
Proof.
  intros [c w]. unfold no_send, print_table, modify_world. cbn [snd self world].
  rewrite sent_log. cbn [is_send]. lia.
Qed.

Lemma no_send_sleep secs : preserves no_send (sleep secs).
Proof.
  intros [c w]. unfold no_send, sleep. cbn [self world].
  assert (H : sent {| self := c; world := log (ESleep secs) w |}
              = sent {| self := c; world := w |})
    by (rewrite sent_log; cbn [is_send]; lia).
  destruct w as [conns kb ex sl sk tr]. cbn [log sleeps] in *.
  destruct sl as [|[] sl]; exact H.
Qed.

Lemma no_send_words_stack f :
  preserves no_send (modify_self (fun c => set_words_stack (f c) c)).
Proof. intros s. reflexivity. Qed.

Lemma no_send_scores_table method :
  preserves no_send (update_scores_table method).
Proof.
  intros s. unfold no_send, update_scores_table.
  destruct (method (__scores_table (self s))); reflexivity.
Qed.











(** The continue-round exchange and the game status. *)
Lemma continue_attempts_same_status (n : nat) :
  preserves same_status (continue_attempts n).
Proof.
  apply preserves_continue_attempts;
    first [ exact same_status_refl | exact same_status_trans
          | exact same_status_print | exact same_status_print_table
          | exact same_status_sleep | exact same_status_words_stack
          | exact same_status_scores_table
          | intros sock; apply same_status_sendall | exact same_status_recv ].
Qed.

Lemma render_response_no_send response_status extra_info :
  preserves no_send (__render_response response_status extra_info).
Proof.
  apply preserves_render_response;
    first [ exact no_send_refl | exact no_send_trans | exact no_send_print
          | exact no_send_print_table | exact no_send_sleep
          | exact no_send_words_stack | exact no_send_scores_table ].
Qed.

(** ** The score table (lines 92-110) *)

Lemma distinct_NoDup (val : list str) :
  NoDup val -> PrettyTable.distinct val = true.
Proof.
  induction 1 as [|name rest Hin _ IH]; [reflexivity|].
  cbn [PrettyTable.distinct]. rewrite IH, andb_true_r.
  apply negb_true_iff. apply not_true_is_false. intros H.
  apply existsb_exists in H. destruct H as (x & Hx & E).
  apply str_eqb_eq in E. now subst.
Qed.

Lemma nonempty_false {A} (l : list A) : PrettyTable.nonempty l = false <-> l = [].
Proof. destruct l; split; intros H; congruence || reflexivity || discriminate. Qed.

(** The labels are taken by a table whose rows were cleared. *)
Lemma set_field_names_accepted (user_name : option str) (t : Table)
    (rounds_scores : list (str * number)) :
  labels_accepted t rounds_scores ->
  PrettyTable.set_field_names (map fst rounds_scores) (retitled user_name t)
  = Ret {| title := Some (lit "Pontuação de " ++ format_opt user_name);
           field_names := map fst rounds_scores;
           rows := [] |}.
Proof.
  intros [Hn Hd]. unfold PrettyTable.set_field_names, PrettyTable.validate_field_names.
  cbn [retitled field_names rows title PrettyTable.nonempty andb].
  rewrite (distinct_NoDup _ Hd). cbn [negb].
  destruct Hn as [-> | Hl]; [reflexivity|].
  rewrite length_map, Hl, Nat.eqb_refl. cbn [negb]. rewrite andb_false_r.
  reflexivity.
Qed.

Lemma set_field_names_rejected (user_name : option str) (t : Table)
    (rounds_scores : list (str * number)) :
  field_names t <> [] ->
  length rounds_scores <> length (field_names t) ->
  PrettyTable.set_field_names (map fst rounds_scores) (retitled user_name t)
  = Raise (wrong_label_count (length rounds_scores) (length (field_names t))).
Proof.
  intros Hn Hl. unfold PrettyTable.set_field_names, PrettyTable.validate_field_names.
  cbn [retitled field_names rows title].
  destruct (field_names t) as [|n0 names] eqn:E; [contradiction|].
  cbn [PrettyTable.nonempty andb]. rewrite length_map.
  apply Nat.eqb_neq in Hl. rewrite Hl. reflexivity.
Qed.

Lemma render_score_table_begins rounds_scores total_score (s : State) :
  __render_score_table rounds_scores total_score s
  = match rounds_scores with
    | None => raise (AttributeError_None "keys")
    | Some d =>
      (update_scores_table (PrettyTable.set_field_names (map fst d)) ;;
       update_scores_table
         (PrettyTable.add_row (map (fun kv => CNum (Some (snd kv))) d)) ;;
       update_scores_table
         (PrettyTable.add_column (lit "Pontuação Total") [CNum total_score]) ;;
       print (lit "") ;;
       c <- get_self ;;
       print_table (__scores_table c))%py
    end (with_scores_table
           (retitled (__user_name (self s)) (__scores_table (self s))) s).
Proof. destruct rounds_scores; reflexivity. Qed.

(** Accepted labels: the table is rebuilt, kept by the client and
    printed under an empty line. *)
Lemma render_score_table_accepted rounds_scores total_score (s : State) :
  labels_accepted (__scores_table (self s)) rounds_scores ->
  __render_score_table (Some rounds_scores) total_score s
  = (Ret tt,
     emit [EPrint (lit "");
           EPrintTable (score_table (__user_name (self s)) rounds_scores total_score)]
          (with_scores_table
             (score_table (__user_name (self s)) rounds_scores total_score) s)).
Proof.
  intros H. rewrite render_score_table_begins.
  unfold bind at 1. unfold update_scores_table at 1.
  cbn [with_scores_table self set_scores_table __scores_table world].
  rewrite (set_field_names_accepted _ _ _ H).
  unfold bind at 1. unfold update_scores_table at 1.
  cbn [self set_scores_table __scores_table world].
  unfold PrettyTable.add_row. cbn [field_names rows title].
  destruct rounds_scores as [|[label score] more].
  - reflexivity.
  - cbn [map PrettyTable.nonempty length andb]. rewrite !length_map, Nat.eqb_refl.
    reflexivity.
Qed.

(** Rejected labels: the rows are gone and the title is set, the columns
    are what they were, and nothing is printed. *)
Lemma render_score_table_rejected rounds_scores total_score (s : State) :
  field_names (__scores_table (self s)) <> [] ->
  length rounds_scores <> length (field_names (__scores_table (self s))) ->
  __render_score_table (Some rounds_scores) total_score s
  = (Raise (wrong_label_count (length rounds_scores)
              (length (field_names (__scores_table (self s))))),
     with_scores_table
       (retitled (__user_name (self s)) (__scores_table (self s))) s).
Proof.
  intros Hn Hl. rewrite render_score_table_begins.
  unfold bind at 1. unfold update_scores_table at 1.
  cbn [with_scores_table self set_scores_table __scores_table world].
  now rewrite (set_field_names_rejected _ _ _ Hn Hl).
Qed.

(** ** The continue-round exchange (lines 297-328) *)

Lemma sent_bind_le {A B} (m : M A) (k : A -> M B) (a : nat) (s : State) :
  (sent (snd (m s)) <= sent s + a)%nat ->
  (forall x, preserves no_send (k x)) ->
  (sent (snd (bind m k s)) <= sent s + a)%nat.
Proof.
  intros Hm Hk. unfold bind.
  destruct (m s) as [[x|e] s1]; cbn [snd] in *; [|exact Hm].
  rewrite (Hk x s1). exact Hm.
Qed.

Lemma sent_try_le {A} (m : M A) (h : exn -> option (M A)) (a : nat) (s : State) :
  (sent (snd (m s)) <= sent s + a)%nat ->
  (forall e k, h e = Some k -> preserves no_send k) ->
  (sent (snd (try_except m h s)) <= sent s + a)%nat.
Proof.
  intros Hm Hh. unfold try_except.
  destruct (m s) as [[x|e] s1]; cbn [snd] in *; [exact Hm|].
  destruct (h e) as [k|] eqn:E; [|exact Hm].
  rewrite (Hh e k E s1). exact Hm.
Qed.

(** One exchange sends at most one request. *)
Lemma send_requisition_sent (req_body : Request.t) (s : State) :
  (sent (snd (__send_requisition req_body s)) <= sent s + 1)%nat.
Proof.
  destruct s as [c [conns kb ex sl sk tr]].
  unfold __send_requisition, bind, get_self, sendall, recv, json_loads, ret, raise.
  cbn [self world fst snd].
  destruct (__sock c) as [k|]; [|cbn [snd]; apply Nat.le_add_r].
  destruct ex as [|[] ex]; simpl;
    unfold sent, count; simpl;
    rewrite ?filter_app, ?length_app; simpl;
    generalize (length (filter is_send tr)); intros; lia.
Qed.

(** The loop of [n] attempts sends at most [n] requests. *)
Lemma continue_attempts_sent (n : nat) : forall s,
  (sent (snd (continue_attempts n s)) <= sent s + n)%nat.
Proof.
  induction n as [|n IH]; intros s; cbn [continue_attempts].
  - rewrite (no_send_print _ s). lia.
  - match goal with
    | |- context [bind ?t ?k s] => set (T := t); set (K := k)
    end.
    assert (HT : (sent (snd (T s)) <= sent s + 1)%nat).
    { apply sent_try_le.
      - apply sent_bind_le; [apply send_requisition_sent|].
        intros rd.
        apply (preserves_bind no_send no_send_trans);
          [apply (preserves_getitem no_send no_send_refl)|intros st].
        apply (preserves_bind no_send no_send_trans);
          [apply (preserves_get_self no_send no_send_refl)|intros c].
        apply (preserves_bind no_send no_send_trans);
          [apply render_response_no_send|intros _].
        apply (preserves_ret no_send no_send_refl).
      - intros e k Hk.
        destruct (isinstance e OSError);
          [|destruct (isinstance e JSONDecodeError); [|discriminate]];
          injection Hk as <-;
          (apply (preserves_bind no_send no_send_trans);
           [apply no_send_print
           |intros _; apply (preserves_ret no_send no_send_refl)]). }
    unfold bind. destruct (T s) as [[returned|e] s1]; cbn [snd] in *; [|lia].
    unfold K. destruct returned; cbn [snd ret].
    + lia.
    + specialize (IH s1). lia.
Qed.

(** With only [player_name] among the keyword arguments the rendering
    returns, or stops at the attempts line with [TypeError]. *)
Lemma continued_rendering_outcome (response_status : Z) (c : Client) (s : State) :
  fst (__render_response response_status (player_kwargs c) s) = Ret tt
  \/ fst (__render_response response_status (player_kwargs c) s)
     = Raise TypeError_ge_None.
Proof.
  unfold __render_response, __handle_successful_cases, __handle_error_cases,
    player_kwargs.
  cbv zeta. cbn [Kwargs.remaining_attempts Kwargs.format_output
                 Kwargs.secret_word Kwargs.player_name Kwargs.rounds_scores
                 Kwargs.total_score truthy_int int_eqb].
  repeat match goal with
         | |- context [if ?b then _ else _] => destruct b
         end;
    unfold bind, get_self; cbn [fst snd self];
    repeat match goal with
           | |- context [if ?b then _ else _] => destruct b
           end;
    solve [left; reflexivity | right; reflexivity].
Qed.
Lemma continue_attempts_failed (n : nat) (sk : socket) (s : State) :
  __sock (self s) = Some sk ->
  failed (hd_error (exchanges (world s))) = true ->
  continue_attempts (S n) s = continue_attempts n (after_failure sk s).
Proof.
  destruct s as [c [conns kb ex sl k tr]]. cbn [self world exchanges].
  intros Hs Hf. cbn [continue_attempts].
  unfold __send_requisition, get_self, sendall, recv, json_loads, getitem,
    print, modify_world.
  unfold bind, try_except, ret, raise.
  cbn [self world fst snd]. rewrite Hs.
  destruct ex as [|[] ex]; try discriminate; reflexivity.
Qed.

Lemma continue_attempts_reply (n : nat) (sk : socket) (s : State)
    (r : Response.t) (response_status : Z) :
  __sock (self s) = Some sk ->
  hd_error (exchanges (world s)) = Some (Reply r) ->
  Response.status_code r = Some response_status ->
  continue_attempts (S n) s
  = __render_response response_status (player_kwargs (self s)) (after_reply sk s).
Proof.
  destruct s as [c [conns kb ex sl k tr]]. cbn [self world exchanges].
  intros Hs Hx Hst. destruct ex as [|[] ex]; try discriminate.
  injection Hx as ->.
  cbn [continue_attempts].
  unfold __send_requisition, get_self, sendall, recv, json_loads, getitem,
    after_reply, emit, player_kwargs.
  unfold bind, try_except, ret, raise.
  cbn [self world fst snd]. rewrite Hs.
  cbn [self world fst snd fold_left log set_exchanges exchanges tl
       connections keyboard sleeps sockets trace].
  rewrite Hst.
  unfold set_exchanges, log.
  cbn [self world connections keyboard exchanges sleeps sockets trace tl].
  change continue_game with continue_request.
  match goal with
  | |- _ = __render_response ?st ?kw ?s1 =>
    pose proof (continued_rendering_outcome st c s1) as Ho;
    unfold player_kwargs in Ho;
    destruct (__render_response st kw s1) as [[[]|e] s2]
  end.
  - reflexivity.
  - cbn [fst] in Ho. destruct Ho as [Ho|Ho]; [discriminate|].
    injection Ho as ->. reflexivity.
Qed.

Lemma after_failure_state (sk : socket) (s : State) :
  self (after_failure sk s) = self s
  /\ exchanges (world (after_failure sk s)) = tl (exchanges (world s))
  /\ trace (world (after_failure sk s))
     = trace (world s)
         ++ failure_events sk (__MSG_SIZE (self s)) (hd_error (exchanges (world s))).
Proof.
  unfold after_failure.
  match goal with
  | |- context [emit ?es ?s0] =>
    destruct (emit_trace es s0) as (Ht & Hself & _ & _ & Hx & _)
  end.
  rewrite Ht, Hself, Hx. repeat split.
Qed.

Lemma after_failures_state (sk : socket) (k : nat) : forall s,
  self (after_failures sk k s) = self s
  /\ exchanges (world (after_failures sk k s)) = skipn k (exchanges (world s))
  /\ trace (world (after_failures sk k s))
     = trace (world s)
         ++ failures_events sk (__MSG_SIZE (self s)) k (exchanges (world s)).
Proof.
  induction k as [|k IH]; intros s; cbn [after_failures failures_events].
  - rewrite app_nil_r. repeat split.
  - destruct (IH (after_failure sk s)) as (Hself & Hx & Ht).
    destruct (after_failure_state sk s) as (Hself1 & Hx1 & Ht1).
    rewrite Hself, Hx, Ht, Hself1, Hx1, Ht1, <- app_assoc.
    repeat split.
    destruct (exchanges (world s)); cbn [tl skipn];
      [now rewrite skipn_nil | reflexivity].
Qed.

Lemma nth_error_tl {A} (l : list A) (j : nat) :
  nth_error (tl l) j = nth_error l (S j).
Proof. destruct l; [now destruct j | reflexivity]. Qed.

Lemma hd_error_nth_error {A} (l : list A) : hd_error l = nth_error l 0.
Proof. now destruct l. Qed.

Lemma continue_attempts_failures (sk : socket) (k : nat) : forall (n : nat) (s : State),
  __sock (self s) = Some sk ->
  (forall j, (j < k)%nat -> failed (nth_error (exchanges (world s)) j) = true) ->
  continue_attempts (k + n) s = continue_attempts n (after_failures sk k s).
Proof.
  induction k as [|k IH]; intros n s Hs Hf; [reflexivity|].
  cbn [Nat.add after_failures].
  rewrite (continue_attempts_failed _ sk) ; [|exact Hs|].
  2:{ rewrite hd_error_nth_error. apply Hf. lia. }
  destruct (after_failure_state sk s) as (Hself & Hx & _).
  apply IH.
  - now rewrite Hself.
  - intros j Hj. rewrite Hx, nth_error_tl. apply Hf. lia.
Qed.

Lemma failure_events_count (sk : socket) (bufsize : Z) (x : option exchange) :
  failed x = true ->
  count is_send (failure_events sk bufsize x) = 1%nat
  /\ count is_diagnostic (failure_events sk bufsize x) = 1%nat.
Proof.
  destruct x as [[]|]; cbn [failed]; try discriminate; intros _;
    split; reflexivity.
Qed.

Lemma failures_events_count (sk : socket) (bufsize : Z) (k : nat) :
  forall script,
    (forall j, (j < k)%nat -> failed (nth_error script j) = true) ->
    count is_send (failures_events sk bufsize k script) = k
    /\ count is_diagnostic (failures_events sk bufsize k script) = k.
Proof.
  induction k as [|k IH]; intros script Hf; cbn [failures_events].
  - split; reflexivity.
  - rewrite !count_app.
    destruct (failure_events_count sk bufsize (hd_error script)) as (H1 & H2).
    { rewrite hd_error_nth_error. apply Hf. lia. }
    destruct (IH (tl script)) as (H3 & H4).
    { intros j Hj. rewrite nth_error_tl. apply Hf. lia. }
    rewrite H1, H2, H3, H4. split; reflexivity.
Qed.

Lemma sent_new_events (s s' : State) (added : list event) :
  trace (world s') = trace (world s) ++ added ->
  sent s' = (sent s + count is_send added)%nat.
Proof. intros H. unfold sent. now rewrite H, count_app. Qed.

(** Every request of the continue-round exchange is the one the spec
    names. *)
Lemma requests_app (a b : list event) : requests (a ++ b) = requests a ++ requests b.
Proof. unfold requests. apply flat_map_app. Qed.

Lemma sends_only_refl body s : sends_only body s s.
Proof. exists []. rewrite app_nil_r. split; [reflexivity | constructor]. Qed.

Lemma sends_only_trans body a b c :
  sends_only body a b -> sends_only body b c -> sends_only body a c.
Proof.
  intros (x & Hx & Fx) (y & Hy & Fy). exists (x ++ y).
  rewrite Hy, Hx, app_assoc. split; [reflexivity|].
  rewrite requests_app. apply Forall_app. now split.
Qed.

Lemma sends_only_log body (e : event) (c c' : Client) (w : World) :
  (forall sent_body, requests [e] = [sent_body] -> sent_body = body) ->
  sends_only body {| self := c; world := w |} {| self := c'; world := log e w |}.
Proof.
  intros H. exists [e]. split; [reflexivity|].
  destruct e; cbn; try constructor; [now apply H | constructor].
Qed.

Lemma sends_only_world body {A} (m : M A) :
  (forall s, trace (world (snd (m s))) = trace (world s)) ->
  preserves (sends_only body) m.
Proof.
  intros H s. exists []. rewrite H, app_nil_r. split; [reflexivity | constructor].
Qed.

Lemma sends_only_print body text : preserves (sends_only body) (print text).
Proof. intros [c w]. apply sends_only_log. discriminate. Qed.

Lemma sends_only_print_table body t : preserves (sends_only body) (print_table t).
Proof. intros [c w]. apply sends_only_log. discriminate. Qed.

Lemma sends_only_sleep body secs : preserves (sends_only body) (sleep secs).
Proof.
  intros [c [conns kb ex sl sk tr]]. unfold sleep.
  destruct sl as [|[] sl]; (exists [ESleep secs]; split; [reflexivity | constructor]).
Qed.

Lemma sends_only_words_stack body f :
  preserves (sends_only body) (modify_self (fun c => set_words_stack (f c) c)).
Proof. now apply sends_only_world. Qed.

Lemma sends_only_scores_table body method :
  preserves (sends_only body) (update_scores_table method).
Proof.
  apply sends_only_world. intros s. unfold update_scores_table.
  destruct (method (__scores_table (self s))); reflexivity.
Qed.

Lemma sends_only_sendall body sock : preserves (sends_only body) (sendall sock body).
Proof.
  intros [c [conns kb ex sl sk tr]]. unfold sendall.
  destruct sock as [k|]; [|apply sends_only_refl].
  destruct ex as [|[] ex];
    (exists [ESend k body]; split; [reflexivity | repeat constructor]).
Qed.

Lemma sends_only_recv body sock bufsize :
  preserves (sends_only body) (recv sock bufsize).
Proof.
  intros [c [conns kb ex sl sk tr]]. unfold recv.
  destruct sock as [k|]; [|apply sends_only_refl].
  destruct ex as [|[] ex];
    (exists [ERecv k bufsize]; split; [reflexivity | constructor]).
Qed.

Lemma continue_attempts_sends_only (n : nat) :
  preserves (sends_only continue_request) (continue_attempts n).
Proof.
  apply preserves_continue_attempts;
    first [ exact (sends_only_refl continue_request)
          | exact (sends_only_trans continue_request)
          | exact (sends_only_print continue_request)
          | exact (sends_only_print_table continue_request)
          | exact (sends_only_sleep continue_request)
          | exact (sends_only_words_stack continue_request)
          | exact (sends_only_scores_table continue_request)
          | exact (sends_only_sendall continue_request)
          | exact (sends_only_recv continue_request) ].
Qed.

(** C5: the continue-round exchange sends a request at most three times,
    every request it sends is the command "continue_game" without a
    parameter, and it never changes the game status, whatever happens.
    When the first [k < 3] exchanges fail with [OSError] or
    [JSONDecodeError] and the next one is answered, it has sent [k + 1]
    requests, printed [k] diagnostics, and ends with the rendering of that
    answer, sending nothing more.  When the first three exchanges fail it
    has sent three requests, printed three diagnostics and then the advice
    to restart, and returns. *)
Theorem game_continued_action_spec (s : State) :
  same_status s (snd (__game_continued_action s))
  /\ (sent (snd (__game_continued_action s)) <= sent s + 3)%nat
  /\ (forall body,
        In body (requests (new_events s (snd (__game_continued_action s)))) ->
        body = {| Request.command := lit "continue_game";
                  Request.parameter := None |})
  /\ (forall sk k r response_status,
        __sock (self s) = Some sk -> (k < 3)%nat ->
        (forall j, (j < k)%nat ->
           failed (nth_error (exchanges (world s)) j) = true) ->
        nth_error (exchanges (world s)) k = Some (Reply r) ->
        Response.status_code r = Some response_status ->
        let s1 := after_reply sk (after_failures sk k s) in
        __game_continued_action s
        = __render_response response_status (player_kwargs (self s)) s1
        /\ new_events s s1
           = failures_events sk (__MSG_SIZE (self s)) k (exchanges (world s))
               ++ [ESend sk continue_request; ERecv sk (__MSG_SIZE (self s))]
        /\ count is_diagnostic (new_events s s1) = k
        /\ sent (snd (__game_continued_action s)) = (sent s + S k)%nat)
  /\ (forall sk,
        __sock (self s) = Some sk ->
        (forall j, (j < 3)%nat ->
           failed (nth_error (exchanges (world s)) j) = true) ->
        exists s',
          __game_continued_action s = (Ret tt, s')
          /\ new_events s s'
             = failures_events sk (__MSG_SIZE (self s)) 3 (exchanges (world s))
                 ++ [EPrint consider_restarting]
          /\ count is_diagnostic (new_events s s') = 3%nat
          /\ sent s' = (sent s + 3)%nat).
Proof.
  unfold __game_continued_action.
  split; [apply continue_attempts_same_status|].
  split; [apply continue_attempts_sent|].
  split.
  { intros body Hin.
    destruct (continue_attempts_sends_only 3 s) as (added & Ht & Hall).
    rewrite (new_events_app _ _ _ Ht) in Hin.
    exact (proj1 (Forall_forall _ _) Hall body Hin). }
  split.
  - intros sk k r response_status Hs Hk Hf Hr Hst.
    set (s1 := after_reply sk (after_failures sk k s)).
    destruct (after_failures_state sk k s) as (Hself & Hx & Ht).
    assert (E : continue_attempts 3 s
                = __render_response response_status (player_kwargs (self s)) s1).
    { replace 3%nat with (k + S (2 - k))%nat by lia.
      rewrite (continue_attempts_failures sk k _ s Hs Hf).
      rewrite (continue_attempts_reply _ sk _ r response_status).
      - now rewrite Hself.
      - now rewrite Hself.
      - rewrite Hx, hd_error_nth_error, nth_error_skipn, Nat.add_0_r. exact Hr.
      - exact Hst. }
    assert (T : trace (world s1)
                = trace (world s)
                    ++ failures_events sk (__MSG_SIZE (self s)) k (exchanges (world s))
                    ++ [ESend sk continue_request; ERecv sk (__MSG_SIZE (self s))]).
    { unfold s1, after_reply.
      match goal with
      | |- context [emit ?es ?s0] => destruct (emit_trace es s0) as (Ht1 & _)
      end.
      rewrite Ht1. cbn [world set_exchanges trace self].
      rewrite Ht, Hself. now rewrite <- app_assoc. }
    destruct (failures_events_count sk (__MSG_SIZE (self s)) k
                (exchanges (world s)) Hf) as (Hc1 & Hc2).
    rewrite (new_events_app _ _ _ T).
    split; [exact E|]. split; [reflexivity|]. split.
    + rewrite count_app, Hc2. cbn. lia.
    + rewrite E.
      rewrite (render_response_no_send response_status _ s1).
      rewrite (sent_new_events _ _ _ T), count_app, Hc1. cbn. lia.
  - intros sk Hs Hf.
    destruct (after_failures_state sk 3 s) as (Hself & Hx & Ht).
    pose proof (continue_attempts_failures sk 3 0 s Hs Hf) as E.
    cbn [Nat.add] in E. rewrite E. cbn [continue_attempts].
    eexists. split; [reflexivity|].
    match goal with
    | |- new_events s ?s' = _ /\ _ =>
      assert (T : trace (world s')
                  = trace (world s)
                      ++ failures_events sk (__MSG_SIZE (self s)) 3
                           (exchanges (world s))
                      ++ [EPrint consider_restarting])
    end.
    { unfold print, modify_world. cbn [snd world log trace].
      rewrite Ht. now rewrite <- app_assoc. }
    destruct (failures_events_count sk (__MSG_SIZE (self s)) 3
                (exchanges (world s)) Hf) as (Hc1 & Hc2).
    rewrite (new_events_app _ _ _ T).
    split; [reflexivity|]. split.
    + rewrite count_app, Hc2. reflexivity.
    + rewrite (sent_new_events _ _ _ T), count_app, Hc1. reflexivity.
Qed.

(** C5, witness: the spec's scenario, two failures and then the answer
    206; and a peer that never answers. *)
Lemma game_continued_action_spec_witness :
  sent (snd (__game_continued_action
               (answering [RecvFails (lit "reset"); Undecodable (lit "bad");
                           Reply (bare_reply 206)]
                  (connected 0%nat (named (lit "alice") fresh_state)))))
  = 3%nat
  /\ exists s',
       __game_continued_action (connected 0%nat fresh_state) = (Ret tt, s')
       /\ sent s' = 3%nat.
Proof.
  split.
  - destruct (game_continued_action_spec
                (answering [RecvFails (lit "reset"); Undecodable (lit "bad");
                            Reply (bare_reply 206)]
                   (connected 0%nat (named (lit "alice") fresh_state))))
      as (_ & _ & _ & H & _).
    destruct (H 0%nat 2%nat (bare_reply 206) 206 eq_refl) as (_ & _ & _ & E).
    + lia.
    + intros j Hj. destruct j as [|[|j]]; [reflexivity | reflexivity | lia].
    + reflexivity.
    + reflexivity.
    + exact E.
  - destruct (game_continued_action_spec (connected 0%nat fresh_state))
      as (_ & _ & _ & _ & H).
    destruct (H 0%nat eq_refl) as (s' & E & _ & _ & Hs).
    + intros j _. now destruct j as [|[|[|j]]].
    + exists s'. split; assumption.
Defined.

(** ** An incorrect guess (lines 511-527, 417-425) *)

(** The reveal runs to its end when none of its waits is interrupted. *)
Lemma reveal_runs (hidden : str) : forall (shown : str) (s : State),
  (forall j, (j < length hidden)%nat -> nth j (sleeps (world s)) false = false) ->
  exists s',
    reveal shown hidden s = (Ret tt, s')
    /\ self s' = self s
    /\ trace (world s') = trace (world s) ++ reveal_events shown hidden
    /\ keyboard (world s') = keyboard (world s)
    /\ exchanges (world s') = exchanges (world s).
Proof.
  induction hidden as [|char rest IH]; intros shown s Hs.
  - exists s. cbn [reveal reveal_events]. rewrite app_nil_r. repeat split.
  - cbn [reveal reveal_events].
    destruct s as [c [conns kb ex sl sk tr]].
    assert (H0 : nth 0 sl false = false) by (apply (Hs 0%nat); cbn; lia).
    set (line := (shown ++ [char]) ++ times (lit "_") (length rest)).
    destruct (IH (shown ++ [char])
                {| self := c;
                   world := {| connections := conns; keyboard := kb;
                               exchanges := ex; sleeps := tl sl; sockets := sk;
                               trace := (tr ++ [EPrint line]) ++ [ESleep 1] |} |})
      as (s' & E & Hself & Ht & Hk & Hx).
    { intros j Hj. cbn [world sleeps]. rewrite nth_tl.
      apply (Hs (S j)). cbn [length]. lia. }
    exists s'. cbn [self world trace keyboard exchanges] in *.
    rewrite Hself, Ht, Hk, Hx, <- !app_assoc.
    split; [|repeat split].
    rewrite <- E. unfold bind, print, modify_world, sleep.
    cbn [self world log sleeps trace connections keyboard exchanges sockets
         set_sleeps].
    destruct sl as [|[] sl]; [reflexivity | discriminate | reflexivity].
Qed.



















(** ** The word history and the game status *)

(** C2, on the code: leaving the game (status 201) sets the game status
    to [NO_GAME] and leaves the word history as it was; in the session
    [exit_mid_round] the client therefore ends with no game and one word
    in its history. *)
Theorem exit_keeps_word_history :
  (forall response_data parameter s,
     __game_status
       (self (snd (__handle_response_status 201 response_data parameter s)))
     = NO_GAME
     /\ __words_stack
          (self (snd (__handle_response_status 201 response_data parameter s)))
        = __words_stack (self s))
  /\ fst (run ascii_lower 3 exit_mid_round) = Ret tt
  /\ __game_status (self (snd (run ascii_lower 3 exit_mid_round))) = NO_GAME
  /\ __words_stack (self (snd (run ascii_lower 3 exit_mid_round)))
     = [Some (coloured (lit "hello") [0; 0; 1; 2; 0])].
Proof.
  split; [|vm_compute; repeat split].
  intros response_data parameter s. split; reflexivity.
Qed.

(** ** What a response can change *)

Ltac split_codes st :=
  repeat match goal with
         | |- context [st =? ?k] => destruct (Z.eqb_spec st k); [subst st|]
         end.

(** Runs a rendering branch to its end on any state. *)
Ltac run_leaf :=
  unfold __return_attempts, truthy_int, print, print_table, modify_self,
    modify_world, get_self;
  unfold bind, ret, raise;
  cbn [fst snd self world];
  repeat match goal with
         | |- context [Kwargs.remaining_attempts ?k] =>
           destruct (Kwargs.remaining_attempts k)
         | |- context [if ?b then _ else _] => destruct b
         end;
  try reflexivity.

Lemma render_keeps_history (response_status : Z) (extra_info : Kwargs.t) (s : State) :
  response_status <> 202 -> response_status <> 203 -> response_status <> 205 ->
  __words_stack (self (snd (__render_response response_status extra_info s)))
  = __words_stack (self s).
Proof.
  intros N202 N203 N205.
  unfold __render_response, __handle_successful_cases, __handle_error_cases.
  cbv zeta.
  destruct ((200 <=? response_status) && (response_status <? 400));
    [|destruct ((400 <=? response_status) && (response_status <? 500))];
    split_codes response_status; try contradiction; run_leaf.
Qed.

Lemma render_keeps_status_and_socket (response_status : Z) (extra_info : Kwargs.t)
    (s : State) :
  __game_status (self (snd (__render_response response_status extra_info s)))
  = __game_status (self s)
  /\ __sock (self (snd (__render_response response_status extra_info s)))
     = __sock (self s)
  /\ __user_name (self (snd (__render_response response_status extra_info s)))
     = __user_name (self s).
Proof.
  pose proof (preserves_render_response
                (fun a b => __game_status (self b) = __game_status (self a)
                            /\ __sock (self b) = __sock (self a)
                            /\ __user_name (self b) = __user_name (self a)))
    as H.
  apply H; clear H.
  - intros a. repeat split.
  - intros a b c (H1 & H2 & H3) (H4 & H5 & H6). repeat split; congruence.
  - intros text a. repeat split.
  - intros t a. repeat split.
  - intros secs [c [conns kb ex sl sk tr]]. unfold sleep.
    destruct sl as [|[] sl]; repeat split.
  - intros f a. repeat split.
  - intros method a. unfold update_scores_table.
    destruct (method (__scores_table (self a))); repeat split.
Qed.

(** X1: Business errors: a response whose status is in [400, 500) only
    prints lines (at most two); the client, the keyboard and the
    exchanges are left as they were. *)
Theorem business_errors_only_print (response_status : Z)
    (response_data : Response.t) (parameter : option str) (s : State) :
  400 <= response_status < 500 ->
  exists lines,
    snd (__handle_response_status response_status response_data parameter s)
    = emit (map EPrint lines) s
    /\ (length lines <= 2)%nat.
Proof.
  intros H.
  assert (E : __handle_response_status response_status response_data parameter s
              = __handle_error_cases response_status
                  (only_remaining_attempts
                     (Response.remaining_attempts response_data)) s).
  { unfold __handle_response_status, __render_response, only_remaining_attempts.
    decide_codes. reflexivity. }
  rewrite E. unfold __handle_error_cases, only_remaining_attempts. cbv zeta.
  cbn [Kwargs.remaining_attempts].
  destruct s as [c w].
  split_codes response_status;
    unfold __return_attempts, truthy_int, print, print_table, modify_self,
      modify_world, get_self;
    unfold bind, ret, raise;
    cbn [fst snd self world];
    destruct (Response.remaining_attempts response_data) as [ra|];
    try destruct (ra >=? 0); try destruct (ra =? 0); cbn [negb fst snd self world];
    first [ exists []; split; [reflexivity | cbn; lia]
          | eexists [_]; split; [reflexivity | cbn; lia]
          | eexists [_; _]; split; [reflexivity | cbn; lia] ].
Qed.

(** Witness: status 403 with four attempts left. *)
Lemma business_errors_only_print_witness :
  exists lines,
    snd (__handle_response_status 403
           (Response.Build (Some 403) (Some 4) None None None None)
           (Some (lit "abcd")) alice_playing)
    = emit (map EPrint lines) alice_playing
    /\ (length lines <= 2)%nat.
Proof.
  apply (business_errors_only_print 403). lia.
Defined.

(** X2: Statuses 402 to 405: with an integer [remaining_attempts] one line is
    printed, the message followed by the attempts line; without it nothing
    at all is printed, the message included: building the line raises
    [TypeError]. *)
Theorem word_errors_need_attempts (response_status : Z)
    (response_data : Response.t) (parameter : option str) (s : State) :
  402 <= response_status <= 405 ->
  (Response.remaining_attempts response_data = None ->
     __handle_response_status response_status response_data parameter s
     = (Raise TypeError_ge_None, s))
  /\ (forall n,
        Response.remaining_attempts response_data = Some n ->
        __handle_response_status response_status response_data parameter s
        = (Ret tt,
           emit [EPrint (error_message response_status ++ NL ++ attempts_line n s)] s)).
Proof.
  intros H.
  assert (C : response_status = 402 \/ response_status = 403
              \/ response_status = 404 \/ response_status = 405) by lia.
  unfold attempts_line, attempts_left, attempts_so_far.
  split.
  - intros Hra.
    destruct C as [-> | [-> | [-> | ->]]];
      unfold __handle_response_status; cbn [Z.eqb Pos.eqb];
      rewrite Hra; reflexivity.
  - intros n Hra.
    destruct C as [-> | [-> | [-> | ->]]];
      unfold __handle_response_status; cbn [Z.eqb Pos.eqb];
      rewrite Hra;
      unfold __render_response, __handle_error_cases, __return_attempts;
      cbn [Z.eqb Pos.eqb Z.leb Z.ltb Z.compare Pos.compare Pos.compare_cont andb
           Kwargs.remaining_attempts];
      unfold bind, get_self, ret, print, modify_world, emit;
      destruct (n >=? 0); reflexivity.
Qed.

Lemma word_errors_need_attempts_witness :
  __handle_response_status 404
    (Response.Build (Some 404) None None None None None) (Some (lit "zzzzz"))
    alice_playing
  = (Raise TypeError_ge_None, alice_playing).
Proof.
  apply (word_errors_need_attempts 404); [lia | reflexivity].
Defined.

(** X3: The word history is rewritten only by the statuses 202, 203 and 205:
    the handling of any other response leaves it as it was. *)
Theorem history_changes_only_on_202_203_205 (response_status : Z)
    (response_data : Response.t) (parameter : option str) (s : State) :
  response_status <> 202 -> response_status <> 203 -> response_status <> 205 ->
  __words_stack
    (self (snd (__handle_response_status response_status response_data parameter s)))
  = __words_stack (self s).
Proof.
  intros N202 N203 N205. unfold __handle_response_status.
  destruct (Z.eqb_spec response_status 200) as [->|N200]; [reflexivity|].
  destruct (Z.eqb_spec response_status 201) as [->|N201]; [reflexivity|].
  destruct (Z.eqb_spec response_status 202); [contradiction|].
  destruct (Z.eqb_spec response_status 203); [contradiction|].
  destruct (Z.eqb_spec response_status 206) as [->|N206]; [reflexivity|].
  now apply render_keeps_history.
Qed.

Lemma history_changes_only_on_202_203_205_witness :
  __words_stack
    (self (snd (__handle_response_status 201 (bare_reply 201) None
                  (pushed (Some (lit "guess")) alice_playing))))
  = [Some (lit "guess")].
Proof.
  apply (history_changes_only_on_202_203_205 201); lia.
Defined.

(** X4: The game status is set only by the statuses 200 and 201 and by the
    end-of-round choice: the handling of a response with another status,
    or with status 203 and a [remaining_attempts] other than 0, leaves it as
    it was. *)
Theorem status_changes_only_on_200_201_and_choice (response_status : Z)
    (response_data : Response.t) (parameter : option str) (s : State) :
  (response_status <> 200 /\ response_status <> 201
   /\ response_status <> 202 /\ response_status <> 203)
  \/ (response_status = 203
      /\ Response.remaining_attempts response_data <> Some 0) ->
  __game_status
    (self (snd (__handle_response_status response_status response_data parameter s)))
  = __game_status (self s).
Proof.
  intros [(N200 & N201 & N202 & N203) | (-> & Hra)]; unfold __handle_response_status.
  - destruct (Z.eqb_spec response_status 200); [contradiction|].
    destruct (Z.eqb_spec response_status 201); [contradiction|].
    destruct (Z.eqb_spec response_status 202); [contradiction|].
    destruct (Z.eqb_spec response_status 203); [contradiction|].
    destruct (response_status =? 206); unfold bind, get_self; cbn [fst snd];
      apply render_keeps_status_and_socket.
  - cbn [Z.eqb Pos.eqb].
    assert (Hz : int_eqb (Response.remaining_attempts response_data) 0 = false).
    { destruct (Response.remaining_attempts response_data) as [n|]; [|reflexivity].
      cbn [int_eqb]. apply Z.eqb_neq. congruence. }
    rewrite Hz. cbn [negb].
    destruct (Response.word_encoded response_data) as [enc|]; [|reflexivity].
    cbn [getitem]. unfold bind at 1. unfold ret at 1. cbv beta iota.
    unfold bind at 1, lift at 1.
    destruct (__format_output parameter (Some enc)); [|reflexivity].
    apply render_keeps_status_and_socket.
Qed.

Lemma status_changes_only_on_200_201_and_choice_witness :
  __game_status
    (self (snd (__handle_response_status 205 (bare_reply 205) (Some (lit "alice"))
                  alice_playing)))
  = GAME_IN_PROGRESS.
Proof.
  apply (status_changes_only_on_200_201_and_choice 205). left. lia.
Defined.

(** ** The menu (lines 67-89) *)

(** X5: The menu offers the options 1 and 2 when there is no game and the
    options 1 to 5 otherwise; rendering it prints an empty line and the
    table, and changes nothing else. *)
Theorem menu_options_by_status (s : State) :
  exists t,
    __render_menu_table s = (Ret tt, emit [EPrint (lit ""); EPrintTable t] s)
    /\ field_names t = [lit "Opção"; lit "Descrição"]
    /\ (__game_status (self s) = NO_GAME ->
        option_column t = [CStr (lit "1"); CStr (lit "2")])
    /\ (__game_status (self s) <> NO_GAME ->
        option_column t = [CStr (lit "1"); CStr (lit "2"); CStr (lit "3");
                           CStr (lit "4"); CStr (lit "5")]).
Proof.
  unfold __render_menu_table, bind, get_self, print, print_table, modify_world, emit.
  cbn [fst snd self world fold_left].
  eexists. split; [reflexivity|]. split; [reflexivity|].
  destruct (__game_status (self s)); split; intros H;
    try reflexivity; try discriminate; contradiction.
Qed.

Lemma menu_options_by_status_witness :
  exists t,
    __render_menu_table alice_playing
    = (Ret tt, emit [EPrint (lit ""); EPrintTable t] alice_playing)
    /\ option_column t = [CStr (lit "1"); CStr (lit "2"); CStr (lit "3");
                          CStr (lit "4"); CStr (lit "5")].
Proof.
  destruct (menu_options_by_status alice_playing) as (t & E & _ & _ & H).
  exists t. split; [exact E|]. apply H. discriminate.
Defined.

(** ** The end-of-round choice (lines 247-259) *)

(** At the loop head with the whole keyboard as bound: lines that are
    neither "1" nor "2" are skipped with one re-prompt each. *)
Lemma reprompt_skips (invalid : list str) :
  forall (usr_input valid : str) (rest : list key_event) (s : State),
    in_1_2 usr_input = false ->
    Forall (fun l => in_1_2 l = false) invalid ->
    in_1_2 valid = true ->
    keyboard (world s) = map Line invalid ++ Line valid :: rest ->
    exists s',
      reprompt (keyboard (world s)) usr_input s = (Ret valid, s')
      /\ self s' = self s
      /\ keyboard (world s') = rest
      /\ trace (world s')
         = trace (world s) ++ repeat (EInput choice_reprompt) (S (length invalid)).
Proof.
  induction invalid as [|l invalid IH];
    intros usr_input valid rest [c [conns kb ex sl sk tr]] Hu Hinv Hv Hk;
    cbn [world keyboard map app] in Hk; subst kb;
    cbn [world keyboard reprompt]; rewrite Hu; cbn [negb].
  - unfold bind, input. cbn [self world log keyboard set_keyboard].
    destruct rest; cbn [reprompt]; rewrite Hv; cbn [negb];
      eexists; (split; [reflexivity|]); repeat split.
  - inversion Hinv as [|? ? Hl Hinv']; subst.
    unfold bind, input. cbn [self world log keyboard set_keyboard].
    match goal with
    | |- context [reprompt _ l ?s1] =>
      destruct (IH l valid rest s1 Hl Hinv' Hv eq_refl)
        as (s' & E & Hself & Hkb & Ht)
    end.
    exists s'. split; [exact E|]. split; [exact Hself|]. split; [exact Hkb|].
    rewrite Ht. cbn [world trace repeat length set_keyboard log].
    now rewrite <- app_assoc.
Qed.

(** Whatever the loop returns is "1" or "2". *)
Lemma reprompt_returns_choice (pending : list key_event) :
  forall (usr_input v : str) (s s' : State),
    keyboard (world s) = pending ->
    reprompt pending usr_input s = (Ret v, s') ->
    in_1_2 v = true.
Proof.
  induction pending as [|k pending IH];
    intros usr_input v [c [conns kb ex sl sk tr]] s' Hk; cbn [world keyboard] in Hk;
    subst kb; cbn [reprompt];
    destruct (in_1_2 usr_input) eqn:Hu; cbn [negb]; intros E;
    try (injection E as <- _; exact Hu).
  - discriminate.
  - unfold bind, input in E. cbn [self world log keyboard set_keyboard] in E.
    destruct k as [l|]; [|discriminate].
    eapply IH; [|exact E]. reflexivity.
Qed.

(** X6: The choice: a first prompt, one re-prompt per line that is neither "1"
    nor "2", and the first line that is one of them is returned; nothing
    else is ever returned; at the end of the keyboard the call raises
    [EOFError]. *)
Theorem end_game_option_spec (s : State) :
  (forall invalid valid rest,
     Forall (fun l => in_1_2 l = false) invalid ->
     in_1_2 valid = true ->
     keyboard (world s) = map Line invalid ++ Line valid :: rest ->
     exists s',
       __get_user_end_game_option s = (Ret valid, s')
       /\ self s' = self s
       /\ keyboard (world s') = rest
       /\ new_events s s'
          = EInput choice_prompt :: repeat (EInput choice_reprompt) (length invalid))
  /\ (forall v s', __get_user_end_game_option s = (Ret v, s') ->
        v = lit "1" \/ v = lit "2")
  /\ (keyboard (world s) = [] ->
      fst (__get_user_end_game_option s) = Raise EOFError_).
Proof.
  destruct s as [c [conns kb ex sl sk tr]].
  unfold __get_user_end_game_option, bind, input.
  cbn [self world log keyboard set_keyboard].
  split; [|split].
  - intros invalid valid rest Hinv Hv Hk. subst kb.
    destruct invalid as [|l invalid]; cbn [map app].
    + unfold set_keyboard, log.
      cbn [self world connections keyboard exchanges sleeps sockets trace].
      destruct rest; cbn [reprompt];
        rewrite Hv; cbn [negb]; eexists; (split; [reflexivity|]);
        repeat split; apply new_events_app; reflexivity.
    + inversion Hinv as [|? ? Hl Hinv']; subst.
      match goal with
      | |- context [reprompt _ l ?s1] =>
        destruct (reprompt_skips invalid l valid rest s1 Hl Hinv' Hv eq_refl)
          as (s' & E & Hself & Hkb & Ht)
      end.
      exists s'. split; [exact E|]. split; [exact Hself|]. split; [exact Hkb|].
      apply new_events_app. rewrite Ht.
      cbn [world trace repeat length set_keyboard log].
      now rewrite <- app_assoc.
  - intros v s' E.
    destruct kb as [|[l|] kb]; try discriminate.
    cbn [world keyboard] in E.
    apply reprompt_returns_choice in E; [|reflexivity].
    unfold in_1_2 in E. apply orb_true_iff in E.
    destruct E as [E|E]; apply str_eqb_eq in E; auto.
  - intros ->. reflexivity.
Qed.

Lemma end_game_option_spec_witness :
  exists s',
    __get_user_end_game_option
      (typing [Line (lit "x"); Line (lit ""); Line (lit "2"); Line (lit "1")]
         alice_playing)
    = (Ret (lit "2"), s')
    /\ keyboard (world s') = [Line (lit "1")].
Proof.
  destruct (proj1 (end_game_option_spec
                     (typing [Line (lit "x"); Line (lit ""); Line (lit "2");
                              Line (lit "1")] alice_playing))
              [lit "x"; lit ""] (lit "2") [Line (lit "1")])
    as (s' & E & _ & Hk & _).
  - repeat constructor.
  - reflexivity.
  - reflexivity.
  - exists s'. split; assumption.
Defined.

(** ** The reveal of the secret word (lines 356-371) *)

Lemma printed_app (a b : list event) : printed (a ++ b) = printed a ++ printed b.
Proof. unfold printed. apply flat_map_app. Qed.

Lemma reveal_events_printed (hidden : str) : forall shown,
  printed (reveal_events shown hidden)
  = map (fun i => shown ++ partly_revealed hidden (S i)) (seq 0 (length hidden)).
Proof.
  induction hidden as [|char rest IH]; intros shown; [reflexivity|].
  cbn [reveal_events length seq map]. rewrite printed_app, IH.
  cbn [printed flat_map app]. f_equal.
  - unfold partly_revealed. cbn [firstn length Nat.sub].
    rewrite Nat.sub_0_r, <- app_assoc. reflexivity.
  - rewrite <- seq_shift, map_map. apply map_ext. intros i.
    unfold partly_revealed. cbn [firstn length Nat.sub].
    rewrite <- app_assoc. reflexivity.
Qed.

Lemma reveal_events_sleeps (hidden : str) : forall shown,
  count is_sleep (reveal_events shown hidden) = length hidden
  /\ Forall (fun e => is_sleep e = true -> e = ESleep 1) (reveal_events shown hidden).
Proof.
  induction hidden as [|char rest IH]; intros shown; cbn [reveal_events].
  - split; [reflexivity | constructor].
  - destruct (IH (shown ++ [char])) as (H1 & H2).
    rewrite count_app, H1. split; [reflexivity|].
    apply Forall_app. split; [|exact H2]. repeat constructor. discriminate.
Qed.

Lemma times_length (k : nat) : length (times (lit "_") k) = k.
Proof.
  unfold times. induction k as [|k IH]; [reflexivity|].
  cbn [repeat concat]. rewrite length_app, IH. reflexivity.
Qed.

(** X7: The reveal of a word of [n] letters prints the announcement and then
    [n] lines of [n] characters, line [k] showing the first [k] letters
    followed by underscores, the last one the whole word, and waits one
    second after each line (when no wait is interrupted); for an absent
    word it raises [TypeError] before printing anything. *)
Theorem secret_word_animation_spec (s : State) :
  __secret_word_animation None s = (Raise TypeError_not_iterable, s)
  /\ forall word,
       (forall j, (j < length word)%nat -> nth j (sleeps (world s)) false = false) ->
       exists s',
         __secret_word_animation (Some word) s = (Ret tt, s')
         /\ self s' = self s
         /\ printed (new_events s s')
            = reveal_header
                :: map (fun k => partly_revealed word (S k)) (seq 0 (length word))
         /\ Forall (fun line => length line = length word)
                   (tl (printed (new_events s s')))
         /\ (word <> [] -> last (printed (new_events s s')) [] = word)
         /\ count is_sleep (new_events s s') = length word.
Proof.
  split; [reflexivity|]. intros word Hs.
  unfold __secret_word_animation, bind, print, modify_world.
  cbn [fst snd self world].
  match goal with
  | |- context [reveal [] word ?s1] =>
    destruct (reveal_runs word [] s1) as (s' & E & Hself & Ht & _)
  end.
  { intros j Hj. cbn [world log sleeps]. now apply Hs. }
  rewrite E. exists s'. split; [reflexivity|]. split; [exact Hself|].
  assert (T : trace (world s')
              = trace (world s) ++ EPrint reveal_header :: reveal_events [] word).
  { rewrite Ht. cbn [world log trace]. now rewrite <- app_assoc. }
  rewrite (new_events_app _ _ _ T).
  assert (P : printed (EPrint reveal_header :: reveal_events [] word)
              = reveal_header
                  :: map (fun k => partly_revealed word (S k)) (seq 0 (length word))).
  { change (EPrint reveal_header :: reveal_events [] word)
      with ([EPrint reveal_header] ++ reveal_events [] word).
    rewrite printed_app, reveal_events_printed. reflexivity. }
  rewrite P. split; [reflexivity|]. split; [|split].
  - cbn [tl]. apply Forall_forall. intros line Hin.
    apply in_map_iff in Hin. destruct Hin as (k & <- & Hk).
    apply in_seq in Hk. unfold partly_revealed.
    rewrite length_app, times_length, length_firstn. lia.
  - intros Hw. destruct word as [|c word]; [contradiction|].
    cbn [length]. rewrite seq_S, map_app. cbn [map Nat.add].
    rewrite app_comm_cons, last_last.
    unfold partly_revealed. rewrite Nat.sub_diag.
    change (S (length word)) with (length (c :: word)).
    rewrite firstn_all. apply app_nil_r.
  - change (EPrint reveal_header :: reveal_events [] word)
      with ([EPrint reveal_header] ++ reveal_events [] word).
    rewrite count_app. destruct (reveal_events_sleeps word []) as (H1 & _).
    rewrite H1. reflexivity.
Qed.

Lemma secret_word_animation_spec_witness :
  exists s',
    __secret_word_animation (Some (lit "sol")) alice_playing = (Ret tt, s')
    /\ printed (new_events alice_playing s')
       = [reveal_header; lit "s__"; lit "so_"; lit "sol"].
Proof.
  destruct (proj2 (secret_word_animation_spec alice_playing) (lit "sol"))
    as (s' & E & _ & P & _).
  - intros j _. now destruct j.
  - exists s'. split; [exact E|]. rewrite P. reflexivity.
Defined.

(** ** After the choice (lines 501-509, 519-527, 278-294) *)

Lemma reprompt_valid (pending : list key_event) (usr_input : str) :
  in_1_2 usr_input = true -> reprompt pending usr_input = ret usr_input.
Proof. intros H. destruct pending; cbn [reprompt]; rewrite H; reflexivity. Qed.

(** X8: Choosing "2" at the end of a round: the status becomes
    [GAME_FINISHED], the farewell is printed, the socket is closed and the
    process exits with status 0; no request is sent. *)
Theorem quitting_at_end_of_round (s : State) (sk : socket) (rest : list key_event) :
  __sock (self s) = Some sk ->
  keyboard (world s) = Line (lit "2") :: rest ->
  exists s',
    end_of_round s = (Raise (SystemExit_ 0), s')
    /\ self s' = set_game_status GAME_FINISHED (self s)
    /\ keyboard (world s') = rest
    /\ new_events s s'
       = [EPrint end_of_round_message; EInput choice_prompt;
          EPrint (goodbye_message (__user_name (self s))); EClose sk].
Proof.
  destruct s as [c [conns kb ex sl k tr]]. cbn [self world keyboard].
  intros Hs ->.
  unfold end_of_round, __print_end_game_message, __get_user_end_game_option.
  unfold bind at 1. unfold print at 1, modify_world at 1. cbv beta iota.
  unfold bind at 1. unfold bind at 1. unfold input at 1.
  cbn [self world log keyboard].
  rewrite reprompt_valid by reflexivity. unfold ret at 1. cbv beta iota.
  unfold __check_exit_game.
  change (str_eqb (lit "2") (lit "1")) with false. cbv beta iota.
  unfold __print_goodbye_message, close, sys_exit.
  unfold bind, modify_self, get_self, ret, raise.
  cbn [fst snd self world]. unfold set_game_status at 1 2.
  cbn [__sock __user_name]. rewrite Hs. unfold print, modify_world. cbn [fst snd self world].
  eexists. split; [reflexivity|].
  split; [cbn [self]; unfold set_game_status; now rewrite Hs|].
  split; [reflexivity|].
  apply new_events_app. cbn [world trace log set_keyboard].
  unfold end_of_round_message, choice_prompt, goodbye_message.
  now rewrite <- !app_assoc.
Qed.

Lemma quitting_at_end_of_round_witness :
  exists s',
    end_of_round (typing [Line (lit "2")] alice_playing)
    = (Raise (SystemExit_ 0), s')
    /\ __game_status (self s') = GAME_FINISHED.
Proof.
  destruct (quitting_at_end_of_round (typing [Line (lit "2")] alice_playing)
              0%nat [] eq_refl eq_refl) as (s' & E & Hs & _).
  exists s'. split; [exact E|]. now rewrite Hs.
Defined.



(** ** A correct guess (lines 498-509, 412-415) *)

Lemma return_attempts_integer (n : Z) (s : State) :
  __return_attempts (Some n) s = (Ret (attempts_line n s), s).
Proof.
  unfold __return_attempts, attempts_line, attempts_left, attempts_so_far.
  destruct (n >=? 0); reflexivity.
Qed.

(** The rendering of status 202 up to the score table. *)
Lemma render_response_202 (n : Z) (rs : list (str * number)) (ts : number)
    (s : State) :
  __render_response 202
    {| Kwargs.remaining_attempts := Some n;
       Kwargs.format_output := None; Kwargs.secret_word := None;
       Kwargs.player_name := None;
       Kwargs.rounds_scores := Some rs;
       Kwargs.total_score := Some ts |} s
  = (__render_score_table (Some rs) (Some ts) ;;
     modify_self (fun c => set_words_stack (LinkedStack.clear (__words_stack c)) c))
      (emit [EPrint (win_message (__words_stack (self s)) (attempts_line n s))] s).
Proof.
  unfold __render_response, __handle_successful_cases.
  cbn [Z.eqb Pos.eqb Z.leb Z.ltb Z.compare Pos.compare Pos.compare_cont andb
       Kwargs.remaining_attempts Kwargs.rounds_scores Kwargs.total_score].
  unfold bind at 1. unfold get_self at 1. cbv beta iota.
  unfold bind at 1. rewrite return_attempts_integer.
  unfold bind at 1. reflexivity.
Qed.

(** X10: Status 202.  A response without [rounds_scores] or [total_score]
    raises [KeyError], and one without [remaining_attempts] raises
    [TypeError]: in all three cases nothing is printed, the word history is
    kept and no choice is presented.  With the three fields present the
    client prints the congratulation with the history and the attempts
    line; then, when the score table takes the round labels, it prints the
    table, clears the history and presents the end-of-round choice, and
    when the table has another number of columns it raises [ValueError]:
    no table is printed, the history is kept and no choice is presented. *)
Theorem correct_guess_spec (response_data : Response.t)
    (parameter : option str) (s : State) :
  (Response.rounds_scores response_data = None ->
     __handle_response_status 202 response_data parameter s
     = (Raise (KeyError_ "rounds_scores"), s))
  /\ (forall rs,
        Response.rounds_scores response_data = Some rs ->
        (Response.total_score response_data = None ->
           __handle_response_status 202 response_data parameter s
           = (Raise (KeyError_ "total_score"), s))
        /\ (forall ts,
              Response.total_score response_data = Some ts ->
              (Response.remaining_attempts response_data = None ->
                 __handle_response_status 202 response_data parameter s
                 = (Raise TypeError_ge_None, s))
              /\ (forall n,
                    Response.remaining_attempts response_data = Some n ->
                    (labels_accepted (__scores_table (self s)) rs ->
                     __handle_response_status 202 response_data parameter s
                     = end_of_round
                         (emit [EPrint (win_message (__words_stack (self s))
                                          (attempts_line n s));
                                EPrint (lit "");
                                EPrintTable
                                  (score_table (__user_name (self s)) rs (Some ts))]
                               (with_scores_table
                                  (score_table (__user_name (self s)) rs (Some ts))
                                  (with_history [] s))))
                    /\ (field_names (__scores_table (self s)) <> [] ->
                        length rs <> length (field_names (__scores_table (self s))) ->
                        __handle_response_status 202 response_data parameter s
                        = (Raise (wrong_label_count (length rs)
                                    (length (field_names (__scores_table (self s))))),
                           emit [EPrint (win_message (__words_stack (self s))
                                           (attempts_line n s))]
                                (with_scores_table
                                   (retitled (__user_name (self s))
                                      (__scores_table (self s))) s)))))).
Proof.
  unfold __handle_response_status. cbn [Z.eqb Pos.eqb].
  split; [intros ->; reflexivity|].
  intros rs ->. split; [intros ->; reflexivity|].
  intros ts ->. split; [intros ->; reflexivity|].
  intros n ->.
  cbn [getitem].
  split.
  - intros Hacc.
    unfold bind at 1. unfold ret at 1. cbv beta iota.
    unfold bind at 1. unfold ret at 1. cbv beta iota.
    unfold bind at 1. rewrite render_response_202.
    unfold bind at 1.
    rewrite render_score_table_accepted by exact Hacc.
    reflexivity.
  - intros Hn Hl.
    unfold bind at 1. unfold ret at 1. cbv beta iota.
    unfold bind at 1. unfold ret at 1. cbv beta iota.
    unfold bind at 1. rewrite render_response_202.
    unfold bind at 1.
    rewrite render_score_table_rejected by assumption.
    reflexivity.
Qed.

Lemma correct_guess_spec_witness :
  __handle_response_status 202
    (Response.Build (Some 202) None None None (Some []) (Some (PyInt 0))) None
    (pushed (Some (lit "guess")) alice_playing)
  = (Raise TypeError_ge_None, pushed (Some (lit "guess")) alice_playing)
  /\ fst (__handle_response_status 202
            (Response.Build (Some 202) (Some 3) None None
               (Some [(lit "Rodada 1", PyInt 10)]) (Some (PyInt 10))) None
            alice_after_a_round)
     = Raise (wrong_label_count 1 2).
Proof.
  split.
  - destruct (correct_guess_spec
                (Response.Build (Some 202) None None None (Some [])
                   (Some (PyInt 0))) None
                (pushed (Some (lit "guess")) alice_playing)) as (_ & H).
    destruct (H [] eq_refl) as (_ & H').
    destruct (H' (PyInt 0) eq_refl) as (Ha & _).
    apply Ha. reflexivity.
  - destruct (correct_guess_spec
                (Response.Build (Some 202) (Some 3) None None
                   (Some [(lit "Rodada 1", PyInt 10)]) (Some (PyInt 10))) None
                alice_after_a_round) as (_ & H).
    destruct (H _ eq_refl) as (_ & H').
    destruct (H' _ eq_refl) as (_ & Hn).
    destruct (Hn 3 eq_refl) as (_ & Hrej).
    rewrite Hrej; [reflexivity | cbn; discriminate | cbn; lia].
Defined.

(** ** A turn of the interaction loop (lines 554-578) *)

Lemma turn_opens (s : State) :
  (__render_menu_table ;; __print_exit_message) s
  = (Ret tt, emit (turn_opening s) s).
Proof.
  destruct s as [c w].
  unfold turn_opening, menu_table, exit_hint, __render_menu_table,
    __print_exit_message, bind, get_self, print, print_table, modify_world, emit.
  cbn [fst snd self world fold_left].
  destruct (__game_status c); reflexivity.
Qed.

(** The opening of a turn always succeeds. *)
Lemma turn_then {A} (k : M A) (s : State) :
  (__render_menu_table ;; __print_exit_message ;; k) s
  = k (emit (turn_opening s) s).
Proof.
  pose proof (turn_opens s) as E. unfold bind in E |- *.
  destruct (__render_menu_table s) as [[[]|e] s1]; [|discriminate].
  destruct (__print_exit_message s1) as [[[]|e] s2]; [|discriminate].
  injection E as ->. reflexivity.
Qed.

(** X11: A command the interpreter rejects costs one turn: the error message is
    printed, nothing is sent, and the client is left as it was. *)
Theorem rejected_command_turn (str_lower : str -> str) (s : State)
    (user_cmd : str) (rest : list key_event) :
  keyboard (world s) = Line user_cmd :: rest ->
  user_cmd <> lit "1" -> user_cmd <> lit "2" ->
  __game_status (self s) <> GAME_IN_PROGRESS
  \/ (user_cmd <> lit "3" /\ user_cmd <> lit "4" /\ user_cmd <> lit "5") ->
  exists s',
    loop_body str_lower s = (Ret tt, s')
    /\ self s' = self s
    /\ keyboard (world s') = rest
    /\ exchanges (world s') = exchanges (world s)
    /\ new_events s s'
       = turn_opening s
           ++ [EInput command_prompt; EPrint (lit "Comando inválido: " ++ user_cmd)].
Proof.
  intros Hk H1 H2 H.
  assert (P : forall s0, self s0 = self s ->
                __process_user_command str_lower user_cmd s0
                = (Raise (InvalidCommand user_cmd), s0)).
  { intros s0 Hs0. unfold __process_user_command, bind, get_self.
    cbn [fst snd]. rewrite Hs0.
    rewrite (str_eqb_neq _ _ H1), (str_eqb_neq _ _ H2).
    destruct H as [G | (H3 & H4 & H5)].
    - destruct (__game_status (self s)); [| contradiction |];
        cbn [GameStatus_eqb]; rewrite !andb_false_r; reflexivity.
    - rewrite (str_eqb_neq _ _ H3), (str_eqb_neq _ _ H4), (str_eqb_neq _ _ H5).
      reflexivity. }
  destruct s as [c [conns kb ex sl sk tr]]. cbn [world keyboard] in Hk. subst kb.
  unfold loop_body, try_except.
  rewrite turn_then.
  unfold __get_user_command. unfold bind at 1. unfold input at 1.
  match goal with
  | |- context [emit ?es ?s0] =>
    destruct (emit_trace es s0) as (Ht & Hself & _ & Hkb & Hex & _);
    set (s1 := emit es s0) in *
  end.
  cbn [self world keyboard exchanges trace] in Ht, Hself, Hkb, Hex.
  unfold log, set_keyboard.
  cbn [self world connections keyboard exchanges sleeps sockets trace].
  rewrite Hkb.
  unfold bind at 1.
  match goal with
  | |- context [__process_user_command str_lower user_cmd ?s2] =>
    rewrite (P s2) by (cbn [self]; exact Hself)
  end.
  cbv beta iota.
  change (isinstance (InvalidCommand user_cmd) KeyboardInterrupt) with false.
  change (isinstance (InvalidCommand user_cmd) ValueError) with true.
  cbv beta iota. unfold print, modify_world, log. cbn [self world].
  eexists. split; [reflexivity|]. cbn [self world].
  split; [exact Hself|]. split; [reflexivity|].
  split; [cbn [exchanges]; exact Hex|].
  apply new_events_app.
  cbn [connections keyboard exchanges sleeps sockets trace world]. rewrite Ht.
  unfold command_prompt, InvalidCommand. cbn [exn_msg].
  now rewrite <- !app_assoc.
Qed.

Lemma rejected_command_turn_witness :
  exists s',
    loop_body ascii_lower
      (typing [Line (lit "3")] (named (lit "alice") fresh_state))
    = (Ret tt, s')
    /\ self s' = self (named (lit "alice") fresh_state)
    /\ last (trace (world s')) (EPrint []) = EPrint (lit "Comando inválido: 3").
Proof.
  destruct (rejected_command_turn ascii_lower
              (typing [Line (lit "3")] (named (lit "alice") fresh_state))
              (lit "3") []) as (s' & E & Hs & _ & _ & _).
  - reflexivity.
  - vm_compute. discriminate.
  - vm_compute. discriminate.
  - left. discriminate.
  - exists s'. split; [exact E|]. split; [exact Hs|].
    vm_compute in E. injection E as <-. vm_compute. reflexivity.
Defined.

(** X12: Ctrl-C at the command prompt ends the session: the farewell is
    printed, the socket is closed and the process exits with status 0. *)
Theorem interrupted_turn (str_lower : str -> str) (s : State) (sk : socket)
    (rest : list key_event) :
  keyboard (world s) = CtrlC :: rest ->
  __sock (self s) = Some sk ->
  exists s',
    loop_body str_lower s = (Raise (SystemExit_ 0), s')
    /\ self s' = self s
    /\ new_events s s'
       = turn_opening s
           ++ [EInput command_prompt;
               EPrint (interrupt_goodbye (__user_name (self s)));
               EClose sk].
Proof.
  intros Hk Hsk.
  destruct s as [c [conns kb ex sl k tr]]. cbn [world keyboard] in Hk. subst kb.
  cbn [self] in Hsk.
  unfold loop_body, try_except.
  rewrite turn_then.
  unfold __get_user_command. unfold bind at 1. unfold input at 1.
  match goal with
  | |- context [emit ?es ?s0] =>
    destruct (emit_trace es s0) as (Ht & Hself & _ & Hkb & Hex & _);
    set (s1 := emit es s0) in *
  end.
  cbn [self world keyboard exchanges trace] in Ht, Hself, Hkb, Hex.
  unfold log, set_keyboard.
  cbn [self world connections keyboard exchanges sleeps sockets trace].
  rewrite Hkb.
  change (isinstance KeyboardInterrupt_ KeyboardInterrupt) with true.
  cbv beta iota.
  unfold __handle_keyboard_interrupt, close, sys_exit.
  unfold bind, get_self, print, modify_world, raise, log.
  cbn [fst snd self world]. rewrite Hself, Hsk.
  cbn [fst snd self world connections keyboard exchanges sleeps sockets trace].
  eexists. split; [reflexivity|]. cbn [self world].
  split; [exact Hself|].
  apply new_events_app.
  cbn [connections keyboard exchanges sleeps sockets trace world]. rewrite Ht.
  unfold command_prompt, interrupt_goodbye.
  now rewrite <- !app_assoc.
Qed.

Lemma interrupted_turn_witness :
  exists s',
    loop_body ascii_lower (typing [CtrlC] alice_playing)
    = (Raise (SystemExit_ 0), s')
    /\ last (trace (world s')) (EPrint []) = EClose 0%nat.
Proof.
  destruct (interrupted_turn ascii_lower (typing [CtrlC] alice_playing) 0%nat []
              eq_refl eq_refl) as (s' & E & _ & _).
  exists s'. split; [exact E|].
  vm_compute in E. injection E as <-. vm_compute. reflexivity.
Defined.

(** ** Connection failures at start-up (lines 37-64, 549-582) *)

Lemma connect_attempts_interrupted (n : nat) (s : State) :
  nth 0 (connections (world s)) false = false ->
  nth 0 (sleeps (world s)) false = true ->
  exists s',
    connect_attempts (S n) s = (Raise (SystemExit_ 0), s')
    /\ self s' = self s
    /\ keyboard (world s') = keyboard (world s)
    /\ trace (world s')
       = trace (world s)
           ++ [EConnect (sockets (world s)) (__HOST (self s)) (__PORT (self s));
               EPrint retry_notice; ESleep 5; EPrint closing_notice].
Proof.
  destruct s as [c [conns kb ex sl sk tr]]. cbn [world connections sleeps nth self].
  intros Hc Hs.
  destruct conns as [|[] conns]; try discriminate;
    destruct sl as [|[] sl]; try discriminate;
    (eexists; split; [reflexivity|]; split; [reflexivity|]; split; [reflexivity|];
     cbn [world trace set_sleeps log set_connections set_sockets];
     now rewrite <- !app_assoc).
Qed.

(** X13: Ctrl-C during the wait that follows a refused attempt: the client
    prints the closing notice and exits with status 0 without trying
    again. *)
Theorem connect_interrupted (s : State) (k : nat) :
  (k < 5)%nat ->
  (forall j, (j <= k)%nat -> nth j (connections (world s)) false = false) ->
  (forall j, (j < k)%nat -> nth j (sleeps (world s)) false = false) ->
  nth k (sleeps (world s)) false = true ->
  exists s',
    __connect_to_server s = (Raise (SystemExit_ 0), s')
    /\ new_events s s'
       = refusal_events (__HOST (self s)) (__PORT (self s)) (sockets (world s)) k
           ++ [EConnect (sockets (world s) + k)%nat (__HOST (self s))
                        (__PORT (self s));
               EPrint retry_notice; ESleep 5; EPrint closing_notice]
    /\ count is_connect (new_events s s') = S k.
Proof.
  intros Hk Hc Hs Hi. unfold __connect_to_server.
  replace 5%nat with (k + S (4 - k))%nat by lia.
  rewrite (connect_attempts_refusals k _ s) by (intros; auto with arith).
  destruct (after_refusals_state k s) as (Hself & Hconn & Hsl & Hsk & _ & _ & Ht).
  destruct (connect_attempts_interrupted (4 - k) (after_refusals k s))
    as (s' & E & _ & _ & Ht').
  { rewrite Hconn, nth_skipn, Nat.add_0_r. apply Hc. lia. }
  { rewrite Hsl, nth_skipn, Nat.add_0_r. exact Hi. }
  exists s'. split; [exact E|].
  assert (T : trace (world s')
              = trace (world s)
                  ++ refusal_events (__HOST (self s)) (__PORT (self s))
                       (sockets (world s)) k
                  ++ [EConnect (sockets (world s) + k)%nat (__HOST (self s))
                               (__PORT (self s));
                      EPrint retry_notice; ESleep 5; EPrint closing_notice]).
  { rewrite Ht', Ht, Hself, Hsk. now rewrite <- app_assoc. }
  rewrite (new_events_app _ _ _ T). split; [reflexivity|].
  rewrite count_app.
  destruct (refusal_events_count (__HOST (self s)) (__PORT (self s)) k
              (sockets (world s))) as (H1 & _).
  rewrite H1. cbn. lia.
Qed.

Lemma connect_interrupted_witness :
  exists s',
    __connect_to_server
      {| self := self fresh_state;
         world := set_sleeps [false; true] (world fresh_state) |}
    = (Raise (SystemExit_ 0), s')
    /\ count is_connect
         (new_events
            {| self := self fresh_state;
               world := set_sleeps [false; true] (world fresh_state) |} s')
       = 2%nat.
Proof.
  destruct (connect_interrupted
              {| self := self fresh_state;
                 world := set_sleeps [false; true] (world fresh_state) |} 1%nat)
    as (s' & E & _ & Hc).
  - lia.
  - intros j _. now destruct j as [|[|j]].
  - intros j Hj. destruct j as [|j]; [reflexivity | lia].
  - reflexivity.
  - exists s'. split; assumption.
Defined.

(** X14: A server that refuses the five attempts: [run] prints the advice to
    restart the client and returns; it never asks for the name, and the
    client is left unconnected as it was. *)
Theorem run_without_server (str_lower : str -> str) (turns : nat) (s : State) :
  (forall j, (j < 5)%nat -> nth j (connections (world s)) false = false) ->
  (forall j, (j < 5)%nat -> nth j (sleeps (world s)) false = false) ->
  exists s',
    run str_lower turns s = (Ret tt, s')
    /\ self s' = self s
    /\ keyboard (world s') = keyboard (world s)
    /\ new_events s s'
       = refusal_events (__HOST (self s)) (__PORT (self s)) (sockets (world s)) 5
           ++ [EPrint restart_the_client].
Proof.
  intros Hc Hs. unfold run, try_except. unfold bind at 1.
  unfold __connect_to_server.
  pose proof (connect_attempts_refusals 5 0 s Hc Hs) as E.
  cbn [Nat.add] in E. rewrite E. clear E.
  destruct (after_refusals_state 5 s) as (Hself & _ & _ & _ & Hkb & _ & Ht).
  generalize dependent (after_refusals 5 s). intros s5 Hself Hkb Ht.
  cbn [connect_attempts]. unfold raise at 1. cbv beta iota.
  change (is_Exception (Exn OSError
            (lit "Não foi possível conectar ao servidor. Tente reiniciar o cliente.")))
    with true.
  cbv beta iota. unfold print, modify_world. cbn [exn_msg].
  eexists. split; [reflexivity|]. cbn [self world]. unfold log.
  cbn [connections keyboard exchanges sleeps sockets trace].
  split; [exact Hself|]. split; [exact Hkb|].
  apply new_events_app. cbn [world trace]. rewrite Ht.
  unfold restart_the_client. rewrite <- app_assoc. reflexivity.
Qed.

Lemma run_without_server_witness :
  exists s',
    run ascii_lower 7 fresh_state = (Ret tt, s')
    /\ last (trace (world s')) (EPrint []) = EPrint restart_the_client.
Proof.
  destruct (run_without_server ascii_lower 7 fresh_state) as (s' & E & _ & _ & Hn).
  - intros j _. now destruct j as [|[|[|[|[|j]]]]].
  - intros j _. now destruct j as [|[|[|[|[|j]]]]].
  - exists s'. split; [exact E|].
    vm_compute in E. injection E as <-. vm_compute. reflexivity.
Defined.

(** ** Reading a coloured guess back (lines 331-354) *)

Lemma uncoloured_block (items : Z) (letter : N) (rest : str) :
  uncoloured (colour items letter ++ rest) = letter :: uncoloured rest
  /\ colour_classes (colour items letter ++ rest)
     = shown_class items :: colour_classes rest.
Proof.
  unfold colour, shown_class.
  destruct (items =? 2); [|destruct (items =? 1)]; split; reflexivity.
Qed.

Lemma uncoloured_blocks (word : str) (enc : list Z) (l : list nat) :
  uncoloured (concat (map (fun i => colour (nth i enc 0) (nth i word 0%N)) l))
  = map (fun i => nth i word 0%N) l
  /\ colour_classes
       (concat (map (fun i => colour (nth i enc 0) (nth i word 0%N)) l))
     = map (fun i => shown_class (nth i enc 0)) l.
Proof.
  induction l as [|i l [IH1 IH2]]; [split; reflexivity|].
  cbn [map concat].
  destruct (uncoloured_block (nth i enc 0) (nth i word 0%N)
              (concat (map (fun i => colour (nth i enc 0) (nth i word 0%N)) l)))
    as (H1 & H2).
  rewrite H1, H2, IH1, IH2. split; reflexivity.
Qed.

Lemma map_nth_seq {A} (l : list A) (d : A) (k : nat) :
  (k <= length l)%nat -> map (fun i => nth i l d) (seq 0 k) = firstn k l.
Proof.
  revert k. induction l as [|x l IH]; intros k Hk.
  - cbn in Hk. now replace k with 0%nat by lia.
  - destruct k as [|k]; [reflexivity|].
    cbn [seq map firstn nth]. f_equal.
    rewrite <- seq_shift, map_map. cbn [nth]. apply IH. cbn in Hk. lia.
Qed.

(** X15: Whenever [__format_output] returns a string, reading it back gives the
    letters of the word that were coloured and the classes of the
    encoding: ten characters per entry, the letter sixth, and the colour
    telling 2 from 1 from any other value. *)
Theorem format_output_reads_back (word : str) (enc : list Z) (output : str) :
  __format_output (Some word) (Some enc) = Ret (Some output) ->
  uncoloured output = firstn (length enc) word
  /\ colour_classes output = map shown_class enc
  /\ length output = (10 * length enc)%nat.
Proof.
  intros H.
  destruct word as [|c word]; [discriminate|].
  destruct enc as [|i enc]; [discriminate|].
  destruct (Nat.le_gt_cases (length (i :: enc)) (length (c :: word))) as [Hle|Hgt].
  2:{ rewrite format_output_overrun in H by (discriminate || exact Hgt).
      discriminate. }
  rewrite format_output_fits in H by (discriminate || exact Hle).
  injection H as <-.
  destruct (uncoloured_blocks (c :: word) (i :: enc) (seq 0 (length (i :: enc))))
    as (H1 & H2).
  unfold coloured at 1 2. rewrite H1, H2.
  split; [now apply map_nth_seq|]. split; [|apply coloured_length].
  transitivity (map shown_class
                  (map (fun k => nth k (i :: enc) 0) (seq 0 (length (i :: enc))))).
  - now rewrite map_map.
  - rewrite map_nth_seq by reflexivity. now rewrite firstn_all.
Qed.

Lemma format_output_reads_back_witness :
  exists output,
    __format_output (Some (lit "crane")) (Some [0; 1; 2; 7]) = Ret (Some output)
    /\ uncoloured output = lit "cran"
    /\ colour_classes output = [0; 1; 2; 0].
Proof.
  eexists. split; [vm_compute; reflexivity|].
  destruct (format_output_reads_back (lit "crane") [0; 1; 2; 7] _
              ltac:(vm_compute; reflexivity)) as (H1 & H2 & _).
  split; [exact H1 | exact H2].
Defined.

(** ** What can end the session *)

Lemma orderly_ret {A} (a : A) : orderly (ret a).
Proof. intros s. split; [reflexivity | discriminate]. Qed.

Lemma orderly_raise {A} (e : exn) : expected e -> orderly (@raise A e).
Proof. intros He s. split; [reflexivity|]. intros e' [= <-]. exact He. Qed.

Lemma orderly_lift {A} (r : outcome A) :
  (forall e, r = Raise e -> expected e) -> orderly (lift r).
Proof. intros H s. split; [reflexivity | exact H]. Qed.

Lemma orderly_bind {A B} (m : M A) (k : A -> M B) :
  orderly m -> (forall a, orderly (k a)) -> orderly (bind m k).
Proof.
  intros Hm Hk s. unfold bind. destruct (Hm s) as (H1 & H2).
  destruct (m s) as [[a|e] s1]; cbn [fst snd] in *.
  - destruct (Hk a s1) as (H3 & H4). split; [congruence | exact H4].
  - split; [exact H1|]. intros e' [= <-]. now apply H2.
Qed.

Lemma orderly_try_except {A} (m : M A) (h : exn -> option (M A)) :
  orderly m -> (forall e k, h e = Some k -> orderly k) ->
  orderly (try_except m h).
Proof.
  intros Hm Hh s. unfold try_except. destruct (Hm s) as (H1 & H2).
  destruct (m s) as [[a|e] s1]; cbn [fst snd] in *.
  - split; [exact H1 | discriminate].
  - destruct (h e) as [k|] eqn:E.
    + destruct (Hh e k E s1) as (H3 & H4). split; [congruence | exact H4].
    + split; [exact H1 | exact H2].
Qed.

Lemma orderly_world {A} (m : M A) :
  (forall s, self (snd (m s)) = self s) ->
  (forall s e, fst (m s) = Raise e -> expected e) ->
  orderly m.
Proof. intros H1 H2 s. split; [now rewrite H1 | apply H2]. Qed.

Ltac is_expected :=
  first [ left; reflexivity | right; left; reflexivity | right; right; reflexivity ].

Ltac world_effect :=
  apply orderly_world;
  [ intros [c [conns kb ex sl sk tr]];
    repeat match goal with
           | |- context [match ?x with _ => _ end] => destruct x
           end; reflexivity
  | intros [c [conns kb ex sl sk tr]] e;
    repeat match goal with
           | |- context [match ?x with _ => _ end] => destruct x
           end; cbn [fst]; intros [= <-]; is_expected ].

Lemma orderly_print text : orderly (print text).
Proof. unfold print, modify_world. world_effect. Qed.

Lemma orderly_print_table t : orderly (print_table t).
Proof. unfold print_table, modify_world. world_effect. Qed.

Lemma orderly_input prompt : orderly (input prompt).
Proof. unfold input. world_effect. Qed.

Lemma orderly_sleep secs : orderly (sleep secs).
Proof. unfold sleep. world_effect. Qed.

Lemma orderly_sendall sock body : orderly (sendall sock body).
Proof. unfold sendall. destruct sock; world_effect. Qed.

Lemma orderly_recv sock bufsize : orderly (recv sock bufsize).
Proof. unfold recv. destruct sock; world_effect. Qed.

Lemma orderly_close sock : orderly (close sock).
Proof.
  unfold close. destruct sock; [unfold modify_world; world_effect|].
  apply orderly_raise. is_expected.
Qed.

Lemma orderly_socket_connect host port : orderly (socket_connect host port).
Proof. unfold socket_connect. world_effect. Qed.

Lemma orderly_get_self : orderly get_self.
Proof. intros s. split; [reflexivity | discriminate]. Qed.

Lemma orderly_getitem {A} key (field : option A) : orderly (getitem key field).
Proof.
  destruct field; [apply orderly_ret | apply orderly_raise; is_expected].
Qed.

Lemma orderly_json_loads b : orderly (json_loads b).
Proof.
  destruct b; [apply orderly_ret | apply orderly_raise; is_expected].
Qed.

Lemma orderly_modify_self (f : Client -> Client) :
  (forall c, __sock (f c) = __sock c) -> orderly (modify_self f).
Proof. intros H s. split; [apply H | discriminate]. Qed.

Lemma format_loop_raises (word : str) (enc : list Z) :
  forall index output e,
    format_loop word index enc output = Raise e -> e = IndexError_str.
Proof.
  induction enc as [|items enc IH]; intros index output e; cbn [format_loop].
  - discriminate.
  - destruct (nth_error word index); [apply IH | now intros [= <-]].
Qed.

Lemma orderly_format_output word enc : orderly (lift (__format_output word enc)).
Proof.
  apply orderly_lift. intros e. unfold __format_output.
  destruct (truthy word && truthy enc); [|discriminate].
  destruct word as [w|]; [|discriminate]. destruct enc as [f|]; [|discriminate].
  destruct (format_loop w 0 f []) eqn:E; [discriminate|].
  intros [= <-]. apply format_loop_raises in E. subst. is_expected.
Qed.

Ltac orderly_step :=
  match goal with
  | |- orderly (bind _ _) => apply orderly_bind; [|intros ?]
  | |- orderly (ret _) => apply orderly_ret
  | |- orderly (raise _) => apply orderly_raise; is_expected
  | |- orderly (sys_exit _) => apply orderly_raise; is_expected
  | |- orderly get_self => apply orderly_get_self
  | |- orderly (getitem _ _) => apply orderly_getitem
  | |- orderly (json_loads _) => apply orderly_json_loads
  | |- orderly (print _) => apply orderly_print
  | |- orderly (print_table _) => apply orderly_print_table
  | |- orderly (input _) => apply orderly_input
  | |- orderly (sleep _) => apply orderly_sleep
  | |- orderly (sendall _ _) => apply orderly_sendall
  | |- orderly (recv _ _) => apply orderly_recv
  | |- orderly (close _) => apply orderly_close
  | |- orderly (socket_connect _ _) => apply orderly_socket_connect
  | |- orderly (lift (__format_output _ _)) => apply orderly_format_output
  | |- orderly (modify_self _) => apply orderly_modify_self; intros; reflexivity
  | |- orderly (if ?b then _ else _) => destruct b
  | |- orderly (match ?x with _ => _ end) => destruct x
  | H : _ |- _ => apply H
  end.

Ltac orderly_tac := repeat orderly_step.

Lemma orderly_return_attempts ra : orderly (__return_attempts ra).
Proof. unfold __return_attempts. orderly_tac. Qed.

(** The score table raises [ValueError] only. *)
Lemma set_field_names_raises val t e :
  PrettyTable.set_field_names val t = Raise e -> exn_cls e = ValueError.
Proof.
  unfold PrettyTable.set_field_names, PrettyTable.validate_field_names.
  repeat match goal with
         | |- context [if ?b then _ else _] => destruct b
         end;
    intros [= <-]; reflexivity.
Qed.

Lemma add_row_raises row t e :
  PrettyTable.add_row row t = Raise e -> exn_cls e = ValueError.
Proof.
  unfold PrettyTable.add_row.
  destruct (PrettyTable.nonempty (field_names t)
            && negb (length row =? length (field_names t))%nat);
    [intros [= <-]; reflexivity|].
  destruct (PrettyTable.nonempty (field_names t)); [discriminate|].
  match goal with
  | |- context [PrettyTable.set_field_names ?v t] =>
    pose proof (set_field_names_raises v t) as H;
    destruct (PrettyTable.set_field_names v t); [discriminate|]
  end.
  intros [= <-]. now apply H.
Qed.

Lemma add_column_raises fieldname column t e :
  PrettyTable.add_column fieldname column t = Raise e -> exn_cls e = ValueError.
Proof.
  unfold PrettyTable.add_column.
  destruct ((length (rows t) =? 0)%nat || (length (rows t) =? length column)%nat);
    [discriminate | intros [= <-]; reflexivity].
Qed.

Lemma orderly_update_scores_table (method : Table -> outcome Table) :
  (forall t e, method t = Raise e -> exn_cls e = ValueError) ->
  orderly (update_scores_table method).
Proof.
  intros H s. unfold update_scores_table.
  specialize (H (__scores_table (self s))).
  destruct (method (__scores_table (self s))) as [t|e]; cbn [fst snd self].
  - split; [reflexivity | discriminate].
  - split; [reflexivity|]. intros e' [= <-]. left.
    unfold is_Exception. now rewrite (H e eq_refl).
Qed.

Lemma orderly_render_score_table rs ts : orderly (__render_score_table rs ts).
Proof.
  unfold __render_score_table.
  pose proof (orderly_update_scores_table
                (fun t => Ret (PrettyTable.clear_rows t))
                ltac:(discriminate)) as H1.
  pose proof (fun v => orderly_update_scores_table
                (fun t => Ret (PrettyTable.set_title v t))
                ltac:(discriminate)) as H2.
  pose proof (fun v => orderly_update_scores_table
                (PrettyTable.set_field_names v) (set_field_names_raises v)) as H3.
  pose proof (fun v => orderly_update_scores_table
                (PrettyTable.add_row v) (add_row_raises v)) as H4.
  pose proof (fun n v => orderly_update_scores_table
                (PrettyTable.add_column n v) (add_column_raises n v)) as H5.
  orderly_tac.
Qed.

Lemma orderly_reveal (hidden : str) : forall shown, orderly (reveal shown hidden).
Proof.
  induction hidden as [|char rest IH]; intros shown; cbn [reveal]; orderly_tac.
Qed.

Lemma orderly_secret_word_animation word : orderly (__secret_word_animation word).
Proof.
  unfold __secret_word_animation. pose proof orderly_reveal. orderly_tac.
Qed.

Lemma orderly_render_response response_status extra_info :
  orderly (__render_response response_status extra_info).
Proof.
  unfold __render_response, __handle_successful_cases, __handle_error_cases.
  pose proof orderly_return_attempts.
  pose proof orderly_render_score_table.
  pose proof orderly_secret_word_animation.
  cbv zeta. orderly_tac.
Qed.

Lemma orderly_send_requisition req_body : orderly (__send_requisition req_body).
Proof. unfold __send_requisition. orderly_tac. Qed.

Lemma orderly_continue_attempts (n : nat) : orderly (continue_attempts n).
Proof.
  pose proof orderly_send_requisition. pose proof orderly_render_response.
  induction n as [|n IH]; cbn [continue_attempts]; [apply orderly_print|].
  apply orderly_bind.
  - apply orderly_try_except; [orderly_tac|].
    intros e k Hk.
    destruct (isinstance e OSError);
      [|destruct (isinstance e JSONDecodeError); [|discriminate]];
      injection Hk as <-; orderly_tac.
  - intros [|]; [apply orderly_ret | exact IH].
Qed.

Lemma orderly_reprompt (pending : list key_event) :
  forall usr_input, orderly (reprompt pending usr_input).
Proof.
  induction pending as [|k pending IH]; intros usr_input; cbn [reprompt];
    orderly_tac.
Qed.

Lemma orderly_end_of_round : orderly end_of_round.
Proof.
  unfold end_of_round, __print_end_game_message, __get_user_end_game_option,
    __check_exit_game, __print_goodbye_message, __game_continued_action.
  pose proof orderly_continue_attempts.
  apply orderly_bind; [apply orderly_print|intros _].
  apply orderly_bind.
  - apply orderly_bind; [apply orderly_input|intros usr_input].
    intros s. apply orderly_reprompt.
  - intros option. orderly_tac.
Qed.

Lemma orderly_handle_response_status response_status response_data parameter :
  orderly (__handle_response_status response_status response_data parameter).
Proof.
  unfold __handle_response_status.
  pose proof orderly_render_response. pose proof orderly_end_of_round.
  cbv zeta. orderly_tac.
Qed.

Lemma orderly_process_user_command str_lower user_command :
  orderly (__process_user_command str_lower user_command).
Proof. unfold __process_user_command. orderly_tac. Qed.

Lemma orderly_connect_attempts (n : nat) : orderly (connect_attempts n).
Proof.
  induction n as [|n IH]; cbn [connect_attempts]; [orderly_tac|].
  apply orderly_bind.
  - apply orderly_try_except; [orderly_tac|].
    intros e k Hk. destruct (isinstance e OSError); [|discriminate].
    injection Hk as <-.
    apply orderly_bind; [|intros _; apply orderly_ret].
    apply orderly_try_except; [orderly_tac|].
    intros e' k' Hk'. destruct (isinstance e' KeyboardInterrupt); [|discriminate].
    injection Hk' as <-. orderly_tac.
  - intros [sock|]; [apply orderly_ret | exact IH].
Qed.

Lemma orderly_turn (str_lower : str -> str) :
  orderly
    (__render_menu_table ;;
     __print_exit_message ;;
     user_cmd <- __get_user_command ;;
     cp <- __process_user_command str_lower user_cmd ;;
     response_data <- __send_requisition
                        (__create_request_body (fst cp) (snd cp)) ;;
     response_status <- getitem "status_code" (Response.status_code response_data) ;;
     __handle_response_status response_status response_data (snd cp)).
Proof.
  pose proof (orderly_process_user_command str_lower).
  pose proof orderly_send_requisition.
  pose proof orderly_handle_response_status.
  unfold __render_menu_table, __print_exit_message, __get_user_command.
  orderly_tac.
Qed.

(** The farewell of the interrupt handler, for a connected client. *)
Lemma handle_keyboard_interrupt_exits (s : State) (sk : socket) :
  __sock (self s) = Some sk ->
  fst (__handle_keyboard_interrupt s) = Raise (SystemExit_ 0)
  /\ __sock (self (snd (__handle_keyboard_interrupt s))) = Some sk.
Proof.
  intros Hs. unfold __handle_keyboard_interrupt, close, sys_exit.
  unfold bind, get_self, print, modify_world, raise. cbn [fst snd self world].
  rewrite Hs. cbn [fst snd self]. split; [reflexivity | exact Hs].
Qed.

(** The handlers of the loop body leave two outcomes to a connected
    client. *)
Lemma loop_body_outcome (str_lower : str -> str) (s : State) (sk : socket) :
  __sock (self s) = Some sk ->
  (fst (loop_body str_lower s) = Ret tt
   \/ fst (loop_body str_lower s) = Raise (SystemExit_ 0))
  /\ __sock (self (snd (loop_body str_lower s))) = Some sk.
Proof.
  intros Hs. unfold loop_body, try_except.
  destruct (orderly_turn str_lower s) as (Hsock & Hexc).
  match goal with
  | |- context [match ?b s with _ => _ end] => destruct (b s) as [[[]|e] s1]
  end; cbn [fst snd] in *.
  - split; [now left | congruence].
  - assert (Hs1 : __sock (self s1) = Some sk) by congruence.
    destruct (Hexc e eq_refl) as [He | [-> | ->]].
    + destruct e as [cls msg]. destruct cls; try discriminate;
        cbn [isinstance class_eqb exn_cls orb is_Exception fst snd];
        unfold print, modify_world; cbn [fst snd self];
        (split; [now left | exact Hs1]).
    + cbn. split; [now right | exact Hs1].
    + change (isinstance KeyboardInterrupt_ KeyboardInterrupt) with true.
      cbv beta iota.
      destruct (handle_keyboard_interrupt_exits s1 sk Hs1) as (H1 & H2).
      split; [now right | exact H2].
Qed.

(** X16: Once connected, a turn of the loop ends in one of two ways only: it
    returns, and the loop goes on, or the process exits with status 0; no
    other exception leaves the turn, whatever the keyboard and the server
    do, and the socket attribute is kept. *)
Theorem turn_returns_or_exits (str_lower : str -> str) (s : State) (sk : socket) :
  __sock (self s) = Some sk ->
  (fst (loop_body str_lower s) = Ret tt
   \/ fst (loop_body str_lower s) = Raise (SystemExit_ 0))
  /\ __sock (self (snd (loop_body str_lower s))) = Some sk.
Proof. exact (loop_body_outcome str_lower s sk). Qed.

Lemma turn_returns_or_exits_witness :
  fst (loop_body ascii_lower
         (answering [RecvFails (lit "reset")] (typing [Line (lit "1")] alice_playing)))
  = Ret tt
  \/ fst (loop_body ascii_lower
            (answering [RecvFails (lit "reset")]
               (typing [Line (lit "1")] alice_playing)))
     = Raise (SystemExit_ 0).
Proof.
  apply (turn_returns_or_exits ascii_lower
           (answering [RecvFails (lit "reset")] (typing [Line (lit "1")] alice_playing))
           0%nat).
  reflexivity.
Defined.

Lemma main_loop_returns_or_exits (str_lower : str -> str) (sk : socket)
    (turns : nat) : forall s,
  __sock (self s) = Some sk ->
  fst (main_loop str_lower turns s) = Ret tt
  \/ fst (main_loop str_lower turns s) = Raise (SystemExit_ 0).
Proof.
  induction turns as [|turns IH]; intros s Hs; cbn [main_loop]; [now left|].
  unfold bind.
  destruct (loop_body_outcome str_lower s sk Hs) as ([H|H] & Hsock);
    destruct (loop_body str_lower s) as [[[]|e] s1]; cbn [fst snd] in *;
    try discriminate.
  - now apply IH.
  - right. exact H.
Qed.

(** X17: A run of the client ends in one of three ways only: [run] returns,
    the process exits with status 0, or a keyboard interrupt leaves [run]
    unhandled. *)
Theorem run_ends (str_lower : str -> str) (turns : nat) (s : State) :
  fst (run str_lower turns s) = Ret tt
  \/ fst (run str_lower turns s) = Raise (SystemExit_ 0)
  \/ fst (run str_lower turns s) = Raise KeyboardInterrupt_.
Proof.
  assert (Hdl : forall (e : exn) (s0 : State),
            expected e ->
            let r := match (if is_Exception e then Some (print (exn_msg e)) else None)
                     with
                     | Some k => k s0
                     | None => (Raise e, s0)
                     end in
            fst r = Ret tt \/ fst r = Raise (SystemExit_ 0)
            \/ fst r = Raise KeyboardInterrupt_).
  { intros e s0 [He | [-> | ->]]; cbv zeta.
    - rewrite He. now left.
    - right. left. reflexivity.
    - right. right. reflexivity. }
  enough (G : forall r, r = run str_lower turns s ->
                fst r = Ret tt \/ fst r = Raise (SystemExit_ 0)
                \/ fst r = Raise KeyboardInterrupt_) by (apply G; reflexivity).
  intros r Hr.
  unfold run, try_except in Hr. unfold bind at 1 in Hr.
  destruct (orderly_connect_attempts 5 s) as (_ & Hc).
  unfold __connect_to_server in Hr.
  destruct (connect_attempts 5 s) as [[sock|e] s1]; cbn [fst] in Hc.
  2:{ subst r. apply Hdl. now apply Hc. }
  unfold bind at 1 in Hr. unfold modify_self at 1 in Hr. cbv beta iota in Hr.
  unfold bind at 1 in Hr.
  unfold __print_welcome_message, print at 1, modify_world at 1 in Hr.
  cbv beta iota in Hr. unfold bind at 1 in Hr. unfold __get_username in Hr.
  match type of Hr with
  | context [input ?p ?s2] =>
    destruct (orderly_input p s2) as (Hsk & Hi);
    destruct (input p s2) as [[name|e] s3]; cbn [fst snd self] in Hsk, Hi
  end.
  2:{ subst r. apply Hdl. now apply Hi. }
  unfold bind at 1 in Hr. unfold modify_self at 1 in Hr. cbv beta iota in Hr.
  match type of Hr with
  | context [main_loop str_lower turns ?s4] =>
    destruct (main_loop_returns_or_exits str_lower sock turns s4) as [H|H];
    [ cbn [self set_user_name __sock]; exact Hsk | | ];
    destruct (main_loop str_lower turns s4) as [[[]|e] s5]; cbn [fst] in H;
    try discriminate; subst r
  end.
  - now left.
  - injection H as ->. right. left. reflexivity.
Qed.

(** X18: Ctrl-C while the name is asked: the interrupt is caught by no
    handler and leaves [run]; no farewell is printed and the socket just
    opened is not closed. *)
Theorem interrupt_at_name_prompt (str_lower : str -> str) (turns : nat)
    (s : State) (rest : list key_event) :
  nth 0 (connections (world s)) false = true ->
  keyboard (world s) = CtrlC :: rest ->
  exists s',
    run str_lower turns s = (Raise KeyboardInterrupt_, s')
    /\ __sock (self s') = Some (sockets (world s))
    /\ new_events s s'
       = [EConnect (sockets (world s)) (__HOST (self s)) (__PORT (self s));
          EPrint welcome_banner; EInput name_prompt].
Proof.
  intros Hc Hk. unfold run, try_except. unfold bind at 1.
  unfold __connect_to_server. rewrite connect_attempts_accepted by exact Hc.
  destruct s as [c [conns kb ex sl sk tr]].
  cbn [world keyboard] in Hk. subst kb.
  unfold __print_welcome_message, __get_username.
  unfold bind, modify_self, print, modify_world, input.
  unfold set_connections, set_sockets, set_keyboard, log.
  cbn [fst snd self world connections keyboard exchanges sleeps sockets trace].
  eexists. split; [reflexivity|]. split; [reflexivity|].
  apply new_events_app. cbn [world trace].
  unfold welcome_banner, name_prompt. now rewrite <- !app_assoc.
Qed.

Lemma interrupt_at_name_prompt_witness :
  exists s',
    run ascii_lower 3
      {| self := self fresh_state;
         world := set_keyboard [CtrlC] (set_connections [true] (world fresh_state)) |}
    = (Raise KeyboardInterrupt_, s')
    /\ __sock (self s') = Some 0%nat.
Proof.
  destruct (interrupt_at_name_prompt ascii_lower 3
              {| self := self fresh_state;
                 world := set_keyboard [CtrlC]
                            (set_connections [true] (world fresh_state)) |}
              [] eq_refl eq_refl) as (s' & E & Hs & _).
  exists s'. split; assumption.
Defined.

(** ** One exchange (lines 154-173) *)

(** X19: For a connected client one call sends exactly one request and uses
    up one scripted exchange, leaving the client as it was; it returns the
    response exactly when the exchange is answered.  Without a socket it
    raises [AttributeError] and does nothing. *)
Theorem send_requisition_spec (req_body : Request.t) (s : State) :
  (__sock (self s) = None ->
     __send_requisition req_body s = (Raise (AttributeError_None "sendall"), s))
  /\ (forall sk,
        __sock (self s) = Some sk ->
        self (snd (__send_requisition req_body s)) = self s
        /\ sent (snd (__send_requisition req_body s)) = S (sent s)
        /\ exchanges (world (snd (__send_requisition req_body s)))
           = tl (exchanges (world s))
        /\ (forall r,
              fst (__send_requisition req_body s) = Ret r
              <-> hd_error (exchanges (world s)) = Some (Reply r))
        /\ (forall r,
              hd_error (exchanges (world s)) = Some (Reply r) ->
              new_events s (snd (__send_requisition req_body s))
              = [ESend sk req_body; ERecv sk (__MSG_SIZE (self s))])).
Proof.
  destruct s as [c [conns kb ex sl k tr]].
  unfold __send_requisition, get_self, sendall, recv, json_loads.
  unfold bind, ret, raise. cbn [fst snd self world].
  split.
  - intros ->. reflexivity.
  - intros sk ->.
    unfold sent, count, log, set_exchanges.
    destruct ex as [|[msg|msg|msg|r0] ex];
      cbn [fst snd self world connections keyboard exchanges sleeps sockets trace
           tl hd_error];
      rewrite ?filter_app, ?length_app; cbn [filter is_send length];
      (split; [reflexivity|]);
      (split; [generalize (length (filter is_send tr)); intros; lia|]);
      (split; [reflexivity|]);
      (split; [intros r; split; intros H; try discriminate; congruence|]);
      intros r H; try discriminate;
      apply new_events_app; cbn [world trace]; now rewrite <- app_assoc.
Qed.

Lemma send_requisition_spec_witness :
  fst (__send_requisition (__create_request_body (lit "list_words") None)
         (answering [Reply (bare_reply 204)] alice_playing))
  = Ret (bare_reply 204).
Proof.
  destruct (send_requisition_spec (__create_request_body (lit "list_words") None)
              (answering [Reply (bare_reply 204)] alice_playing)) as (_ & H).
  destruct (H 0%nat eq_refl) as (_ & _ & _ & Hr & _).
  apply Hr. reflexivity.
Defined.

(** ** Whole turns (lines 554-578) *)

(** X20: Starting a game: the command "1" sends [start_game] with the
    nickname; on the answer 200 the client prints the confirmation and the
    game is in progress. *)
Theorem start_game_turn (str_lower : str -> str) (s : State) (sk : socket)
    (rest : list key_event) (r : Response.t) (script : list exchange) :
  __sock (self s) = Some sk ->
  keyboard (world s) = Line (lit "1") :: rest ->
  exchanges (world s) = Reply r :: script ->
  Response.status_code r = Some 200 ->
  exists s',
    loop_body str_lower s = (Ret tt, s')
    /\ self s' = set_game_status GAME_IN_PROGRESS (self s)
    /\ keyboard (world s') = rest
    /\ exchanges (world s') = script
    /\ new_events s s'
       = turn_opening s
           ++ [EInput command_prompt;
               ESend sk (start_game (__user_name (self s)));
               ERecv sk (__MSG_SIZE (self s));
               EPrint (lit "Jogo Iniciado com Sucesso")].
Proof.
  intros Hsk Hk Hx Hst.
  destruct s as [c [conns kb ex sl k tr]].
  cbn [self world keyboard exchanges] in Hsk, Hk, Hx. subst kb ex.
  unfold loop_body, try_except.
  rewrite turn_then.
  match goal with
  | |- context [emit ?es ?s0] =>
    destruct (emit_trace es s0) as (Ht & Hself & _ & Hkb & Hex & _);
    generalize dependent (emit es s0); intros [c1 w1] Ht Hself Hkb Hex
  end.
  cbn [self world keyboard exchanges trace] in Ht, Hself, Hkb, Hex. subst c1.
  destruct w1 as [conns1 kb1 ex1 sl1 k1 tr1].
  cbn [keyboard exchanges trace] in Ht, Hkb, Hex. subst kb1 ex1 tr1.
  unfold __get_user_command, __process_user_command, __send_requisition,
    __create_request_body, __handle_response_status, get_self, sendall, recv,
    json_loads, getitem, input.
  unfold bind, ret. unfold log, set_keyboard, set_exchanges.
  cbn [fst snd self world connections keyboard exchanges sleeps sockets trace].
  change (str_eqb (lit "1") (lit "1")) with true. cbv beta iota.
  cbn [fst snd self world connections keyboard exchanges sleeps sockets trace].
  rewrite Hsk.
  cbn [fst snd self world connections keyboard exchanges sleeps sockets trace].
  rewrite Hst.
  cbn [fst snd self world connections keyboard exchanges sleeps sockets trace
       Z.eqb Pos.eqb].
  unfold __render_response, __handle_successful_cases, modify_self, print,
    modify_world, log.
  cbn [fst snd self world connections keyboard exchanges sleeps sockets trace
       Z.eqb Pos.eqb Z.leb Z.ltb Z.compare Pos.compare Pos.compare_cont andb].
  eexists. split; [reflexivity|]. split; [reflexivity|]. split; [reflexivity|].
  split; [reflexivity|].
  apply new_events_app. cbn [world trace].
  unfold command_prompt, start_game. now rewrite <- !app_assoc.
Qed.

Lemma start_game_turn_witness :
  exists s',
    loop_body ascii_lower
      (answering [Reply (bare_reply 200)]
         (typing [Line (lit "1")]
            (connected 0%nat (named (lit "alice") fresh_state))))
    = (Ret tt, s')
    /\ __game_status (self s') = GAME_IN_PROGRESS.
Proof.
  destruct (start_game_turn ascii_lower
              (answering [Reply (bare_reply 200)]
                 (typing [Line (lit "1")]
                    (connected 0%nat (named (lit "alice") fresh_state))))
              0%nat [] (bare_reply 200) [] eq_refl eq_refl eq_refl eq_refl)
    as (s' & E & Hs & _).
  exists s'. split; [exact E|]. now rewrite Hs.
Defined.

Lemma last_new_events (a b : State) (e d : event) (t : list event) :
  trace (world b) = t ++ [e] ->
  (exists before, t = trace (world a) ++ before) ->
  last (new_events a b) d = e.
Proof.
  intros Hb [before ->].
  rewrite (new_events_app a b (before ++ [e])) by (now rewrite Hb, app_assoc).
  apply last_last.
Qed.

(** X21: A failed exchange costs one turn: when the request of the command "1"
    or "2" cannot be written, or its answer cannot be read or decoded, the
    text of the error is printed, the turn returns, and the client is left
    as it was. *)
Theorem failed_exchange_turn (str_lower : str -> str) (s : State) (sk : socket)
    (user_cmd : str) (rest : list key_event) (x : exchange)
    (script : list exchange) :
  __sock (self s) = Some sk ->
  keyboard (world s) = Line user_cmd :: rest ->
  user_cmd = lit "1" \/ user_cmd = lit "2" ->
  exchanges (world s) = x :: script ->
  failed (Some x) = true ->
  exists s',
    loop_body str_lower s = (Ret tt, s')
    /\ self s' = self s
    /\ keyboard (world s') = rest
    /\ exchanges (world s') = script
    /\ last (new_events s s') (EPrint []) = EPrint (failure_text x).
Proof.
  intros Hsk Hk Hcmd Hx Hf.
  destruct s as [c [conns kb ex sl k tr]].
  cbn [self world keyboard exchanges] in Hsk, Hk, Hx. subst kb ex.
  unfold loop_body, try_except.
  rewrite turn_then.
  match goal with
  | |- context [emit ?es ?s0] =>
    destruct (emit_trace es s0) as (Ht & Hself & _ & Hkb & Hex & _);
    generalize dependent (emit es s0); intros [c1 w1] Ht Hself Hkb Hex
  end.
  cbn [self world keyboard exchanges trace] in Ht, Hself, Hkb, Hex. subst c1.
  destruct w1 as [conns1 kb1 ex1 sl1 k1 tr1].
  cbn [keyboard exchanges trace] in Ht, Hkb, Hex. subst kb1 ex1 tr1.
  unfold __get_user_command, __process_user_command, __send_requisition,
    __create_request_body, get_self, sendall, recv, json_loads, getitem, input.
  unfold bind, ret. unfold log, set_keyboard, set_exchanges.
  cbn [fst snd self world connections keyboard exchanges sleeps sockets trace].
  destruct Hcmd as [-> | ->];
    [ change (str_eqb (lit "1") (lit "1")) with true
    | change (str_eqb (lit "2") (lit "1")) with false;
      change (str_eqb (lit "2") (lit "2")) with true ];
    cbv beta iota;
    cbn [fst snd self world connections keyboard exchanges sleeps sockets trace];
    rewrite Hsk;
    destruct x as [msg|msg|msg|r]; try discriminate;
    cbn [fst snd self world connections keyboard exchanges sleeps sockets trace
         isinstance class_eqb exn_cls exn_msg orb is_Exception raise];
    unfold print, modify_world, log;
    cbn [fst snd self world connections keyboard exchanges sleeps sockets trace];
    (eexists; split; [reflexivity|]; split; [reflexivity|];
     split; [reflexivity|]; split; [reflexivity|];
     eapply last_new_events; [cbn [world trace]; reflexivity|];
     cbn [world trace]; eexists; rewrite <- !app_assoc; reflexivity).
Qed.

Lemma failed_exchange_turn_witness :
  exists s',
    loop_body ascii_lower
      (answering [RecvFails (lit "Connection reset by peer")]
         (typing [Line (lit "2")] alice_playing))
    = (Ret tt, s')
    /\ self s' = self alice_playing.
Proof.
  destruct (failed_exchange_turn ascii_lower
              (answering [RecvFails (lit "Connection reset by peer")]
                 (typing [Line (lit "2")] alice_playing))
              0%nat (lit "2") [] (RecvFails (lit "Connection reset by peer")) []
              eq_refl eq_refl (or_intror eq_refl) eq_refl eq_refl)
    as (s' & E & Hs & _).
  exists s'. split; assumption.
Defined.

(** ** The score table (lines 92-110) *)

Lemma combine_maps {A B C} (f : A -> B) (g : A -> C) (l : list A) :
  combine (map f l) (map g l) = map (fun a => (f a, g a)) l.
Proof. induction l as [|a l IH]; [reflexivity|]. cbn. now rewrite IH. Qed.

Lemma combine_snoc {A B} (l : list A) (l' : list B) (a : A) (b : B) :
  length l = length l' ->
  combine (l ++ [a]) (l' ++ [b]) = combine l l' ++ [(a, b)].
Proof.
  revert l'. induction l as [|x l IH]; intros [|y l'] H; try discriminate.
  - reflexivity.
  - cbn. rewrite IH; [reflexivity|]. now injection H.
Qed.

(** X22: The score table is kept by the client from one rendering to the
    next, and its columns decide what it takes.  When it takes the round
    labels (it has no column yet, or as many columns as there are labels)
    the table printed has one row; read column by column it pairs every
    round label with its score, in the order of [rounds_scores], and ends
    with the column "Pontuação Total" holding [total_score]; the client
    keeps that table.  When it has another number of columns the call
    raises [ValueError] and prints nothing, the rows of the kept table
    cleared and its title set.  Without [rounds_scores] the call raises
    [AttributeError], likewise. *)
Theorem score_table_columns (total_score : option number) (s : State) :
  __render_score_table None total_score s
  = (Raise (AttributeError_None "keys"),
     with_scores_table
       (retitled (__user_name (self s)) (__scores_table (self s))) s)
  /\ (forall rounds_scores,
        labels_accepted (__scores_table (self s)) rounds_scores ->
        exists t row,
          __render_score_table (Some rounds_scores) total_score s
          = (Ret tt, emit [EPrint (lit ""); EPrintTable t] (with_scores_table t s))
          /\ title t = Some (lit "Pontuação de " ++ format_opt (__user_name (self s)))
          /\ rows t = [row]
          /\ length row = length (field_names t)
          /\ combine (field_names t) row
             = map (fun kv => (fst kv, CNum (Some (snd kv)))) rounds_scores
                 ++ [(lit "Pontuação Total", CNum total_score)])
  /\ (forall rounds_scores,
        field_names (__scores_table (self s)) <> [] ->
        length rounds_scores <> length (field_names (__scores_table (self s))) ->
        __render_score_table (Some rounds_scores) total_score s
        = (Raise (Exn ValueError
                    (lit "Field name list has incorrect number of values, (actual) "
                     ++ str_of_int (Z.of_nat (length rounds_scores)) ++ lit "!="
                     ++ str_of_int
                          (Z.of_nat (length (field_names (__scores_table (self s)))))
                     ++ lit " (expected)")),
           with_scores_table
             (retitled (__user_name (self s)) (__scores_table (self s))) s)).
Proof.
  split; [reflexivity|]. split.
  - intros rounds_scores Hacc.
    rewrite (render_score_table_accepted _ _ _ Hacc).
    eexists. eexists. split; [reflexivity|]. unfold score_table.
    cbn [title rows field_names].
    split; [reflexivity|]. split; [reflexivity|]. split.
    + now rewrite !length_app, !length_map.
    + rewrite combine_snoc by now rewrite !length_map.
      now rewrite combine_maps.
  - intros rounds_scores Hn Hl.
    now rewrite (render_score_table_rejected _ _ _ Hn Hl).
Qed.

Lemma score_table_columns_witness :
  exists t,
    __render_score_table (Some [(lit "Rodada 1", PyInt 10)]) (Some (PyFloat S754_nan))
      alice_playing
    = (Ret tt,
       emit [EPrint (lit ""); EPrintTable t] (with_scores_table t alice_playing))
    /\ field_names t = [lit "Rodada 1"; lit "Pontuação Total"]
    /\ rows t = [[CNum (Some (PyInt 10)); CNum (Some (PyFloat S754_nan))]].
Proof.
  destruct (score_table_columns (Some (PyFloat S754_nan)) alice_playing)
    as (_ & H & _).
  destruct (H [(lit "Rodada 1", PyInt 10)]) as (t & row & E & _ & Hr & Hl & Hc).
  - split; [left; reflexivity|]. constructor; [intros [] | constructor].
  - exists t. split; [exact E|].
    vm_compute in E. injection E as <-. split; reflexivity.
Defined.

(** X23: Once a score table has been shown for [k] rounds, the client's
    table has [k + 1] columns: the next rendering goes through exactly
    for [k + 1] round labels, and for any other number, the same [k]
    included, it raises [ValueError] and prints nothing. *)
Theorem score_table_next_rendering (s : State)
    (first_scores next_scores : list (str * number))
    (first_total next_total : option number) :
  labels_accepted (__scores_table (self s)) first_scores ->
  NoDup (map fst next_scores) ->
  let s1 := snd (__render_score_table (Some first_scores) first_total s) in
  length (field_names (__scores_table (self s1))) = S (length first_scores)
  /\ (length next_scores = S (length first_scores) ->
      __render_score_table (Some next_scores) next_total s1
      = (Ret tt,
         emit [EPrint (lit "");
               EPrintTable (score_table (__user_name (self s)) next_scores next_total)]
              (with_scores_table
                 (score_table (__user_name (self s)) next_scores next_total) s1)))
  /\ (length next_scores <> S (length first_scores) ->
      fst (__render_score_table (Some next_scores) next_total s1)
      = Raise (wrong_label_count (length next_scores) (S (length first_scores)))
      /\ new_events s1 (snd (__render_score_table (Some next_scores) next_total s1))
         = []).
Proof.
  intros Hacc Hd. cbv zeta.
  rewrite (render_score_table_accepted _ _ _ Hacc). cbn [snd].
  match goal with
  | |- context [emit ?es ?s0] =>
    destruct (emit_trace es s0) as (_ & Hself & _);
    set (s1 := emit es s0) in *
  end.
  cbn [with_scores_table self] in Hself.
  assert (Hn : length (field_names (__scores_table (self s1)))
               = S (length first_scores)).
  { rewrite Hself. cbn [set_scores_table __scores_table score_table field_names].
    rewrite length_app, length_map. cbn [length]. lia. }
  assert (Hu : __user_name (self s1) = __user_name (self s))
    by (now rewrite Hself).
  split; [exact Hn|]. split.
  - intros Hl.
    rewrite render_score_table_accepted, Hu; [reflexivity|].
    split; [right; now rewrite Hn | exact Hd].
  - intros Hl.
    rewrite render_score_table_rejected.
    + cbn [fst snd]. rewrite Hn. split; [reflexivity|].
      apply new_events_app. cbn [with_scores_table world]. now rewrite app_nil_r.
    + intros E. rewrite E in Hn. discriminate.
    + now rewrite Hn.
Qed.

Lemma score_table_next_rendering_witness :
  fst (__render_score_table (Some [(lit "Rodada 1", PyInt 10)]) (Some (PyInt 10))
         (snd (__render_score_table (Some [(lit "Rodada 1", PyInt 10)])
                 (Some (PyInt 10)) alice_playing)))
  = Raise (wrong_label_count 1 2).
Proof.
  destruct (score_table_next_rendering alice_playing
              [(lit "Rodada 1", PyInt 10)] [(lit "Rodada 1", PyInt 10)]
              (Some (PyInt 10)) (Some (PyInt 10))) as (_ & _ & H).
  - split; [left; reflexivity|]. constructor; [intros [] | constructor].
  - constructor; [intros [] | constructor].
  - destruct H as (E & _); [cbn; lia | exact E].
Defined.
